(** * Test Integration Runner (tir.js): a shallow embedding

    The runner of [src/test-util/tir.js] is embedded function by function:
    [createKey], [rmDeep], [createConstitution] and the methods of [Tir]
    ([addDomain], [launch], [buildDomainConfiguration], [interact],
    [tearDown]).  Exceptions are an explicit [Throw] outcome that keeps the
    state reached so far, and everything the runner touches outside itself
    (file system, process table, ledger, timers, console) is a field of
    [World].

    What the embedding takes for granted:
    - names and paths are written in ASCII, and the locale has no rule of
      its own for the letters of ASCII: the case mapping embedded is the one
      the code then performs, and a statement that depends on it is stated
      for names that satisfy [JS.ascii_only];
    - [path] is the POSIX flavour and the file system is walked along the
      components of absolute paths;
    - [pskdb], [$$.blockchain], [interact] and [child_process] live outside
      this repository: they appear as the calls made on them, and those
      calls return;
    - [domainConfigs] is a plain object: its own properties in the order
      [Object.keys] lists them, and behind them the prototype chain with
      the members of [Object.prototype]; a describer is given by its own
      properties in the order [Object.keys] lists them. *)

From Stdlib Require Import String Ascii List Bool Arith NArith ZArith Lia.
From Stdlib Require Import DecimalString Sorted.
Import ListNotations.
Open Scope list_scope.
Open Scope string_scope.

(** ** JavaScript string primitives, on ASCII *)

Module JS.

Definition is_upper (c : ascii) : bool :=
  let n := nat_of_ascii c in ((65 <=? n) && (n <=? 90))%nat.

Definition is_lower (c : ascii) : bool :=
  let n := nat_of_ascii c in ((97 <=? n) && (n <=? 122))%nat.

Definition lower_char (c : ascii) : ascii :=
  if is_upper c then ascii_of_nat (nat_of_ascii c + 32) else c.

Definition upper_char (c : ascii) : ascii :=
  if is_lower c then ascii_of_nat (nat_of_ascii c - 32) else c.

Fixpoint map_string (f : ascii -> ascii) (s : string) : string :=
  match s with
  | EmptyString => EmptyString
  | String c s' => String (f c) (map_string f s')
  end.

(** [String.prototype.toLowerCase] / [toLocaleLowerCase], on a string
    written in ASCII (other characters are not looked at). *)
Definition toLowerCase : string -> string := map_string lower_char.

(** [String.prototype.toUpperCase] / [toLocaleUpperCase], on a string
    written in ASCII (other characters are not looked at). *)
Definition toUpperCase : string -> string := map_string upper_char.

(** [s.substr(start, len)] for non-negative arguments. *)
Definition substr (s : string) (start len : nat) : string :=
  substring start len s.

(** [s.substr(start)]. *)
Definition substr_from (s : string) (start : nat) : string :=
  substring start (String.length s - start) s.

(** [s.split(sep)] for a one-character separator: never empty,
    [split sep ""] is [[""]]. *)
Fixpoint split (sep : ascii) (s : string) : list string :=
  match s with
  | EmptyString => [EmptyString]
  | String c s' =>
      if Ascii.eqb c sep then EmptyString :: split sep s'
      else match split sep s' with
           | w :: ws => String c w :: ws
           | [] => [String c EmptyString]
           end
  end.

(** [Array.prototype.map] with the index passed to the callback. *)
Fixpoint mapi_from {A B} (i : nat) (f : A -> nat -> B) (l : list A) : list B :=
  match l with
  | [] => []
  | x :: l' => f x i :: mapi_from (S i) f l'
  end.

Definition mapi {A B} (f : A -> nat -> B) (l : list A) : list B :=
  mapi_from 0 f l.

(** [Array.prototype.join(sep)]. *)
Definition join (sep : string) (l : list string) : string :=
  String.concat sep l.

Fixpoint filter_string (p : ascii -> bool) (s : string) : string :=
  match s with
  | EmptyString => EmptyString
  | String c s' =>
      if p c then String c (filter_string p s') else filter_string p s'
  end.

Fixpoint In_string (c : ascii) (s : string) : Prop :=
  match s with
  | EmptyString => False
  | String d s' => d = c \/ In_string c s'
  end.

Fixpoint all_chars (p : ascii -> bool) (s : string) : bool :=
  match s with
  | EmptyString => true
  | String c s' => p c && all_chars p s'
  end.

(** Every character is one of the 128 of ASCII. *)
Definition ascii_only (s : string) : bool :=
  all_chars (fun c => (nat_of_ascii c <? 128)%nat) s.

End JS.

(** ** [createKey] *)

(** [createKey] (tir.js, lines 56-63).  The result of [parsed.replace] is
    dropped by the source (strings are immutable), so [parsed] is the name
    itself when it reaches [split]. *)
Definition createKey (name : string) : string :=
  let parsed := "" ++ name in
  JS.join ""
    (JS.mapi
       (fun word idx =>
          if Nat.eqb idx 0 then JS.toLowerCase word
          else JS.toUpperCase (JS.substr word 0 1)
               ++ JS.substr_from (JS.toLowerCase word) 1)
       (JS.split " " parsed)).

(** ** [path] (POSIX flavour) *)

Module Path.

Definition is_sep (c : ascii) : bool := Ascii.eqb c "/".

Definition isAbsolute (p : string) : bool :=
  match p with
  | String c _ => is_sep c
  | EmptyString => false
  end.

Fixpoint trailingSeparator (p : string) : bool :=
  match p with
  | EmptyString => false
  | String c EmptyString => is_sep c
  | String _ p' => trailingSeparator p'
  end.

(** [normalizeString], on the segments between separators: empty and [.]
    segments are dropped, [..] removes the segment before it unless there
    is none or it is [..] itself, in which case it is kept only when
    [allowAboveRoot].  [acc] is the output so far, last segment first. *)
Fixpoint normalizeSegs (allowAboveRoot : bool) (acc segs : list string)
  : list string :=
  match segs with
  | [] => rev acc
  | seg :: rest =>
      if (seg =? "") || (seg =? ".") then normalizeSegs allowAboveRoot acc rest
      else if seg =? ".." then
        match acc with
        | top :: acc' =>
            if top =? ".." then
              normalizeSegs allowAboveRoot
                (if allowAboveRoot then ".." :: acc else acc) rest
            else normalizeSegs allowAboveRoot acc' rest
        | [] =>
            normalizeSegs allowAboveRoot
              (if allowAboveRoot then [".."] else []) rest
        end
      else normalizeSegs allowAboveRoot (seg :: acc) rest
  end.

(** [path.normalize]. *)
Definition normalize (p : string) : string :=
  if p =? "" then "."
  else
    let abs := isAbsolute p in
    let trailing := trailingSeparator p in
    let body := JS.join "/" (normalizeSegs (negb abs) [] (JS.split "/" p)) in
    if body =? "" then
      if abs then "/" else if trailing then "./" else "."
    else
      (if abs then "/" else "") ++ body ++ (if trailing then "/" else "").

(** [path.join(...args)]: empty arguments are skipped, the rest is glued
    with [/] and normalized. *)
Definition join (args : list string) : string :=
  match filter (fun a => negb (a =? "")) args with
  | [] => "."
  | parts => normalize (JS.join "/" parts)
  end.

(** The components the file system walks for a path produced by [join]. *)
Definition components (p : string) : list string :=
  filter (fun seg => negb (seg =? "")) (JS.split "/" p).

(** A directory entry name: not empty, no separator, neither [.] nor [..]. *)
Definition plain (seg : string) : bool :=
  negb (seg =? "") && negb (seg =? ".") && negb (seg =? "..")
  && JS.all_chars (fun c => negb (is_sep c)) seg.

(** The absolute path with the given components. *)
Definition render (segs : list string) : string :=
  "/" ++ JS.join "/" segs.

End Path.

(** ** Exceptions and the state-and-exception monad *)

Inductive errno : Type :=
| ENOENT | EEXIST | ENOTDIR | EISDIR | ENOTEMPTY | EBUSY | ESRCH.

(** What a [throw] carries. *)
Inductive error : Type :=
| Error (message : string)
| TypeError (message : string)
| SystemError (code : errno) (syscall : string) (target : string).

(** A call returns, throws, or (in [rmDeep] only) exhausts its recursion
    budget.  The state is threaded through all three: what was done before
    a [throw] stays done. *)
Inductive outcome (A : Type) : Type :=
| Ok (a : A)
| Throw (e : error)
| OutOfFuel.
Arguments Ok {A} a.
Arguments Throw {A} e.
Arguments OutOfFuel {A}.

Definition M (S A : Type) : Type := S -> outcome A * S.

Definition ret {S A} (a : A) : M S A := fun s => (Ok a, s).

Definition throw {S A} (e : error) : M S A := fun s => (Throw e, s).

Definition bind {S A B} (m : M S A) (k : A -> M S B) : M S B :=
  fun s =>
    match m s with
    | (Ok a, s') => k a s'
    | (Throw e, s') => (Throw e, s')
    | (OutOfFuel, s') => (OutOfFuel, s')
    end.

Notation "x <- m ;; k" := (bind m (fun x => k))
  (at level 61, m at next level, right associativity).
Notation "m ;; k" := (bind m (fun _ => k))
  (at level 61, right associativity).

(** [try { m } catch (e) { h e }]. *)
Definition try_catch {S A} (m : M S A) (h : error -> M S A) : M S A :=
  fun s =>
    match m s with
    | (Throw e, s') => h e s'
    | r => r
    end.

(** [l.forEach(f)]. *)
Fixpoint forEach {S A} (l : list A) (f : A -> M S unit) : M S unit :=
  match l with
  | [] => ret tt
  | x :: l' => f x ;; forEach l' f
  end.

(** Runs [m] on a component of the state. *)
Definition lift {S T A} (proj : S -> T) (inj : T -> S -> S) (m : M T A)
  : M S A :=
  fun s => let (r, t') := m (proj s) in (r, inj t' s).

(** ** File system *)

Module Fs.

#[warnings="-register-all"]
Inductive node : Type :=
| File (content : string)
| Dir (entries : list (string * node)).

Definition entries := list (string * node).

(** Mutations that reached the disk, oldest first. *)
Inductive mutation : Type :=
| Mkdir (p : list string)
| WriteFile (p : list string) (content : string)
| Unlink (p : list string)
| Rmdir (p : list string).

Record state : Type := mkState {
  tree : node;              (* the root directory *)
  trace : list mutation
}.

Fixpoint find (x : string) (es : entries) : option node :=
  match es with
  | [] => None
  | (y, c) :: es' => if x =? y then Some c else find x es'
  end.

Fixpoint del (x : string) (es : entries) : entries :=
  match es with
  | [] => []
  | (y, c) :: es' => if x =? y then es' else (y, c) :: del x es'
  end.

Fixpoint map_entry (x : string) (g : node -> node) (es : entries) : entries :=
  match es with
  | [] => []
  | (y, c) :: es' =>
      if x =? y then (y, g c) :: es' else (y, c) :: map_entry x g es'
  end.

(** Adds [x], or replaces the entry of that name. *)
Definition put (x : string) (c : node) (es : entries) : entries :=
  match find x es with
  | Some _ => map_entry x (fun _ => c) es
  | None => (es ++ [(x, c)])%list
  end.

Fixpoint lookup (p : list string) (n : node) : option node :=
  match p with
  | [] => Some n
  | x :: p' =>
      match n with
      | File _ => None
      | Dir es =>
          match find x es with
          | Some c => lookup p' c
          | None => None
          end
      end
  end.

(** Rewrites the entry list of the directory at [p]. *)
Fixpoint update_at (p : list string) (f : entries -> entries) (n : node)
  {struct p} : node :=
  match n with
  | File c => File c
  | Dir es =>
      match p with
      | [] => Dir (f es)
      | x :: p' => Dir (map_entry x (update_at p' f) es)
      end
  end.

(** Parent and last component. *)
Fixpoint unsnoc (p : list string) : option (list string * string) :=
  match p with
  | [] => None
  | [x] => Some ([], x)
  | x :: p' =>
      match unsnoc p' with
      | Some (q, y) => Some (x :: q, y)
      | None => None
      end
  end.

Fixpoint height (n : node) : nat :=
  match n with
  | File _ => 0
  | Dir es =>
      S ((fix go (es : entries) : nat :=
            match es with
            | [] => 0
            | (_, c) :: es' => Nat.max (height c) (go es')
            end) es)
  end.

(** Every entry name below [n] is a name a directory can hold. *)
Fixpoint plain_names (n : node) : bool :=
  match n with
  | File _ => true
  | Dir es =>
      (fix go (es : entries) : bool :=
         match es with
         | [] => true
         | (x, c) :: es' => Path.plain x && plain_names c && go es'
         end) es
  end.

(** What a depth-first removal of [n] at [p] does to the disk, in order:
    the contents of a directory come before the directory itself. *)
Fixpoint postorder (p : list string) (n : node) : list mutation :=
  match n with
  | File _ => [Unlink p]
  | Dir es =>
      ((fix go (es : entries) : list mutation :=
          match es with
          | [] => []
          | (x, c) :: es' => postorder (p ++ [x]) c ++ go es'
          end) es ++ [Rmdir p])%list
  end.

(** *** The synchronous [fs] calls the runner makes *)

Definition existsSync (p : string) : M state bool :=
  fun s =>
    match lookup (Path.components p) (tree s) with
    | Some _ => (Ok true, s)
    | None => (Ok false, s)
    end.

Definition readdirSync (p : string) : M state (list string) :=
  fun s =>
    match lookup (Path.components p) (tree s) with
    | Some (Dir es) => (Ok (map fst es), s)
    | Some (File _) => (Throw (SystemError ENOTDIR "scandir" p), s)
    | None => (Throw (SystemError ENOENT "scandir" p), s)
    end.

(** [fs.lstatSync(p).isDirectory()]. *)
Definition lstat_isDirectory (p : string) : M state bool :=
  fun s =>
    match lookup (Path.components p) (tree s) with
    | Some (Dir _) => (Ok true, s)
    | Some (File _) => (Ok false, s)
    | None => (Throw (SystemError ENOENT "lstat" p), s)
    end.

Definition unlinkSync (p : string) : M state unit :=
  fun s =>
    let cs := Path.components p in
    match unsnoc cs with
    | None => (Throw (SystemError EISDIR "unlink" p), s)
    | Some (parent, x) =>
        match lookup cs (tree s) with
        | Some (File _) =>
            (Ok tt, mkState (update_at parent (del x) (tree s))
                            (trace s ++ [Unlink cs]))
        | Some (Dir _) => (Throw (SystemError EISDIR "unlink" p), s)
        | None => (Throw (SystemError ENOENT "unlink" p), s)
        end
    end.

(** Only an empty directory can be removed. *)
Definition rmdirSync (p : string) : M state unit :=
  fun s =>
    let cs := Path.components p in
    match unsnoc cs with
    | None => (Throw (SystemError EBUSY "rmdir" p), s)
    | Some (parent, x) =>
        match lookup cs (tree s) with
        | Some (Dir []) =>
            (Ok tt, mkState (update_at parent (del x) (tree s))
                            (trace s ++ [Rmdir cs]))
        | Some (Dir (_ :: _)) => (Throw (SystemError ENOTEMPTY "rmdir" p), s)
        | Some (File _) => (Throw (SystemError ENOTDIR "rmdir" p), s)
        | None => (Throw (SystemError ENOENT "rmdir" p), s)
        end
    end.

(** Not recursive: the parent has to exist and the name has to be free. *)
Definition mkdirSync (p : string) : M state unit :=
  fun s =>
    let cs := Path.components p in
    match unsnoc cs with
    | None => (Throw (SystemError EEXIST "mkdir" p), s)
    | Some (parent, x) =>
        match lookup parent (tree s) with
        | Some (Dir es) =>
            match find x es with
            | Some _ => (Throw (SystemError EEXIST "mkdir" p), s)
            | None =>
                (Ok tt, mkState (update_at parent (put x (Dir [])) (tree s))
                                (trace s ++ [Mkdir cs]))
            end
        | Some (File _) => (Throw (SystemError ENOTDIR "mkdir" p), s)
        | None => (Throw (SystemError ENOENT "mkdir" p), s)
        end
    end.

Definition writeFileSync (p : string) (content : string) : M state unit :=
  fun s =>
    let cs := Path.components p in
    match unsnoc cs with
    | None => (Throw (SystemError EISDIR "open" p), s)
    | Some (parent, x) =>
        match lookup parent (tree s) with
        | Some (Dir es) =>
            match find x es with
            | Some (Dir _) => (Throw (SystemError EISDIR "open" p), s)
            | _ =>
                (Ok tt, mkState (update_at parent (put x (File content)) (tree s))
                                (trace s ++ [WriteFile cs content]))
            end
        | Some (File _) => (Throw (SystemError ENOTDIR "open" p), s)
        | None => (Throw (SystemError ENOENT "open" p), s)
        end
    end.

End Fs.

(** ** [rmDeep] *)

(** [rmDeep] (tir.js, lines 65-77).  The recursion follows the directory
    tree on disk, so it is bounded by [fuel]; a budget of the height of
    the tree is enough. *)
Fixpoint rmDeep (fuel : nat) (folder : string) : M Fs.state unit :=
  match fuel with
  | 0 => fun s => (OutOfFuel, s)
  | S fuel' =>
      present <- Fs.existsSync folder ;;
      if (present : bool) then
        files <- Fs.readdirSync folder ;;
        forEach files (fun file =>
          let curPath := Path.join [folder; file] in
          isDirectory <- Fs.lstat_isDirectory curPath ;;
          if (isDirectory : bool) then rmDeep fuel' curPath
          else Fs.unlinkSync curPath) ;;
        Fs.rmdirSync folder
      else ret tt
  end.

(** ** Values *)

(** The argument values [launch] tells apart.  A callback is known by an
    identifier only: what it does is the test's business. *)
Inductive jsval : Type :=
| VUndefined
| VNull
| VNumber (n : Z)
| VFunction (id : nat).

(** Structured data as [JSON.stringify] sees it (numbers are integers). *)
#[warnings="-register-all"]
Inductive json : Type :=
| JNull
| JBool (b : bool)
| JNumber (n : Z)
| JString (s : string)
| JArray (items : list json)
| JObject (fields : list (string * json)).

(** The value of a property of a swarm description. *)
Inductive propval : Type :=
| PFunction (source : string)
| PData (j : json)
| PUndefined.

Definition typeof (v : propval) : string :=
  match v with
  | PFunction _ => "function"
  | PUndefined => "undefined"
  | PData (JString _) => "string"
  | PData (JNumber _) => "number"
  | PData (JBool _) => "boolean"
  | PData _ => "object"
  end.

Module Json.

Definition dquote : string := String (ascii_of_nat 34) "".
Definition newline : string := String (ascii_of_nat 10) "".

Definition decimal (n : Z) : string :=
  NilZero.string_of_int (Z.to_int n).

Definition hex_digit (n : nat) : ascii :=
  if (n <? 10)%nat then ascii_of_nat (48 + n) else ascii_of_nat (87 + n).

Definition escape_char (c : ascii) : string :=
  let n := nat_of_ascii c in
  if (n =? 34)%nat then "\" ++ dquote
  else if (n =? 92)%nat then "\\"
  else if (n =? 8)%nat then "\b"
  else if (n =? 9)%nat then "\t"
  else if (n =? 10)%nat then "\n"
  else if (n =? 12)%nat then "\f"
  else if (n =? 13)%nat then "\r"
  else if (n <? 32)%nat then
    "\u00" ++ String (hex_digit (n / 16)) (String (hex_digit (n mod 16)) "")
  else String c "".

Fixpoint escape (s : string) : string :=
  match s with
  | EmptyString => ""
  | String c s' => escape_char c ++ escape s'
  end.

Definition quote (s : string) : string := dquote ++ escape s ++ dquote.

(** [JSON.stringify] without indentation. *)
Fixpoint stringify (j : json) : string :=
  match j with
  | JNull => "null"
  | JBool true => "true"
  | JBool false => "false"
  | JNumber n => decimal n
  | JString s => quote s
  | JArray items => "[" ++ JS.join "," (map stringify items) ++ "]"
  | JObject fields =>
      "{"
      ++ JS.join ","
           ((fix go (fs : list (string * json)) : list string :=
               match fs with
               | [] => []
               | (k, v) :: fs' => (quote k ++ ":" ++ stringify v) :: go fs'
               end) fields)
      ++ "}"
  end.

End Json.

(** [value.toString()] on structured data: the characters of a string as
    they are, the digits of a number, the elements of an array joined by
    commas; [null] has no properties, so the call throws ([None]). *)
Fixpoint data_toString (j : json) : option string :=
  match j with
  | JNull => None
  | JBool true => Some "true"
  | JBool false => Some "false"
  | JNumber n => Some (Json.decimal n)
  | JString s => Some s
  | JArray items =>
      Some (JS.join ","
              (map (fun i => match data_toString i with
                             | Some t => t
                             | None => ""
                             end) items))
  | JObject _ => Some "[object Object]"
  end.

(** [value.toString()]: a function gives its source text; [undefined] has
    no properties either. *)
Definition toString {S} (v : propval) : M S string :=
  match v with
  | PFunction source => ret source
  | PData j =>
      match data_toString j with
      | Some t => ret t
      | None => throw (TypeError "Cannot read property 'toString' of null")
      end
  | PUndefined =>
      throw (TypeError "Cannot read property 'toString' of undefined")
  end.

(** ['' + JSON.stringify(value)]. *)
Definition JSON_stringify (v : propval) : string :=
  match v with
  | PData j => Json.stringify j
  | PFunction _ | PUndefined => "undefined"
  end.

(** ** [createConstitution] *)

Record options : Type := mkOptions {
  nl : string;
  semi : string;
  tab : string
}.

(** The [options] argument: each field may be left out. *)
Record overrides : Type := mkOverrides {
  o_nl : option string;
  o_semi : option string;
  o_tab : option string
}.

Definition no_overrides : overrides := mkOverrides None None None.

Definition or_default (o : option string) (d : string) : string :=
  match o with Some v => v | None => d end.

(** [Object.assign({nl: '\n', semi: ';', tab: '  '}, options)]. *)
Definition assign_defaults (o : overrides) : options :=
  mkOptions (or_default (o_nl o) Json.newline)
            (or_default (o_semi o) ";")
            (or_default (o_tab o) "  ").

Definition swarm_description : Type := list (string * propval).
Definition describer : Type := list (string * swarm_description).

(** [array.reduce((acc, x) => { acc.push(f(x)); return acc; }, [])]. *)
Fixpoint collect {S A B} (f : A -> M S B) (l : list A) : M S (list B) :=
  match l with
  | [] => ret []
  | x :: l' => y <- f x ;; ys <- collect f l' ;; ret (y :: ys)
  end.

(** The text pushed for one property of one swarm (lines 90-94). *)
Definition property_text {S} (opts : options) (prop : string) (v : propval)
  : M S string :=
  if typeof v =? "object" then
    ret (nl opts ++ tab opts ++ prop ++ ": " ++ JSON_stringify v)
  else
    text <- toString v ;;
    ret (nl opts ++ tab opts ++ prop ++ ": " ++ text).

(** The [line] built for one swarm (lines 88-97). *)
Definition swarm_line {S} (opts : options) (name : string)
  (props : swarm_description) : M S string :=
  fields <- collect (fun pv => property_text opts (fst pv) (snd pv)) props ;;
  ret ("$$.swarms.describe('" ++ name ++ "', {"
       ++ JS.join "," fields
       ++ nl opts ++ "})" ++ semi opts).

(** [createConstitution] (tir.js, lines 79-103). *)
Definition createConstitution (prefix : string) (d : describer)
  (o : overrides) : M Fs.state string :=
  let opts := assign_defaults o in
  let file := Path.join [prefix; "constitution.js"] in
  lines <- collect (fun sw => swarm_line opts (fst sw) (snd sw)) d ;;
  let contents := JS.join (nl opts) lines in
  Fs.writeFileSync file contents ;;
  ret file.

(** ** The runner and its surroundings *)

(** [constitution] of [addDomain]: a file path or a describer object. *)
Inductive constitution : Type :=
| ConstitutionPath (file : string)
| ConstitutionObject (d : describer).

Record DomainConfig : Type := mkDomainConfig {
  name : string;
  agents : option (list string);   (* [None]: left out *)
  dc_constitution : constitution;
  workspace : string;
  conf : string;
  inbound : string;
  outbound : string
}.

(** The ledger is driven through [pskdb] and [$$.blockchain]; the runner's
    part is the sequence of calls it makes. *)
Inductive handler : Type :=
| GlobalLedger                      (* [$$.blockchain] *)
| DomainLedger (conf : string).     (* [pskdb.createDBHandler(conf)] *)

Inductive ledger_call : Type :=
| StartDB (folder : string)
| CreateDBHandler (folder : string)
| BeginTransaction (h : handler)
| Lookup (h : handler) (kind key : string)
| Invoke (kind key method : string) (args : list string)
| Add (h : handler) (kind key : string)
| Commit (h : handler).

(** The closures handed to [setTimeout]. *)
Inductive timer : Type :=
| LaunchReady (tearDownAfter callable : jsval)   (* launch, lines 172-178 *)
| Watchdog                                       (* [() => this.tearDown(1)] *)
| Cleanup (exitStatus : option Z).               (* tearDown, lines 257-270 *)

Record World : Type := mkWorld {
  fs : Fs.state;
  live : list nat;                       (* processes that can be signalled *)
  spawned : list (nat * list string);    (* every [spawn], with its arguments *)
  next_pid : nat;
  ledger : list ledger_call;
  timers : list (jsval * timer);          (* pending, with their delays *)
  console : list string;
  called : list nat;                     (* callbacks invoked *)
  exited : option Z                      (* [process.exit] status *)
}.

(** *** [domainConfigs]: a plain object used as a map

    [domainConfigs] starts as [{}].  Its own properties are the descriptors
    [addDomain] assigns; a name that is not an own property is looked up
    along the prototype chain, which ends in [Object.prototype] and, once a
    descriptor has been assigned to [__proto__], starts with that
    descriptor. *)

(** What reading a property of [domainConfigs] can give; [undefined] is
    [None]. *)
Inductive member : Type :=
| Descriptor (cfg : DomainConfig)     (* a descriptor made by [addDomain] *)
| Text (s : string)                   (* a string field of the prototype *)
| AgentNames (l : list string)        (* its [agents] array *)
| Declaration (d : describer)         (* its [constitution] object *)
| Builtin (name : string)             (* a function of [Object.prototype] *)
| ObjectPrototype.                    (* [Object.prototype] itself *)

Fixpoint own_property (k : string) (m : list (string * DomainConfig))
  : option DomainConfig :=
  match m with
  | [] => None
  | (k', v) :: m' => if k =? k' then Some v else own_property k m'
  end.

(** The functions every object inherits from [Object.prototype]. *)
Definition builtin_names : list string :=
  ["constructor"; "__defineGetter__"; "__defineSetter__"; "hasOwnProperty";
   "__lookupGetter__"; "__lookupSetter__"; "isPrototypeOf";
   "propertyIsEnumerable"; "toString"; "valueOf"; "toLocaleString"].

(** [Object.prototype[k]], read through an object whose prototype is [p]:
    [__proto__] is an accessor that gives that prototype. *)
Definition object_prototype (k : string) (p : member) : option member :=
  if k =? "__proto__" then Some p
  else if existsb (String.eqb k) builtin_names then Some (Builtin k)
  else None.

(** The own properties of a descriptor (lines 124-132): [None] when [k] is
    not one of them, [Some None] when it is and holds [undefined]. *)
Definition descriptor_field (k : string) (cfg : DomainConfig)
  : option (option member) :=
  if k =? "name" then Some (Some (Text (name cfg)))
  else if k =? "agents" then Some (option_map AgentNames (agents cfg))
  else if k =? "constitution" then
    Some (Some match dc_constitution cfg with
               | ConstitutionPath file => Text file
               | ConstitutionObject d => Declaration d
               end)
  else if k =? "workspace" then Some (Some (Text (workspace cfg)))
  else if k =? "conf" then Some (Some (Text (conf cfg)))
  else if k =? "inbound" then Some (Some (Text (inbound cfg)))
  else if k =? "outbound" then Some (Some (Text (outbound cfg)))
  else None.

Record registry : Type := mkRegistry {
  own : list (string * DomainConfig);   (* as [Object.keys] lists them *)
  proto : option DomainConfig           (* [None]: [Object.prototype] *)
}.

(** [domainConfigs[k]]. *)
Definition get_config (k : string) (r : registry) : option member :=
  match own_property k (own r) with
  | Some cfg => Some (Descriptor cfg)
  | None =>
      match proto r with
      | Some p =>
          match descriptor_field k p with
          | Some v => v
          | None => object_prototype k (Descriptor p)
          end
      | None => object_prototype k ObjectPrototype
      end
  end.

(** An array index: the decimal text, without leading zeros, of an integer
    below [2^32 - 1]. *)
Definition digit_value (c : ascii) : option N :=
  let n := N_of_ascii c in
  if ((48 <=? n) && (n <=? 57))%N then Some (n - 48)%N else None.

Fixpoint decimal_value (acc : N) (s : string) : option N :=
  match s with
  | EmptyString => Some acc
  | String c s' =>
      match digit_value c with
      | Some d => decimal_value (10 * acc + d)%N s'
      | None => None
      end
  end.

Definition array_index (k : string) : option N :=
  match k with
  | EmptyString => None
  | String c rest =>
      if Ascii.eqb c "0" && negb (rest =? "") then None
      else match decimal_value 0 k with
           | Some n => if (n <=? 4294967294)%N then Some n else None
           | None => None
           end
  end.

(** Own property keys are listed with the array indices first, in ascending
    order, and the other names after them in the order they were created:
    whether a new key [k] goes before the existing key [k']. *)
Definition listed_before (k k' : string) : bool :=
  match array_index k, array_index k' with
  | Some i, Some j => (i <? j)%N
  | Some _, None => true
  | None, _ => false
  end.

Fixpoint replace_own (k : string) (v : DomainConfig)
  (m : list (string * DomainConfig)) : list (string * DomainConfig) :=
  match m with
  | [] => []
  | (k', v') :: m' =>
      if k =? k' then (k', v) :: m' else (k', v') :: replace_own k v m'
  end.

Fixpoint add_own (k : string) (v : DomainConfig)
  (m : list (string * DomainConfig)) : list (string * DomainConfig) :=
  match m with
  | [] => [(k, v)]
  | (k', v') :: m' =>
      if listed_before k k' then (k, v) :: (k', v') :: m'
      else (k', v') :: add_own k v m'
  end.

(** [domainConfigs[k] = v]: an own property keeps its place and takes the
    value; otherwise [__proto__] is the setter inherited from
    [Object.prototype], which makes [v] the prototype, and any other name
    becomes a new own property. *)
Definition set_config (k : string) (v : DomainConfig) (r : registry)
  : registry :=
  match own_property k (own r) with
  | Some _ => mkRegistry (replace_own k v (own r)) (proto r)
  | None =>
      if k =? "__proto__" then mkRegistry (own r) (Some v)
      else mkRegistry (add_own k v (own r)) (proto r)
  end.

(** [Object.keys(domainConfigs)]. *)
Definition Object_keys (r : registry) : list string := map fst (own r).

(** The private state of one [Tir] instance (lines 107-110). *)
Record Tir : Type := mkTir {
  domainConfigs : registry;
  rootFolder : string;
  testerNode : option nat
}.

Record State : Type := mkSt {
  tir : Tir;
  world : World
}.

Definition set_fs (f : Fs.state) (w : World) : World :=
  mkWorld f (live w) (spawned w) (next_pid w) (ledger w) (timers w)
          (console w) (called w) (exited w).

Definition set_world (w : World) (s : State) : State := mkSt (tir s) w.

Definition with_world (f : World -> World) : M State unit :=
  fun s => (Ok tt, mkSt (tir s) (f (world s))).

Definition with_tir (f : Tir -> Tir) : M State unit :=
  fun s => (Ok tt, mkSt (f (tir s)) (world s)).

Definition get_tir : M State Tir := fun s => (Ok (tir s), s).

(** A file-system call made from the runner. *)
Definition on_fs {A} (m : M Fs.state A) : M State A :=
  lift (fun s => fs (world s)) (fun f s => set_world (set_fs f (world s)) s) m.

(** [console.info(...args)]: the arguments separated by spaces. *)
Definition console_info (args : list string) : M State unit :=
  with_world (fun w =>
    mkWorld (fs w) (live w) (spawned w) (next_pid w) (ledger w) (timers w)
            (console w ++ [JS.join " " args]) (called w) (exited w)).

Definition ledger_do (c : ledger_call) : M State unit :=
  with_world (fun w =>
    mkWorld (fs w) (live w) (spawned w) (next_pid w) (ledger w ++ [c])
            (timers w) (console w) (called w) (exited w)).

Definition setTimeout (t : timer) (delay : jsval) : M State unit :=
  with_world (fun w =>
    mkWorld (fs w) (live w) (spawned w) (next_pid w) (ledger w)
            (timers w ++ [(delay, t)]) (console w) (called w) (exited w)).

(** [child_process.spawn(command, args, ...)]: a new process, alive. *)
Definition spawn (command : string) (args : list string) : M State nat :=
  fun s =>
    let w := world s in
    let pid := next_pid w in
    (Ok pid,
     set_world
       (mkWorld (fs w) (live w ++ [pid]) (spawned w ++ [(pid, command :: args)])
                (S pid) (ledger w) (timers w) (console w) (called w)
                (exited w)) s).

(** [process.kill(pid)]: the signal is delivered to a live process, which
    ends; there is nobody to signal otherwise, and the call throws. *)
Definition process_kill (pid : nat) : M State unit :=
  fun s =>
    let w := world s in
    if existsb (Nat.eqb pid) (live w) then
      (Ok tt,
       set_world
         (mkWorld (fs w) (filter (fun p => negb (Nat.eqb pid p)) (live w))
                  (spawned w) (next_pid w) (ledger w) (timers w) (console w)
                  (called w) (exited w)) s)
    else (Throw (SystemError ESRCH "kill" ""), s).

(** [process.exit(status)]. *)
Definition process_exit (status : Z) : M State unit :=
  with_world (fun w =>
    mkWorld (fs w) (live w) (spawned w) (next_pid w) (ledger w) (timers w)
            (console w) (called w) (Some status)).

(** [f()]. *)
Definition call (f : jsval) : M State unit :=
  match f with
  | VFunction id =>
      with_world (fun w =>
        mkWorld (fs w) (live w) (spawned w) (next_pid w) (ledger w) (timers w)
                (console w) (called w ++ [id]) (exited w))
  | _ => throw (TypeError "callable is not a function")
  end.

(** A process ending on its own: the environment's move, not the runner's. *)
Definition child_exits (pid : nat) (s : State) : State :=
  let w := world s in
  set_world
    (mkWorld (fs w) (filter (fun p => negb (Nat.eqb pid p)) (live w))
             (spawned w) (next_pid w) (ledger w) (timers w) (console w)
             (called w) (exited w)) s.

Definition nat_text (n : nat) : string :=
  NilZero.string_of_uint (Nat.to_uint n).

(** ** The methods of [Tir] *)

(** [addDomain] (tir.js, lines 122-135). *)
Definition addDomain (domain : string) (agents : option (list string))
  (c : constitution) : M State unit :=
  with_tir (fun t =>
    let workspace := Path.join [rootFolder t; "nodes"; createKey domain] in
    let domainConfig :=
      mkDomainConfig domain agents c workspace
        (Path.join [workspace; "conf"])
        (Path.join [workspace; "inbound"])
        (Path.join [workspace; "outbound"]) in
    mkTir (set_config domain domainConfig (domainConfigs t))
          (rootFolder t) (testerNode t)).

(** The block of [buildDomainConfiguration] that registers the domain
    (lines 199-206). *)
Definition register_domain (cfg : DomainConfig) (constitutionFile : string)
  : M State unit :=
  ledger_do (BeginTransaction GlobalLedger) ;;
  ledger_do (Lookup GlobalLedger "DomainReference" (name cfg)) ;;
  ledger_do (Invoke "DomainReference" (name cfg) "init" ["system"; name cfg]) ;;
  ledger_do (Invoke "DomainReference" (name cfg) "setWorkspace"
               [workspace cfg]) ;;
  ledger_do (Invoke "DomainReference" (name cfg) "setConstitution"
               [constitutionFile]) ;;
  ledger_do (Invoke "DomainReference" (name cfg) "addLocalInterface"
               ["local"; inbound cfg]) ;;
  ledger_do (Add GlobalLedger "DomainReference" (name cfg)) ;;
  ledger_do (Commit GlobalLedger).

(** The body of the loop over the agents (lines 213-217). *)
Definition register_agent (cfg : DomainConfig) (agentName : string)
  : M State unit :=
  console_info ["[TIR] domain " ++ name cfg ++ " agent"; agentName] ;;
  ledger_do (BeginTransaction (DomainLedger (conf cfg))) ;;
  ledger_do (Lookup (DomainLedger (conf cfg)) "Agent" agentName) ;;
  ledger_do (Add (DomainLedger (conf cfg)) "Agent" agentName) ;;
  ledger_do (Commit (DomainLedger (conf cfg))).

(** [buildDomainConfiguration] (tir.js, lines 187-220). *)
Definition buildDomainConfiguration (cfg : DomainConfig) : M State unit :=
  console_info ["[TIR] domain " ++ name cfg ++ " in workspace"; workspace cfg] ;;
  console_info ["[TIR] domain " ++ name cfg ++ " inbound"; inbound cfg] ;;
  on_fs (Fs.mkdirSync (workspace cfg)) ;;
  constitutionFile <-
    match dc_constitution cfg with
    | ConstitutionPath file => ret file
    | ConstitutionObject d =>
        on_fs (createConstitution (workspace cfg) d no_overrides)
    end ;;
  register_domain cfg constitutionFile ;;
  match agents cfg with
  | Some (first :: others) =>
      ledger_do (CreateDBHandler (conf cfg)) ;;
      console_info ["[TIR] domain " ++ name cfg ++ " starting agents..."] ;;
      forEach (first :: others) (register_agent cfg)
  | _ => ret tt
  end.

(** [tearDownAfter.call], read as a condition. *)
Definition has_call (v : jsval) : M State bool :=
  match v with
  | VUndefined => throw (TypeError "Cannot read property 'call' of undefined")
  | VNull => throw (TypeError "Cannot read property 'call' of null")
  | VNumber _ => ret false
  | VFunction _ => ret true
  end.

(** [launch] (tir.js, lines 144-179). *)
Definition launch (tearDownAfter callable : jsval) : M State unit :=
  args <-
    match callable with
    | VUndefined =>
        shift <- has_call tearDownAfter ;;
        if (shift : bool) then ret (VNull, tearDownAfter)
        else ret (tearDownAfter, callable)
    | _ => ret (tearDownAfter, callable)
    end ;;
  let tearDownAfter := fst args in
  let callable := snd args in
  t <- get_tir ;;
  match testerNode t with
  | Some _ => throw (Error "Test node already launched!")
  | None =>
      console_info ["[TIR] setting working folder root"; rootFolder t] ;;
      let confFolder := Path.join [rootFolder t; "conf"] in
      console_info ["[TIR] pskdb on"; confFolder] ;;
      ledger_do (StartDB confFolder) ;;
      on_fs (Fs.mkdirSync (Path.join [rootFolder t; "nodes"])) ;;
      console_info ["[TIR] start building nodes..."] ;;
      forEach (Object_keys (domainConfigs t)) (fun name =>
        (* a key listed by [Object.keys] is an own property: a descriptor *)
        match get_config name (domainConfigs t) with
        | Some (Descriptor domainConfig) =>
            buildDomainConfiguration domainConfig
        | _ => throw (TypeError "Cannot read property 'name' of undefined")
        end) ;;
      pid <- spawn "node" ["./../../../engine/launcher"; confFolder; rootFolder t] ;;
      with_tir (fun t => mkTir (domainConfigs t) (rootFolder t) (Some pid)) ;;
      setTimeout (LaunchReady tearDownAfter callable) (VNumber 10)
  end.

(** *** Correlation tokens

    [Math.random().toString(36)] prints [0] for zero and otherwise [0.]
    followed by the base-36 digits of the fraction, as many as tell the
    number from its neighbours.  The outcome of the random source is
    represented by those digits; one half prints as [0.i]. *)

Definition digit36 (d : nat) : ascii :=
  if (d <? 10)%nat then ascii_of_nat (48 + d) else ascii_of_nat (87 + d).

Fixpoint digits36 (ds : list nat) : string :=
  match ds with
  | [] => ""
  | d :: ds' => String (digit36 d) (digits36 ds')
  end.

Definition toString36 (ds : list nat) : string :=
  match ds with
  | [] => "0"
  | _ => "0." ++ digits36 ds
  end.

(** The base-36 digits of [m / 2^bits], for a fraction whose expansion ends
    within [fuel] digits. *)
Fixpoint dyadic_digits (fuel : nat) (bits : N) (m : N) : list nat :=
  match fuel with
  | 0 => []
  | S fuel' =>
      if (m =? 0)%N then []
      else N.to_nat (m * 36 / 2 ^ bits)
             :: dyadic_digits fuel' bits ((m * 36) mod 2 ^ bits)
  end.

(** [Math.random().toString(36).substr(2, 9)]. *)
Definition token (random : list nat) : string :=
  JS.substr (toString36 random) 2 9.

(** What [interact.createNodeInteractionSpace] is given. *)
Record InteractionSpace : Type := mkInteractionSpace {
  is_agent : string;
  is_inbound : string;
  is_returnChannel : string
}.

(** What [path.join] throws when an argument is not a string (the message
    is Node's own and says what was received; its first words are kept). *)
Definition path_not_a_string : error := TypeError "Path must be a string".

(** [interact] (tir.js, lines 229-243); [random] is what [Math.random]
    yields in this call.  Only a descriptor has a string for [outbound]:
    with anything else that is not [undefined], line 234 hands [path.join]
    something that is not a string. *)
Definition interact (domain agent : string) (random : list nat)
  : M State InteractionSpace :=
  t <- get_tir ;;
  match get_config domain (domainConfigs t) with
  | None =>
      throw (Error ("Could not find domain " ++ domain ++ " in "
                    ++ JS.join ", " (Object_keys (domainConfigs t))))
  | Some (Descriptor domainConfig) =>
      let returnChannel := Path.join [outbound domainConfig; token random] in
      try_catch (on_fs (Fs.mkdirSync (outbound domainConfig)))
                (fun _ => ret tt) ;;
      console_info ["[TIR] Interacting with " ++ name domainConfig ++ "/"
                    ++ agent ++ " on"; returnChannel] ;;
      ret (mkInteractionSpace agent (inbound domainConfig) returnChannel)
  | Some _ => throw path_not_a_string
  end.

(** [tearDown] (tir.js, lines 250-271): the part that runs in the call. *)
Definition tearDown (exitStatus : option Z) : M State unit :=
  console_info ["[TIR] Tearing down..."] ;;
  t <- get_tir ;;
  match testerNode t with
  | Some pid =>
      console_info ["[TIR] Killing node"; nat_text pid] ;;
      process_kill pid ;;
      with_tir (fun t => mkTir (domainConfigs t) (rootFolder t) None)
  | None => ret tt
  end ;;
  setTimeout (Cleanup exitStatus) (VNumber 100).

(** The recursion budget [rmDeep] gets for a given disk. *)
Definition budget (f : Fs.state) : nat := S (Fs.height (Fs.tree f)).

(** What a timer does when it fires. *)
Definition fire (t : timer) : M State unit :=
  match t with
  | LaunchReady tearDownAfter callable =>
      match tearDownAfter with
      | VNull => ret tt
      | _ => setTimeout Watchdog tearDownAfter
      end ;;
      call callable
  | Watchdog => tearDown (Some 1%Z)
  | Cleanup exitStatus =>
      try_catch
        (r <- get_tir ;;
         console_info ["[TIR] Removing temporary folder"; rootFolder r] ;;
         (fun s => on_fs (rmDeep (budget (fs (world s))) (rootFolder r)) s) ;;
         console_info ["[TIR] Temporary folder removed"; rootFolder r])
        (fun _ => ret tt) ;;
      match exitStatus with
      | Some status => process_exit status
      | None => ret tt
      end
  end.

(** A freshly constructed runner (lines 107-110): [fs.mkdtempSync] has made
    the root folder [/tmp/psk_<suffix>]. *)
Definition new_Tir (suffix : string) : State :=
  let root := ["tmp"; "psk_" ++ suffix] in
  mkSt (mkTir (mkRegistry [] None) (Path.render root) None)
       (mkWorld
          (Fs.mkState (Fs.Dir [("tmp", Fs.Dir [("psk_" ++ suffix, Fs.Dir [])])])
                      [Fs.Mkdir root])
          [] [] 1000 [] [] [] [] None).

(** ** Vocabulary of the statements *)

Definition already_launched : error := Error "Test node already launched!".

(** [launch] can read its arguments: a callback was passed, or at least
    something that has properties. *)
Definition readable_args (tearDownAfter callable : jsval) : bool :=
  match callable, tearDownAfter with
  | VUndefined, VUndefined | VUndefined, VNull => false
  | _, _ => true
  end.

(** Whatever [m] throws, it is not an [Error] made by the runner itself. *)
Definition raises_no_Error {S A} (m : M S A) : Prop :=
  forall s, match fst (m s) with
            | Throw (Error _) => False
            | _ => True
            end.

Definition is_throw {A} (r : outcome A) : bool :=
  match r with Throw _ => true | _ => false end.

(** The transactions committed on handler [h] by a sequence of calls, each
    with the entities added to it, oldest first.  [pending] is the open
    transaction, if any. *)
Definition handler_eqb (h1 h2 : handler) : bool :=
  match h1, h2 with
  | GlobalLedger, GlobalLedger => true
  | DomainLedger c1, DomainLedger c2 => c1 =? c2
  | _, _ => false
  end.

Fixpoint commits_from (h : handler) (pending : option (list (string * string)))
  (calls : list ledger_call) : list (list (string * string)) :=
  match calls with
  | [] => []
  | BeginTransaction h' :: rest =>
      commits_from h (if handler_eqb h h' then Some [] else pending) rest
  | Add h' kind key :: rest =>
      commits_from h
        (if handler_eqb h h'
         then option_map (fun l => (l ++ [(kind, key)])%list) pending
         else pending) rest
  | Commit h' :: rest =>
      if handler_eqb h h' then
        match pending with
        | Some l => l :: commits_from h None rest
        | None => commits_from h None rest
        end
      else commits_from h pending rest
  | _ :: rest => commits_from h pending rest
  end.

Definition commits (h : handler) (calls : list ledger_call)
  : list (list (string * string)) :=
  commits_from h None calls.

(** The calls on handler [h]. *)
Definition on_handler (h : handler) (c : ledger_call) : bool :=
  match c with
  | BeginTransaction h' | Lookup h' _ _ | Add h' _ _ | Commit h' =>
      handler_eqb h h'
  | _ => false
  end.

(** The four calls one agent costs. *)
Definition agent_transaction (h : handler) (agentName : string)
  : list ledger_call :=
  [BeginTransaction h; Lookup h "Agent" agentName; Add h "Agent" agentName;
   Commit h].

Definition is_alnum (c : ascii) : bool :=
  let n := nat_of_ascii c in
  ((48 <=? n) && (n <=? 57) || JS.is_upper c || JS.is_lower c)%nat.

(** Every configuration stored carries the workspace [addDomain] derives
    from its key. *)
Definition derived_workspaces (t : Tir) : Prop :=
  forall domain cfg,
    get_config domain (domainConfigs t) = Some (Descriptor cfg) ->
    workspace cfg = Path.join [rootFolder t; "nodes"; createKey domain].

(** [m] always returns, and what it adds to the ledger is [calls]. *)
Definition ledger_writes {A} (m : M State A) (calls : list ledger_call)
  : Prop :=
  forall s, exists a s',
    m s = (Ok a, s')
    /\ ledger (world s') = (ledger (world s) ++ calls)%list.

(** The calls that register the domain itself. *)
Definition domain_transaction (cfg : DomainConfig) (constitutionFile : string)
  : list ledger_call :=
  [BeginTransaction GlobalLedger;
   Lookup GlobalLedger "DomainReference" (name cfg);
   Invoke "DomainReference" (name cfg) "init" ["system"; name cfg];
   Invoke "DomainReference" (name cfg) "setWorkspace" [workspace cfg];
   Invoke "DomainReference" (name cfg) "setConstitution" [constitutionFile];
   Invoke "DomainReference" (name cfg) "addLocalInterface"
     ["local"; inbound cfg];
   Add GlobalLedger "DomainReference" (name cfg);
   Commit GlobalLedger].

(** What the handler of the domain is asked to do when there are agents. *)
Definition agents_calls (cfg : DomainConfig) (l : list string)
  : list ledger_call :=
  match l with
  | [] => []
  | _ => CreateDBHandler (conf cfg)
         :: flat_map (agent_transaction (DomainLedger (conf cfg))) l
  end.

(** No path separator in [s]. *)
Definition no_sep (s : string) : bool :=
  JS.all_chars (fun c => negb (Path.is_sep c)) s.

(** The workspace stored for [domain], if it is registered. *)
Definition workspace_of (domain : string) (s : State) : option string :=
  match get_config domain (domainConfigs (tir s)) with
  | Some (Descriptor cfg) => Some (workspace cfg)
  | _ => None
  end.

(** What removing the entries [es] of the directory [p] does to the disk. *)
Definition postorder_entries (p : list string) (es : Fs.entries)
  : list Fs.mutation :=
  flat_map (fun e => Fs.postorder (p ++ [fst e])%list (snd e)) es.

(** What [rmDeep] does with a directory, stated for a given budget. *)
Definition removes_directories (fuel : nat) : Prop :=
  forall (cs : Fs.entries) (parent : list string) (x : string)
         (tree : Fs.node) (trace : list Fs.mutation),
    Fs.height (Fs.Dir cs) <= fuel ->
    Fs.plain_names (Fs.Dir cs) = true ->
    forallb Path.plain (parent ++ [x]) = true ->
    Fs.lookup (parent ++ [x]) tree = Some (Fs.Dir cs) ->
    rmDeep fuel (Path.render (parent ++ [x])) (Fs.mkState tree trace)
    = (Ok tt,
       Fs.mkState (Fs.update_at parent (Fs.del x) tree)
                  (trace ++ Fs.postorder (parent ++ [x]) (Fs.Dir cs))).

(** The path a mutation is about. *)
Definition target (m : Fs.mutation) : list string :=
  match m with
  | Fs.Mkdir p | Fs.WriteFile p _ | Fs.Unlink p | Fs.Rmdir p => p
  end.

(** [q] is strictly below [p]. *)
Definition below (p q : list string) : Prop :=
  exists r, r <> [] /\ q = (p ++ r)%list.

(** [addDomain] has been called with this name: the descriptor is an own
    property, or it is the prototype. *)
Definition registered (domain : string) (r : registry) : Prop :=
  In domain (Object_keys r) \/ (domain = "__proto__" /\ proto r <> None).

(** The names a plain object answers to without having them. *)
Definition inherited_names : list string := "__proto__" :: builtin_names.

(** *** Scenarios *)

Definition demo_describer : describer :=
  [("echo",
    [("say", PFunction "function (input) { this.return('Echo ' + input); }");
     ("public", PData (JObject [("result", JString "int")]))])].

(** One domain, three agents, nothing launched yet. *)
Definition demo_configured : State :=
  snd (addDomain "local" (Some ["a0"; "a1"; "a2"])
         (ConstitutionObject demo_describer) (new_Tir "x7Gk2p")).

(** The same after [launch(5000, callback)]. *)
Definition demo_launched : State :=
  snd (launch (VNumber 5000) (VFunction 1) demo_configured).

(** The launcher has ended on its own before the test tears down. *)
Definition demo_orphaned : State := child_exits 1000 demo_launched.

(** The launched demo after [tearDown()], its timers still pending. *)
Definition demo_torn_down : State := snd (tearDown None demo_launched).

(** The configured demo once [launch] has made the [nodes] folder. *)
Definition demo_nodes : State :=
  snd (on_fs (Fs.mkdirSync "/tmp/psk_x7Gk2p/nodes") demo_configured).

(** The configuration [addDomain] stored for [local]. *)
Definition demo_local : DomainConfig :=
  mkDomainConfig "local" (Some ["a0"; "a1"; "a2"])
    (ConstitutionObject demo_describer)
    "/tmp/psk_x7Gk2p/nodes/local" "/tmp/psk_x7Gk2p/nodes/local/conf"
    "/tmp/psk_x7Gk2p/nodes/local/inbound"
    "/tmp/psk_x7Gk2p/nodes/local/outbound".

(** A swarm description as [swarmBasicTest.js] passes to
    [$$.swarms.describe]: [type] is a string. *)
Definition flow_describer : describer :=
  [("simpleSwarm",
    [("type", PData (JString "flow"));
     ("public", PData (JObject [("result", JString "int")]));
     ("begin", PFunction "function(a1,a2){ this.result = a1 + a2; }")])].

(** A disk with the folder [/w] and nothing else. *)
Definition flow_disk : Fs.state := Fs.mkState (Fs.Dir [("w", Fs.Dir [])]) [].

(** Two domains with different keys. *)
Definition two_domains : State :=
  snd (addDomain "beta node" (Some []) (ConstitutionPath "swarms.js")
         (snd (addDomain "alpha" (Some []) (ConstitutionPath "swarms.js")
                 (new_Tir "x7Gk2p")))).

(** Two domains whose names differ in case only. *)
Definition case_variants : State :=
  snd (addDomain "AB" (Some []) (ConstitutionPath "swarms.js")
         (snd (addDomain "ab" (Some []) (ConstitutionPath "swarms.js")
                 (new_Tir "x7Gk2p")))).

(** The [nodes] folder of the launched demo, as found on its disk. *)
Definition demo_nodes_entries : Fs.entries :=
  match Fs.lookup ["tmp"; "psk_x7Gk2p"; "nodes"]
          (Fs.tree (fs (world demo_launched))) with
  | Some (Fs.Dir es) => es
  | _ => []
  end.

(** The demo domain with a describer that has an [undefined] property. *)
Definition broken_local : DomainConfig :=
  mkDomainConfig "local" (Some ["a0"])
    (ConstitutionObject [("echo", [("say", PUndefined)])])
    "/tmp/psk_x7Gk2p/nodes/local" "/tmp/psk_x7Gk2p/nodes/local/conf"
    "/tmp/psk_x7Gk2p/nodes/local/inbound"
    "/tmp/psk_x7Gk2p/nodes/local/outbound".

(** The text [property_text] puts after the colon, when there is one. *)
Definition rendered (v : propval) : option string :=
  match v with
  | PFunction source => Some source
  | PUndefined => None
  | PData j =>
      if typeof (PData j) =? "object" then Some (Json.stringify j)
      else data_toString j
  end.

(** All the results, if every element has one. *)
Fixpoint all_some {A B} (g : A -> option B) (l : list A) : option (list B) :=
  match l with
  | [] => Some []
  | x :: l' =>
      match g x, all_some g l' with
      | Some y, Some ys => Some (y :: ys)
      | _, _ => None
      end
  end.

(** The generated source as a value: [None] when some property has no
    text. *)
Definition constitution_source (opts : options) (d : describer)
  : option string :=
  option_map (JS.join (nl opts))
    (all_some
       (fun sw =>
          option_map
            (fun fields =>
               "$$.swarms.describe('" ++ fst sw ++ "', {"
               ++ JS.join "," fields ++ nl opts ++ "})" ++ semi opts)
            (all_some
               (fun pv =>
                  option_map
                    (fun text => nl opts ++ tab opts ++ fst pv ++ ": " ++ text)
                    (rendered (snd pv)))
               (snd sw)))
       d).

(** Some property of some swarm is [undefined]. *)
Definition has_undefined (d : describer) : bool :=
  existsb
    (fun sw =>
       existsb (fun pv => match snd pv with PUndefined => true | _ => false end)
               (snd sw))
    d.

(** Every property of every swarm is a function, an object, an array or
    [null]. *)
Definition functions_and_objects (d : describer) : bool :=
  forallb
    (fun sw =>
       forallb (fun pv => match snd pv with
                          | PFunction _ => true
                          | v => typeof v =? "object"
                          end)
               (snd sw))
    d.

(** One registration call per swarm: functions as their source text, data
    as JSON. *)
Definition declared_source (opts : options) (d : describer) : string :=
  JS.join (nl opts)
    (map (fun sw =>
            "$$.swarms.describe('" ++ fst sw ++ "', {"
            ++ JS.join ","
                 (map (fun pv =>
                         nl opts ++ tab opts ++ fst pv ++ ": "
                         ++ match snd pv with
                            | PFunction source => source
                            | PData j => Json.stringify j
                            | PUndefined => "undefined"
                            end)
                      (snd sw))
            ++ nl opts ++ "})" ++ semi opts)
         d).

Definition undefined_has_no_toString : error :=
  TypeError "Cannot read property 'toString' of undefined".

(** The runner itself, the processes, the timers and the callbacks are the
    same in both states. *)
Definition same_processes (s s' : State) : Prop :=
  tir s' = tir s
  /\ live (world s') = live (world s)
  /\ spawned (world s') = spawned (world s)
  /\ next_pid (world s') = next_pid (world s)
  /\ timers (world s') = timers (world s)
  /\ called (world s') = called (world s)
  /\ exited (world s') = exited (world s).

Definition same_disk (s s' : State) : Prop := fs (world s') = fs (world s).

Definition same_ledger (s s' : State) : Prop :=
  ledger (world s') = ledger (world s).

(** In whatever way [m] ends, the state it leaves is [R]-related to the one
    it found. *)
Definition keeps {A} (R : State -> State -> Prop) (m : M State A) : Prop :=
  forall s, R s (snd (m s)).

Definition preorder (R : State -> State -> Prop) : Prop :=
  (forall s, R s s) /\ (forall s1 s2 s3, R s1 s2 -> R s2 s3 -> R s1 s3).

(** The constitution file the ledger is told about. *)
Definition provisioned_file (cfg : DomainConfig) : string :=
  match dc_constitution cfg with
  | ConstitutionPath file => file
  | ConstitutionObject _ => Path.join [workspace cfg; "constitution.js"]
  end.

(** The calls made for the agents of a domain. *)
Definition agents_part (cfg : DomainConfig) : list ledger_call :=
  match agents cfg with
  | Some l => agents_calls cfg l
  | None => []
  end.

(** Everything the ledger is asked when one domain is provisioned. *)
Definition provisioning_calls (cfg : DomainConfig) : list ledger_call :=
  (domain_transaction cfg (provisioned_file cfg) ++ agents_part cfg)%list.

(** The arguments as [launch] uses them after its first lines: a callback
    passed alone is the callback, and there is no delay. *)
Definition shifted_args (tearDownAfter callable : jsval) : jsval * jsval :=
  match callable, tearDownAfter with
  | VUndefined, VFunction _ => (VNull, tearDownAfter)
  | _, _ => (tearDownAfter, callable)
  end.

(** When [m] does not return, the state it leaves is [R]-related to the one
    it found. *)
Definition keeps_on_failure {A} (R : State -> State -> Prop) (m : M State A)
  : Prop :=
  forall s, match fst (m s) with
            | Ok _ => True
            | _ => R s (snd (m s))
            end.

(** The descriptors in the order of their keys. *)
Definition known_configs (m : registry) : list DomainConfig :=
  flat_map (fun k => match get_config k m with
                     | Some (Descriptor cfg) => [cfg]
                     | _ => []
                     end)
           (Object_keys m).

(** Two paths part ways: they agree up to some point and then name
    different entries. *)
Definition part_ways (p q : list string) : Prop :=
  exists common a b p' q',
    p = (common ++ a :: p')%list /\ q = (common ++ b :: q')%list /\ a <> b.

(** The exit status as the removal leaves it. *)
Definition exit_after (exitStatus : option Z) (before : option Z) : option Z :=
  match exitStatus with
  | Some status => Some status
  | None => before
  end.

(** [k] may be listed before [k']: array indices in ascending order, and
    before the other names. *)
Definition key_order (k k' : string) : Prop :=
  match array_index k, array_index k' with
  | Some i, Some j => (i <= j)%N
  | None, Some _ => False
  | _, None => True
  end.

(** The names a sequence of [addDomain] calls was made with. *)
Definition added (calls : list (string * option (list string) * constitution))
  : list string :=
  map (fun call => fst (fst call)) calls.

(** The runner after a sequence of [addDomain] calls. *)
Definition configure
  (calls : list (string * option (list string) * constitution)) (s : State)
  : State :=
  fold_left
    (fun s call => snd (addDomain (fst (fst call)) (snd (fst call)) (snd call) s))
    calls s.

(** * Facts *)

Create HintDb no_error.

(** ** The monad *)

(** Splits conjunctions, and nothing else. *)
Ltac conj := repeat match goal with |- _ /\ _ => split end.

Lemma raises_no_Error_ret {S A} (a : A) : raises_no_Error (@ret S A a).
Proof. intros s; exact I. Qed.

Lemma raises_no_Error_bind {S A B} (m : M S A) (k : A -> M S B) :
  raises_no_Error m -> (forall a, raises_no_Error (k a)) ->
  raises_no_Error (bind m k).
Proof.
  intros Hm Hk s. unfold bind. specialize (Hm s).
  destruct (m s) as [[a|e|] s']; simpl in *; auto.
  apply Hk.
Qed.

Lemma raises_no_Error_forEach {S A} (l : list A) (f : A -> M S unit) :
  (forall x, raises_no_Error (f x)) -> raises_no_Error (forEach l f).
Proof.
  intros Hf. induction l as [|x l IH]; simpl.
  - apply raises_no_Error_ret.
  - apply raises_no_Error_bind; auto.
Qed.

Lemma raises_no_Error_collect {S A B} (f : A -> M S B) (l : list A) :
  (forall x, raises_no_Error (f x)) -> raises_no_Error (collect f l).
Proof.
  intros Hf. induction l as [|x l IH]; simpl.
  - apply raises_no_Error_ret.
  - apply raises_no_Error_bind; auto. intros y.
    apply raises_no_Error_bind; auto. intros ys. apply raises_no_Error_ret.
Qed.

Lemma raises_no_Error_lift {S T A} (proj : S -> T) (inj : T -> S -> S)
  (m : M T A) :
  raises_no_Error m -> raises_no_Error (lift proj inj m).
Proof.
  intros Hm s. unfold lift. specialize (Hm (proj s)).
  destruct (m (proj s)) as [r t']. exact Hm.
Qed.

Lemma raises_no_Error_with_world (f : World -> World) :
  raises_no_Error (with_world f).
Proof. intros s; exact I. Qed.

Lemma raises_no_Error_with_tir (f : Tir -> Tir) :
  raises_no_Error (with_tir f).
Proof. intros s; exact I. Qed.

Lemma raises_no_Error_mkdirSync (p : string) :
  raises_no_Error (Fs.mkdirSync p).
Proof.
  intros s. unfold Fs.mkdirSync.
  destruct (Fs.unsnoc (Path.components p)) as [[parent x]|]; simpl; auto.
  destruct (Fs.lookup parent (Fs.tree s)) as [[c|es]|]; simpl; auto.
  destruct (Fs.find x es); simpl; auto.
Qed.

Lemma raises_no_Error_writeFileSync (p content : string) :
  raises_no_Error (Fs.writeFileSync p content).
Proof.
  intros s. unfold Fs.writeFileSync.
  destruct (Fs.unsnoc (Path.components p)) as [[parent x]|]; simpl; auto.
  destruct (Fs.lookup parent (Fs.tree s)) as [[c|es]|]; simpl; auto.
  destruct (Fs.find x es) as [[c|es']|]; simpl; auto.
Qed.

Lemma raises_no_Error_toString {S} (v : propval) :
  raises_no_Error (@toString S v).
Proof.
  intros s. destruct v as [src|j|]; simpl; auto.
  destruct (data_toString j); simpl; auto.
Qed.

Lemma raises_no_Error_createConstitution (prefix : string) (d : describer)
  (o : overrides) :
  raises_no_Error (createConstitution prefix d o).
Proof.
  unfold createConstitution.
  apply raises_no_Error_bind.
  - apply raises_no_Error_collect. intros [swarm props]. unfold swarm_line.
    apply raises_no_Error_bind; [|intros; apply raises_no_Error_ret].
    apply raises_no_Error_collect. intros [prop v]. unfold property_text.
    cbn [fst snd]. destruct (typeof v =? "object").
    + apply raises_no_Error_ret.
    + apply raises_no_Error_bind; [apply raises_no_Error_toString|].
      intros; apply raises_no_Error_ret.
  - intros lines. apply raises_no_Error_bind.
    + apply raises_no_Error_writeFileSync.
    + intros; apply raises_no_Error_ret.
Qed.

Lemma raises_no_Error_console_info (args : list string) :
  raises_no_Error (console_info args).
Proof. apply raises_no_Error_with_world. Qed.

Lemma raises_no_Error_ledger_do (c : ledger_call) :
  raises_no_Error (ledger_do c).
Proof. apply raises_no_Error_with_world. Qed.

Lemma raises_no_Error_setTimeout (t : timer) (delay : jsval) :
  raises_no_Error (setTimeout t delay).
Proof. apply raises_no_Error_with_world. Qed.

Lemma raises_no_Error_spawn (command : string) (args : list string) :
  raises_no_Error (spawn command args).
Proof. intros s; exact I. Qed.

Lemma raises_no_Error_on_fs {A} (m : M Fs.state A) :
  raises_no_Error m -> raises_no_Error (on_fs m).
Proof. apply raises_no_Error_lift. Qed.

Lemma raises_no_Error_TypeError {S A} (message : string) :
  raises_no_Error (@throw S A (TypeError message)).
Proof. intros s; exact I. Qed.

#[local] Hint Resolve raises_no_Error_ret raises_no_Error_with_world
  raises_no_Error_TypeError
  raises_no_Error_with_tir raises_no_Error_mkdirSync
  raises_no_Error_createConstitution raises_no_Error_console_info
  raises_no_Error_ledger_do raises_no_Error_setTimeout raises_no_Error_spawn
  raises_no_Error_on_fs : no_error.

(** Walks through a sequence of calls, leaving what the hints do not know. *)
Ltac no_error :=
  repeat first
    [ solve [auto with no_error]
    | apply raises_no_Error_bind; [|intros]
    | apply raises_no_Error_forEach; intros
    | match goal with
      | |- raises_no_Error (match ?x with _ => _ end) => destruct x
      end ].

Lemma raises_no_Error_buildDomainConfiguration (cfg : DomainConfig) :
  raises_no_Error (buildDomainConfiguration cfg).
Proof.
  unfold buildDomainConfiguration, register_domain. no_error.
Qed.

#[local] Hint Resolve raises_no_Error_buildDomainConfiguration : no_error.

(** ** [launch] and [tearDown] *)

Lemma no_Error_not_rejected {A} (m : M State A) (s : State) :
  raises_no_Error m -> fst (m s) <> Throw already_launched.
Proof.
  intros Hm Heq. specialize (Hm s). rewrite Heq in Hm. exact Hm.
Qed.

Lemma bind_not_thrown {S A B} (m : M S A) (k : A -> M S B) (s : S)
  (e : error) :
  (forall s', m s <> (Throw e, s')) ->
  (forall a s', m s = (Ok a, s') -> fst (k a s') <> Throw e) ->
  fst (bind m k s) <> Throw e.
Proof.
  intros Hm Hk. unfold bind.
  destruct (m s) as [[a|e'|] s'] eqn:Hms; simpl.
  - apply (Hk a s'). reflexivity.
  - intros Heq. apply (Hm s'). congruence.
  - discriminate.
Qed.

(** With no process tracked, [launch] gets past its guard: whatever it
    throws afterwards comes from the calls it makes. *)
Lemma launch_passes_guard (tearDownAfter callable : jsval) (s : State) :
  testerNode (tir s) = None ->
  fst (launch tearDownAfter callable s) <> Throw already_launched.
Proof.
  intros Hnode. unfold launch. apply bind_not_thrown.
  - intros s'. destruct callable; destruct tearDownAfter; discriminate.
  - intros args s' Hargs.
    assert (Hs : s' = s).
    { destruct callable; destruct tearDownAfter; simpl in Hargs;
        unfold ret, throw, bind in Hargs; simpl in Hargs; congruence. }
    subst s'. unfold bind at 1, get_tir. rewrite Hnode.
    apply no_Error_not_rejected. no_error.
Qed.

(** [tearDown] returns whenever there is no tracked process or the tracked
    one can still be signalled. *)
Lemma tearDown_completes (exitStatus : option Z) (s : State) :
  match testerNode (tir s) with
  | Some pid => existsb (Nat.eqb pid) (live (world s)) = true
  | None => True
  end ->
  exists s', tearDown exitStatus s = (Ok tt, s').
Proof.
  intros Hlive. unfold tearDown, bind, get_tir, console_info, with_world,
    with_tir, process_kill, setTimeout, ret; simpl.
  destruct (testerNode (tir s)) as [pid|]; simpl.
  - rewrite Hlive. simpl. eexists; reflexivity.
  - eexists; reflexivity.
Qed.

(** C9: a [tearDown] call that returns has already forgotten the process:
    the disk is as it was and the removal is still a pending timer, yet no
    process is tracked any more, so a later [launch] on this instance is not
    turned away by the guard, whatever its arguments. *)
Theorem tearDown_forgets_process_at_once (exitStatus : option Z)
  (s s' : State) :
  tearDown exitStatus s = (Ok tt, s') ->
  testerNode (tir s') = None
  /\ fs (world s') = fs (world s)
  /\ timers (world s') = (timers (world s) ++ [(VNumber 100, Cleanup exitStatus)])%list
  /\ forall tearDownAfter callable,
       fst (launch tearDownAfter callable s') <> Throw already_launched.
Proof.
  intros Hrun.
  assert (H3 : testerNode (tir s') = None
               /\ fs (world s') = fs (world s)
               /\ timers (world s')
                  = (timers (world s) ++ [(VNumber 100, Cleanup exitStatus)])%list).
  { revert Hrun.
    unfold tearDown, bind, get_tir, console_info, with_world, with_tir,
      process_kill, setTimeout, ret; simpl.
    destruct (testerNode (tir s)) as [pid|] eqn:Hnode; simpl.
    - destruct (existsb (Nat.eqb pid) (live (world s))); simpl.
      + intros Heq. inversion Heq; subst s'. simpl. auto.
      + discriminate.
    - intros Heq. inversion Heq; subst s'. simpl. auto. }
  destruct H3 as (Hnone & Hfs & Htimers). conj; auto.
  intros tearDownAfter callable. apply launch_passes_guard. exact Hnone.
Qed.

Lemma tearDown_forgets_process_at_once_witness :
  tearDown None demo_launched = (Ok tt, demo_torn_down)
  /\ testerNode (tir demo_launched) = Some 1000
  /\ testerNode (tir demo_torn_down) = None
  /\ fst (launch (VNumber 5000) (VFunction 1) demo_torn_down)
     <> Throw already_launched.
Proof.
  assert (Hrun : tearDown None demo_launched = (Ok tt, demo_torn_down))
    by (vm_compute; reflexivity).
  destruct (tearDown_forgets_process_at_once None demo_launched demo_torn_down
              Hrun) as (Hnone & _ & _ & Hlaunch).
  conj; [exact Hrun | vm_compute; reflexivity | exact Hnone
                | apply Hlaunch].
Defined.

(** C3 (as amended): while a process is tracked, that is after a [launch]
    that no [tearDown] has followed, a further [launch] throws
    "already launched" and leaves the runner and everything around it exactly
    as they were: nothing is spawned, created, written or logged. *)
Theorem launch_while_tracked_rejected (tearDownAfter callable : jsval)
  (s : State) :
  readable_args tearDownAfter callable = true ->
  testerNode (tir s) <> None ->
  launch tearDownAfter callable s = (Throw already_launched, s).
Proof.
  intros Hargs Hnode.
  destruct (testerNode (tir s)) as [pid|] eqn:Hpid; [clear Hnode|congruence].
  unfold launch, bind, get_tir.
  destruct callable; destruct tearDownAfter; simpl in *; try discriminate;
    rewrite Hpid; reflexivity.
Qed.

Lemma launch_while_tracked_rejected_witness :
  fst (launch (VNumber 5000) (VFunction 1) demo_configured) = Ok tt
  /\ launch (VNumber 6000) (VFunction 2) demo_launched
     = (Throw already_launched, demo_launched).
Proof.
  split; [vm_compute; reflexivity|].
  apply (launch_while_tracked_rejected (VNumber 6000) (VFunction 2)
           demo_launched).
  - reflexivity.
  - vm_compute. discriminate.
Defined.

(** C3 (as stated) fails: launch, tear down, launch again.  The second
    [launch] is on the same instance, is not turned away, and has already
    called the ledger when creating the [nodes] folder stops it. *)
Lemma second_launch_after_tearDown_not_rejected :
  fst (launch (VNumber 5000) (VFunction 1) demo_configured) = Ok tt
  /\ tearDown None demo_launched = (Ok tt, demo_torn_down)
  /\ fst (launch (VNumber 5000) (VFunction 1) demo_torn_down)
     = Throw (SystemError EEXIST "mkdir" "/tmp/psk_x7Gk2p/nodes")
  /\ fst (launch (VNumber 5000) (VFunction 1) demo_torn_down)
     <> Throw already_launched
  /\ ledger (world (snd (launch (VNumber 5000) (VFunction 1) demo_torn_down)))
     = (ledger (world demo_torn_down) ++ [StartDB "/tmp/psk_x7Gk2p/conf"])%list.
Proof.
  conj; try (vm_compute; reflexivity).
  vm_compute. discriminate.
Qed.

(** C1: when the tracked process is no longer there to be signalled (the
    launcher has ended by itself), [process.kill] throws and [tearDown]
    passes the exception on.  The process stays tracked and the removal of
    the temporary folder is never scheduled. *)
Theorem tearDown_throws_when_process_gone (exitStatus : option Z) (s : State)
  (pid : nat) :
  testerNode (tir s) = Some pid ->
  existsb (Nat.eqb pid) (live (world s)) = false ->
  exists s',
    tearDown exitStatus s = (Throw (SystemError ESRCH "kill" ""), s')
    /\ testerNode (tir s') = Some pid
    /\ fs (world s') = fs (world s)
    /\ timers (world s') = timers (world s).
Proof.
  intros Hnode Hgone.
  unfold tearDown, bind, get_tir, console_info, with_world, process_kill.
  cbn [tir world testerNode live]. rewrite Hnode.
  cbn [tir world testerNode live]. rewrite Hgone.
  eexists. conj; [reflexivity|exact Hnode|reflexivity|reflexivity].
Qed.

Lemma tearDown_throws_when_process_gone_witness :
  fst (launch (VNumber 5000) (VFunction 1) demo_configured) = Ok tt
  /\ demo_orphaned = child_exits 1000 demo_launched
  /\ fst (tearDown (Some 0%Z) demo_orphaned)
     = Throw (SystemError ESRCH "kill" "")
  /\ testerNode (tir (snd (tearDown (Some 0%Z) demo_orphaned))) = Some 1000
  /\ timers (world (snd (tearDown (Some 0%Z) demo_orphaned)))
     = timers (world demo_orphaned).
Proof.
  destruct (tearDown_throws_when_process_gone (Some 0%Z) demo_orphaned 1000)
    as (s' & Hrun & Hnode & _ & Htimers);
    [vm_compute; reflexivity|vm_compute; reflexivity|].
  rewrite Hrun. conj.
  - vm_compute. reflexivity.
  - reflexivity.
  - reflexivity.
  - exact Hnode.
  - exact Htimers.
Defined.

(** What the deferred part of [tearDown] does throw: nothing.  A failing
    removal is caught where it happens. *)
Lemma cleanup_never_throws (exitStatus : option Z) (s : State) :
  is_throw (fst (fire (Cleanup exitStatus) s)) = false.
Proof.
  unfold fire.
  match goal with
  | |- context [try_catch ?b _] => generalize b; intros body
  end.
  unfold bind, try_catch.
  destruct (body s) as [[[]|e|] s1]; simpl; destruct exitStatus; reflexivity.
Qed.

(** ** [interact] *)

Lemma own_property_keys (m : list (string * DomainConfig)) (k : string) :
  In k (map fst m) <-> own_property k m <> None.
Proof.
  induction m as [|[k' v] m IH]; simpl.
  - split; [intros []|congruence].
  - destruct (k =? k') eqn:Hk.
    + apply String.eqb_eq in Hk. subst. split; [discriminate|auto].
    + apply String.eqb_neq in Hk. rewrite <- IH. split.
      * intros [Heq|Hin]; [congruence|exact Hin].
      * auto.
Qed.

Lemma own_property_replace (m : list (string * DomainConfig)) (k : string)
  (v : DomainConfig) :
  own_property k m <> None -> own_property k (replace_own k v m) = Some v.
Proof.
  induction m as [|[k' v'] m IH]; simpl; [congruence|].
  destruct (k =? k') eqn:Hk; simpl; rewrite Hk; auto.
Qed.

Lemma own_property_replace_other (m : list (string * DomainConfig))
  (k k' : string) (v : DomainConfig) :
  k' <> k -> own_property k' (replace_own k v m) = own_property k' m.
Proof.
  intros Hne. induction m as [|[k0 v0] m IH]; simpl; [reflexivity|].
  destruct (k =? k0) eqn:Hk; simpl.
  - apply String.eqb_eq in Hk. subst k0.
    apply String.eqb_neq in Hne. rewrite Hne. reflexivity.
  - destruct (k' =? k0); auto.
Qed.

Lemma own_property_add (m : list (string * DomainConfig)) (k : string)
  (v : DomainConfig) :
  own_property k m = None -> own_property k (add_own k v m) = Some v.
Proof.
  induction m as [|[k' v'] m IH]; simpl.
  - rewrite String.eqb_refl. reflexivity.
  - destruct (k =? k') eqn:Hk; [discriminate|]. intros Hm.
    destruct (listed_before k k'); simpl.
    + rewrite String.eqb_refl. reflexivity.
    + rewrite Hk. auto.
Qed.

Lemma own_property_add_other (m : list (string * DomainConfig))
  (k k' : string) (v : DomainConfig) :
  k' <> k -> own_property k' (add_own k v m) = own_property k' m.
Proof.
  intros Hne. apply String.eqb_neq in Hne.
  induction m as [|[k0 v0] m IH]; simpl.
  - rewrite Hne. reflexivity.
  - destruct (listed_before k k0); simpl.
    + rewrite Hne. reflexivity.
    + destruct (k' =? k0); auto.
Qed.

Lemma descriptor_field_proto (cfg : DomainConfig) :
  descriptor_field "__proto__" cfg = None.
Proof. reflexivity. Qed.

Lemma descriptor_field_not_descriptor (k : string) (p cfg : DomainConfig) :
  descriptor_field k p <> Some (Some (Descriptor cfg)).
Proof.
  unfold descriptor_field.
  repeat match goal with
         | |- context [if ?b then _ else _] => destruct b
         end; try discriminate.
  - destruct (agents p); discriminate.
  - destruct (dc_constitution p); discriminate.
Qed.

Lemma object_prototype_descriptor (k : string) (p : member)
  (cfg : DomainConfig) :
  object_prototype k p = Some (Descriptor cfg) ->
  k = "__proto__" /\ p = Descriptor cfg.
Proof.
  unfold object_prototype. destruct (k =? "__proto__") eqn:Hk.
  - apply String.eqb_eq in Hk. intros H. inversion H. auto.
  - destruct (existsb _ _); discriminate.
Qed.

(** A descriptor is found under a name exactly when it is an own property,
    or the prototype read through [__proto__]. *)
Lemma get_config_descriptor (r : registry) (k : string) (cfg : DomainConfig) :
  get_config k r = Some (Descriptor cfg)
  <-> own_property k (own r) = Some cfg
      \/ (own_property k (own r) = None /\ k = "__proto__"
          /\ proto r = Some cfg).
Proof.
  unfold get_config. destruct (own_property k (own r)) as [c|] eqn:Hown.
  - split; [intros H; inversion H; auto|].
    intros [H|[H _]]; congruence.
  - destruct (proto r) as [p|] eqn:Hproto.
    + destruct (descriptor_field k p) as [v|] eqn:Hfield.
      * split.
        -- intros ->. exfalso.
           exact (descriptor_field_not_descriptor _ _ _ Hfield).
        -- intros [H|(_ & -> & _)]; [discriminate|].
           rewrite descriptor_field_proto in Hfield. discriminate.
      * split.
        -- intros H. apply object_prototype_descriptor in H.
           destruct H as [-> H]. inversion H. auto.
        -- intros [H|(_ & -> & H)]; [discriminate|]. inversion H.
           reflexivity.
    + split.
      * intros H. apply object_prototype_descriptor in H.
        destruct H as [_ H]. discriminate.
      * intros [H|(_ & _ & H)]; discriminate.
Qed.

(** The keys [Object.keys] lists are names under which a descriptor is
    found. *)
Lemma Object_keys_registered (m : registry) (k : string) :
  In k (Object_keys m) -> exists cfg, get_config k m = Some (Descriptor cfg).
Proof.
  unfold Object_keys. intros Hin. apply own_property_keys in Hin.
  unfold get_config. destruct (own_property k (own m)) as [cfg|];
    [eauto|congruence].
Qed.

(** What is stored under a name is found under that name, whatever the
    name. *)
Lemma get_config_set_config (m : registry) (k : string) (v : DomainConfig) :
  get_config k (set_config k v m) = Some (Descriptor v).
Proof.
  apply get_config_descriptor. unfold set_config.
  destruct (own_property k (own m)) as [c|] eqn:Hown.
  - left. cbn [own]. apply own_property_replace. congruence.
  - destruct (k =? "__proto__") eqn:Hk.
    + apply String.eqb_eq in Hk. right. cbn [own proto]. auto.
    + left. cbn [own]. apply own_property_add. exact Hown.
Qed.

Lemma own_property_set_config_other (m : registry) (k k' : string)
  (v : DomainConfig) :
  k' <> k ->
  own_property k' (own (set_config k v m)) = own_property k' (own m).
Proof.
  intros Hne. unfold set_config.
  destruct (own_property k (own m)); cbn [own].
  - apply own_property_replace_other, Hne.
  - destruct (k =? "__proto__"); cbn [own];
      [reflexivity|apply own_property_add_other, Hne].
Qed.

(** Unless the prototype is replaced, other names read as before. *)
Lemma get_config_set_config_other (m : registry) (k k' : string)
  (v : DomainConfig) :
  k' <> k ->
  own_property k (own m) <> None \/ k <> "__proto__" ->
  get_config k' (set_config k v m) = get_config k' m.
Proof.
  intros Hne Hplain. unfold get_config.
  rewrite own_property_set_config_other by exact Hne.
  replace (proto (set_config k v m)) with (proto m); [reflexivity|].
  unfold set_config. destruct (own_property k (own m)); [reflexivity|].
  destruct (String.eqb_spec k "__proto__"); [|reflexivity].
  destruct Hplain; congruence.
Qed.

(** The descriptors found under other names are the same before and after,
    also when the prototype is replaced. *)
Lemma get_config_set_config_descriptor (m : registry) (k k' : string)
  (v cfg : DomainConfig) :
  k' <> k ->
  get_config k' (set_config k v m) = Some (Descriptor cfg)
  <-> get_config k' m = Some (Descriptor cfg).
Proof.
  intros Hne. rewrite !get_config_descriptor.
  rewrite own_property_set_config_other by exact Hne.
  assert (Hproto : k' = "__proto__" ->
                   proto (set_config k v m) = proto m).
  { intros ->. unfold set_config.
    destruct (own_property k (own m)); [reflexivity|].
    destruct (String.eqb_spec k "__proto__"); [congruence|reflexivity]. }
  split; (intros [H|(Hown & Hk & Hp)]; [left; exact H|right]);
    rewrite (Hproto Hk) in *; auto.
Qed.

(** A domain is registered once [addDomain] has been called with its name. *)
Lemma addDomain_registers (domain : string) (agents : option (list string))
  (c : constitution) (s : State) :
  exists cfg,
    get_config domain (domainConfigs (tir (snd (addDomain domain agents c s))))
    = Some (Descriptor cfg)
    /\ name cfg = domain.
Proof.
  unfold addDomain, with_tir. simpl. rewrite get_config_set_config.
  eexists; split; reflexivity.
Qed.

Lemma mkdirSync_returns_or_throws (p : string) (f : Fs.state) :
  (exists f', Fs.mkdirSync p f = (Ok tt, f'))
  \/ (exists e, Fs.mkdirSync p f = (Throw e, f)).
Proof.
  unfold Fs.mkdirSync.
  destruct (Fs.unsnoc (Path.components p)) as [[parent x]|]; eauto.
  destruct (Fs.lookup parent (Fs.tree f)) as [[c|es]|]; eauto.
  destruct (Fs.find x es); eauto.
Qed.

Lemma registered_descriptor (domain : string) (r : registry) :
  registered domain r <-> exists cfg, get_config domain r = Some (Descriptor cfg).
Proof.
  unfold registered, Object_keys. split.
  - intros [Hin|(-> & Hproto)].
    + apply own_property_keys in Hin.
      destruct (own_property domain (own r)) as [cfg|] eqn:Hown;
        [|congruence].
      exists cfg. apply get_config_descriptor. auto.
    + destruct (own_property "__proto__" (own r)) as [cfg|] eqn:Hown;
        [exists cfg; apply get_config_descriptor; auto|].
      destruct (proto r) as [p|] eqn:Hp; [|congruence].
      exists p. apply get_config_descriptor. auto.
  - intros [cfg Hcfg]. apply get_config_descriptor in Hcfg.
    destruct Hcfg as [Hown|(_ & -> & Hp)].
    + left. apply own_property_keys. congruence.
    + right. split; [reflexivity|congruence].
Qed.

(** The names every object answers to are not the names of descriptor
    fields. *)
Lemma inherited_name_found (domain : string) (r : registry) :
  In domain inherited_names -> ~ registered domain r ->
  exists m, get_config domain r = Some m
            /\ forall cfg, m <> Descriptor cfg.
Proof.
  intros Hin Hnew.
  assert (Hnone : forall cfg, get_config domain r <> Some (Descriptor cfg)).
  { intros cfg H. apply Hnew, registered_descriptor. eauto. }
  assert (Hfound : get_config domain r <> None).
  { unfold get_config.
    destruct (own_property domain (own r)); [discriminate|].
    assert (Hfield : forall p, descriptor_field domain p = None).
    { intros p. unfold inherited_names in Hin. simpl in Hin.
      repeat (destruct Hin as [<-|Hin]; [reflexivity|]). destruct Hin. }
    assert (Hobj : forall p, object_prototype domain p <> None).
    { intros p. unfold inherited_names in Hin. simpl in Hin.
      repeat (destruct Hin as [<-|Hin]; [discriminate|]). destruct Hin. }
    destruct (proto r) as [p|]; [rewrite Hfield|]; apply Hobj. }
  destruct (get_config domain r) as [m|]; [|congruence].
  exists m. split; [reflexivity|]. intros cfg ->. exact (Hnone cfg eq_refl).
Qed.

(** C8: the test for an unknown domain misses the names every object
    answers to.  For a name such as [constructor] that was never added,
    [domainConfigs[domain]] is not [undefined], so [interact] goes on and
    fails in [path.join] with a [TypeError]: the error does not name the
    domain and lists nothing.  Nothing has been touched by then. *)
Theorem interact_misses_inherited_names (domain agent : string)
  (random : list nat) (s : State) :
  In domain inherited_names ->
  ~ registered domain (domainConfigs (tir s)) ->
  interact domain agent random s = (Throw path_not_a_string, s)
  /\ path_not_a_string
     <> Error ("Could not find domain " ++ domain ++ " in "
               ++ JS.join ", " (Object_keys (domainConfigs (tir s)))).
Proof.
  intros Hin Hnew. split; [|discriminate].
  destruct (inherited_name_found domain _ Hin Hnew) as (m & Hm & Hkind).
  unfold interact. unfold bind at 1. unfold get_tir. cbv beta iota.
  rewrite Hm. destruct m; try reflexivity. elim (Hkind cfg). reflexivity.
Qed.

Lemma interact_misses_inherited_names_witness :
  ~ registered "constructor" (domainConfigs (tir demo_launched))
  /\ Object_keys (domainConfigs (tir demo_launched)) = ["local"]
  /\ interact "constructor" "a0" [15; 3; 35] demo_launched
     = (Throw (TypeError "Path must be a string"), demo_launched).
Proof.
  assert (Hnew : ~ registered "constructor" (domainConfigs (tir demo_launched))).
  { intros [Hin|[Heq _]]; [|discriminate Heq].
    vm_compute in Hin. destruct Hin as [Heq|[]]. discriminate Heq. }
  conj.
  - exact Hnew.
  - vm_compute. reflexivity.
  - apply (interact_misses_inherited_names "constructor" "a0" [15; 3; 35]
             demo_launched); [|exact Hnew].
    unfold inherited_names, builtin_names. simpl. tauto.
Defined.

(** ** Correlation tokens *)

Lemma digit36_alnum (d : nat) : d < 36 -> is_alnum (digit36 d) = true.
Proof.
  intros Hd. do 36 (destruct d as [|d]; [reflexivity|]). lia.
Qed.

Lemma digits36_alnum (ds : list nat) :
  Forall (fun d => d < 36) ds -> JS.all_chars is_alnum (digits36 ds) = true.
Proof.
  induction 1 as [|d ds Hd _ IH]; simpl; [reflexivity|].
  rewrite digit36_alnum by exact Hd. exact IH.
Qed.

Lemma substring_0_length (n : nat) (s : string) :
  String.length (substring 0 n s) <= n.
Proof.
  revert s. induction n as [|n IH]; intros [|c s]; simpl; try lia.
  specialize (IH s). lia.
Qed.

Lemma substring_0_all_chars (p : ascii -> bool) (n : nat) (s : string) :
  JS.all_chars p s = true -> JS.all_chars p (substring 0 n s) = true.
Proof.
  revert s. induction n as [|n IH]; intros [|c s]; simpl; auto.
  intros H. apply andb_true_iff in H. destruct H as [Hc Hs].
  rewrite Hc. simpl. auto.
Qed.

Lemma token_digits (d : nat) (ds : list nat) :
  token (d :: ds) = substring 0 9 (digits36 (d :: ds)).
Proof. reflexivity. Qed.




(** ** Provisioning *)

Lemma bind_Ok_inv {S A B} (m : M S A) (k : A -> M S B) (s s' : S) (b : B) :
  bind m k s = (Ok b, s') ->
  exists a s1, m s = (Ok a, s1) /\ k a s1 = (Ok b, s').
Proof.
  unfold bind. destruct (m s) as [[a|e|] s1]; try discriminate.
  intros Hk. exists a, s1. auto.
Qed.

Lemma handler_eqb_refl (h : handler) : handler_eqb h h = true.
Proof. destruct h; simpl; auto using String.eqb_refl. Qed.

Lemma commits_from_skip (h : handler) (pending : option (list (string * string)))
  (before rest : list ledger_call) :
  filter (on_handler h) before = [] ->
  commits_from h pending (before ++ rest) = commits_from h pending rest.
Proof.
  revert pending. induction before as [|c before IH]; intros pending Hnone;
    [reflexivity|].
  simpl in Hnone. destruct (on_handler h c) eqn:Hc; [discriminate|].
  destruct c; simpl in *; try rewrite Hc; auto.
Qed.

Lemma commits_agent_transactions (h : handler) (l : list string) :
  commits_from h None (flat_map (agent_transaction h) l)
  = map (fun agentName => [("Agent", agentName)]) l.
Proof.
  induction l as [|a l IH]; [reflexivity|].
  simpl. rewrite !handler_eqb_refl. simpl. rewrite IH. reflexivity.
Qed.

Lemma on_fs_keeps_ledger {A} (m : M Fs.state A) (s s' : State) (r : outcome A) :
  on_fs m s = (r, s') -> ledger (world s') = ledger (world s).
Proof.
  unfold on_fs, lift. destruct (m (fs (world s))) as [r' f'].
  intros Heq. inversion Heq. reflexivity.
Qed.

Lemma console_info_inv (args : list string) (s s' : State) (r : outcome unit) :
  console_info args s = (r, s') -> ledger (world s') = ledger (world s).
Proof. unfold console_info, with_world. intros Heq. inversion Heq. reflexivity. Qed.

Lemma ledger_do_inv (c : ledger_call) (s s' : State) (r : outcome unit) :
  ledger_do c s = (r, s') -> ledger (world s') = (ledger (world s) ++ [c])%list.
Proof. unfold ledger_do, with_world. intros Heq. inversion Heq. reflexivity. Qed.

Lemma ledger_writes_ret {A} (a : A) : ledger_writes (ret a) [].
Proof. intros s. exists a, s. rewrite app_nil_r. auto. Qed.

Lemma ledger_writes_do (c : ledger_call) : ledger_writes (ledger_do c) [c].
Proof. intros s. eexists; eexists. split; reflexivity. Qed.

Lemma ledger_writes_info (args : list string) :
  ledger_writes (console_info args) [].
Proof.
  intros s. eexists; eexists. split; [reflexivity|].
  simpl. rewrite app_nil_r. reflexivity.
Qed.

Lemma ledger_writes_bind {A B} (m : M State A) (k : A -> M State B)
  (c1 c2 : list ledger_call) :
  ledger_writes m c1 -> (forall a, ledger_writes (k a) c2) ->
  ledger_writes (bind m k) (c1 ++ c2).
Proof.
  intros Hm Hk s. destruct (Hm s) as (a & s1 & Hms & Hl1).
  destruct (Hk a s1) as (b & s2 & Hks & Hl2).
  exists b, s2. unfold bind. rewrite Hms. split; [exact Hks|].
  rewrite Hl2, Hl1, app_assoc. reflexivity.
Qed.

Lemma ledger_writes_do_then {B} (c : ledger_call) (k : M State B)
  (calls : list ledger_call) :
  ledger_writes k calls -> ledger_writes (ledger_do c ;; k) (c :: calls).
Proof.
  intros Hk. apply (ledger_writes_bind _ _ [c] calls); auto using ledger_writes_do.
Qed.

Lemma ledger_writes_info_then {B} (args : list string) (k : M State B)
  (calls : list ledger_call) :
  ledger_writes k calls -> ledger_writes (console_info args ;; k) calls.
Proof.
  intros Hk. apply (ledger_writes_bind _ _ [] calls); auto using ledger_writes_info.
Qed.

Lemma register_agent_ledger (cfg : DomainConfig) (agentName : string) :
  ledger_writes (register_agent cfg agentName)
    (agent_transaction (DomainLedger (conf cfg)) agentName).
Proof.
  unfold register_agent, agent_transaction.
  apply ledger_writes_info_then.
  do 3 apply ledger_writes_do_then. apply ledger_writes_do.
Qed.

(** The loop over the agents cannot fail, and costs four calls an agent. *)
Lemma register_agents_ledger (cfg : DomainConfig) (l : list string) :
  ledger_writes (forEach l (register_agent cfg))
    (flat_map (agent_transaction (DomainLedger (conf cfg))) l).
Proof.
  induction l as [|a l IH]; cbn [forEach flat_map].
  - apply ledger_writes_ret.
  - apply ledger_writes_bind; [apply register_agent_ledger|intros _; exact IH].
Qed.

Lemma register_domain_ledger (cfg : DomainConfig) (file : string) :
  ledger_writes (register_domain cfg file) (domain_transaction cfg file).
Proof.
  unfold register_domain, domain_transaction.
  do 7 apply ledger_writes_do_then. apply ledger_writes_do.
Qed.

Lemma register_all_agents_ledger (cfg : DomainConfig) :
  ledger_writes
    match agents cfg with
    | Some (first :: others) =>
        ledger_do (CreateDBHandler (conf cfg)) ;;
        console_info ["[TIR] domain " ++ name cfg ++ " starting agents..."] ;;
        forEach (first :: others) (register_agent cfg)
    | _ => ret tt
    end
    match agents cfg with
    | Some l => agents_calls cfg l
    | None => []
    end.
Proof.
  destruct (agents cfg) as [[|first others]|]; try apply ledger_writes_ret.
  unfold agents_calls. apply ledger_writes_do_then, ledger_writes_info_then.
  apply register_agents_ledger.
Qed.

Lemma filter_agent_transactions (h : handler) (l : list string) :
  filter (on_handler h) (flat_map (agent_transaction h) l)
  = flat_map (agent_transaction h) l.
Proof.
  induction l as [|a l IH]; [reflexivity|].
  cbn [flat_map agent_transaction app filter on_handler].
  rewrite !handler_eqb_refl, IH. reflexivity.
Qed.

(** C6: when a domain with the agents [l] is provisioned, the calls made on
    the handler of that domain are four per agent (begin, look the agent up,
    add it, commit) in the order of [l], and nothing else; they commit
    [length l] transactions, the i-th holding the i-th agent alone. *)
Theorem agents_committed_one_by_one_in_order (cfg : DomainConfig)
  (l : list string) (s s' : State) :
  agents cfg = Some l ->
  buildDomainConfiguration cfg s = (Ok tt, s') ->
  let h := DomainLedger (conf cfg) in
  exists calls,
    ledger (world s') = (ledger (world s) ++ calls)%list
    /\ filter (on_handler h) calls = flat_map (agent_transaction h) l
    /\ commits h calls = map (fun agentName => [("Agent", agentName)]) l
    /\ length (commits h calls) = length l.
Proof.
  intros Hagents Hrun h. unfold buildDomainConfiguration in Hrun.
  apply bind_Ok_inv in Hrun. destruct Hrun as (? & s1 & H1 & Hrun).
  apply bind_Ok_inv in Hrun. destruct Hrun as (? & s2 & H2 & Hrun).
  apply bind_Ok_inv in Hrun. destruct Hrun as (? & s3 & H3 & Hrun).
  apply bind_Ok_inv in Hrun. destruct Hrun as (file & s4 & H4 & Hrun).
  apply console_info_inv in H1. apply console_info_inv in H2.
  apply on_fs_keeps_ledger in H3.
  assert (H4' : ledger (world s4) = ledger (world s3)).
  { destruct (dc_constitution cfg).
    - inversion H4. reflexivity.
    - apply on_fs_keeps_ledger in H4. exact H4. }
  destruct (ledger_writes_bind _ _ _ _ (register_domain_ledger cfg file)
              (fun _ => register_all_agents_ledger cfg) s4)
    as (u & s5 & Hrest & Hledger).
  rewrite Hrun in Hrest. inversion Hrest; subst s5. clear Hrest.
  rewrite Hagents in Hledger.
  exists (domain_transaction cfg file ++ agents_calls cfg l)%list.
  assert (Hfilter :
    filter (on_handler h) (domain_transaction cfg file ++ agents_calls cfg l)
    = flat_map (agent_transaction h) l).
  { rewrite filter_app.
    change (filter (on_handler h) (domain_transaction cfg file)) with
      (@nil ledger_call).
    destruct l as [|a l']; [reflexivity|].
    unfold agents_calls. cbn [app filter on_handler].
    apply filter_agent_transactions. }
  assert (Hcommits :
    commits h (domain_transaction cfg file ++ agents_calls cfg l)
    = map (fun agentName => [("Agent", agentName)]) l).
  { unfold commits. rewrite commits_from_skip by reflexivity.
    destruct l as [|a l']; [reflexivity|].
    unfold agents_calls. change (CreateDBHandler (conf cfg) :: ?x)
      with ([CreateDBHandler (conf cfg)] ++ x)%list.
    rewrite commits_from_skip by reflexivity.
    apply commits_agent_transactions. }
  conj.
  - rewrite Hledger. congruence.
  - exact Hfilter.
  - exact Hcommits.
  - rewrite Hcommits. apply length_map.
Qed.

Lemma agents_committed_one_by_one_in_order_witness :
  get_config "local" (domainConfigs (tir demo_nodes))
  = Some (Descriptor demo_local)
  /\ exists calls,
       ledger (world (snd (buildDomainConfiguration demo_local demo_nodes)))
       = (ledger (world demo_nodes) ++ calls)%list
       /\ filter (on_handler (DomainLedger (conf demo_local))) calls
          = flat_map (agent_transaction (DomainLedger (conf demo_local)))
              ["a0"; "a1"; "a2"]
       /\ commits (DomainLedger (conf demo_local)) calls
          = [[("Agent", "a0")]; [("Agent", "a1")]; [("Agent", "a2")]]
       /\ length (commits (DomainLedger (conf demo_local)) calls) = 3.
Proof.
  split; [vm_compute; reflexivity|].
  apply (agents_committed_one_by_one_in_order demo_local ["a0"; "a1"; "a2"]
           demo_nodes).
  - reflexivity.
  - vm_compute. reflexivity.
Defined.

(** ** The constitution compiler *)

(** A function is written as its source text. *)
Lemma property_text_function {S} (opts : options) (prop source : string)
  (s : S) :
  property_text opts prop (PFunction source) s
  = (Ok (nl opts ++ tab opts ++ prop ++ ": " ++ source), s).
Proof. reflexivity. Qed.

(** An object, an array or [null] is written as JSON. *)
Lemma property_text_object {S} (opts : options) (prop : string) (j : json)
  (s : S) :
  typeof (PData j) = "object" ->
  property_text opts prop (PData j) s
  = (Ok (nl opts ++ tab opts ++ prop ++ ": " ++ Json.stringify j), s).
Proof.
  intros Htype. unfold property_text. rewrite Htype. reflexivity.
Qed.

(** A string is written as its characters, without quotes. *)
Lemma property_text_string {S} (opts : options) (prop text : string) (s : S) :
  property_text opts prop (PData (JString text)) s
  = (Ok (nl opts ++ tab opts ++ prop ++ ": " ++ text), s).
Proof. reflexivity. Qed.

(** C5: the describer above is compiled into one call whose [type] property
    reads [flow], a bare identifier, where the literal for that value is the
    quoted string that [JSON.stringify] gives; the object and the function
    next to it are written as source text and as JSON. *)
Theorem string_property_written_without_quotes :
  fst (createConstitution "/w" flow_describer no_overrides flow_disk)
  = Ok "/w/constitution.js"
  /\ Fs.lookup ["w"; "constitution.js"]
       (Fs.tree (snd (createConstitution "/w" flow_describer no_overrides
                        flow_disk)))
     = Some (Fs.File
               ("$$.swarms.describe('simpleSwarm', {" ++ Json.newline
                ++ "  type: flow," ++ Json.newline
                ++ "  public: {" ++ Json.quote "result" ++ ":"
                ++ Json.quote "int" ++ "}," ++ Json.newline
                ++ "  begin: function(a1,a2){ this.result = a1 + a2; }"
                ++ Json.newline ++ "});"))
  /\ Json.stringify (JString "flow") = Json.dquote ++ "flow" ++ Json.dquote
  /\ Json.stringify (JString "flow") <> "flow".
Proof.
  conj; try (vm_compute; reflexivity). vm_compute. discriminate.
Qed.

(** ** Strings *)

Lemma append_nil_r (s : string) : s ++ "" = s.
Proof. induction s as [|c s IH]; simpl; congruence. Qed.

Lemma append_assoc (a b c : string) : (a ++ b) ++ c = a ++ b ++ c.
Proof. induction a as [|x a IH]; simpl; congruence. Qed.

Lemma map_string_app (f : ascii -> ascii) (a b : string) :
  JS.map_string f (a ++ b) = JS.map_string f a ++ JS.map_string f b.
Proof. induction a as [|x a IH]; simpl; congruence. Qed.

Lemma filter_string_app (p : ascii -> bool) (a b : string) :
  JS.filter_string p (a ++ b) = JS.filter_string p a ++ JS.filter_string p b.
Proof.
  induction a as [|x a IH]; simpl; [reflexivity|].
  destruct (p x); simpl; congruence.
Qed.

Lemma In_string_app (c : ascii) (a b : string) :
  JS.In_string c (a ++ b) <-> JS.In_string c a \/ JS.In_string c b.
Proof.
  induction a as [|x a IH]; simpl; [tauto|]. rewrite IH. tauto.
Qed.

Lemma In_string_map (f : ascii -> ascii) (d : ascii) (s : string) :
  JS.In_string d (JS.map_string f s)
  <-> exists c, JS.In_string c s /\ f c = d.
Proof.
  induction s as [|x s IH]; simpl.
  - split; [intros []|intros (c & [] & _)].
  - rewrite IH. split.
    + intros [Hx|(c & Hc & Hf)]; [exists x; auto|exists c; auto].
    + intros (c & [Hx|Hc] & Hf); [left; congruence|right; exists c; auto].
Qed.

Lemma In_string_filter (p : ascii -> bool) (c : ascii) (s : string) :
  JS.In_string c (JS.filter_string p s) <-> JS.In_string c s /\ p c = true.
Proof.
  induction s as [|x s IH]; simpl; [tauto|].
  destruct (p x) eqn:Hx; simpl; rewrite IH; split.
  - intros [Heq|[Hc Hp]]; [subst; auto|auto].
  - intros [[Heq|Hc] Hp]; auto.
  - intros [Hc Hp]; auto.
  - intros [[Heq|Hc] Hp]; [congruence|auto].
Qed.

Lemma substring_all (s : string) : substring 0 (String.length s) s = s.
Proof. induction s as [|c s IH]; simpl; congruence. Qed.

(** [split] cuts at the separators and loses nothing else. *)
Lemma join_split (sep : ascii) (s : string) :
  JS.join "" (JS.split sep s)
  = JS.filter_string (fun c => negb (Ascii.eqb c sep)) s.
Proof.
  assert (Hcons : forall w ws, JS.join "" (w :: ws) = w ++ JS.join "" ws).
  { intros w [|w' ws]; simpl; [rewrite append_nil_r|]; reflexivity. }
  induction s as [|c s IH]; [reflexivity|].
  simpl JS.split. simpl JS.filter_string. destruct (Ascii.eqb c sep); simpl negb.
  - rewrite Hcons. exact IH.
  - destruct (JS.split sep s) as [|w ws].
    + simpl in *. rewrite <- IH. reflexivity.
    + rewrite Hcons in *. simpl. rewrite IH. reflexivity.
Qed.

Lemma lower_char_idem (c : ascii) :
  JS.lower_char (JS.lower_char c) = JS.lower_char c.
Proof.
  destruct c as [[] [] [] [] [] [] [] []]; reflexivity.
Qed.

Lemma lower_upper_char (c : ascii) :
  JS.lower_char (JS.upper_char c) = JS.lower_char c.
Proof.
  destruct c as [[] [] [] [] [] [] [] []]; reflexivity.
Qed.

Lemma lower_char_slash (c : ascii) :
  JS.lower_char c = "/"%char -> c = "/"%char.
Proof.
  destruct c as [[] [] [] [] [] [] [] []]; intros H; try reflexivity;
    discriminate H.
Qed.

Lemma toLowerCase_idem (s : string) :
  JS.toLowerCase (JS.toLowerCase s) = JS.toLowerCase s.
Proof.
  unfold JS.toLowerCase. induction s as [|c s IH]; simpl; [reflexivity|].
  rewrite lower_char_idem, IH. reflexivity.
Qed.

Lemma toLowerCase_toUpperCase (s : string) :
  JS.toLowerCase (JS.toUpperCase s) = JS.toLowerCase s.
Proof.
  unfold JS.toLowerCase, JS.toUpperCase.
  induction s as [|c s IH]; simpl; [reflexivity|].
  rewrite lower_upper_char, IH. reflexivity.
Qed.

(** Capitalising a word changes the case of its letters only. *)
Lemma toLowerCase_capitalised (word : string) :
  JS.toLowerCase
    (JS.toUpperCase (JS.substr word 0 1)
     ++ JS.substr_from (JS.toLowerCase word) 1)
  = JS.toLowerCase word.
Proof.
  destruct word as [|c w]; [reflexivity|].
  unfold JS.substr, JS.substr_from.
  change (JS.toLowerCase (String c w))
    with (String (JS.lower_char c) (JS.toLowerCase w)).
  change (substring 0 1 (String c w)) with (String c (substring 0 0 w)).
  replace (substring 0 0 w) with "" by (destruct w; reflexivity).
  cbn [String.length Nat.sub substring].
  rewrite Nat.sub_0_r, substring_all.
  unfold JS.toUpperCase, JS.toLowerCase. simpl.
  rewrite lower_upper_char. f_equal. apply toLowerCase_idem.
Qed.

Lemma toLowerCase_join_mapi (f : string -> nat -> string) (i : nat)
  (words : list string) :
  (forall w j, JS.toLowerCase (f w j) = JS.toLowerCase w) ->
  JS.toLowerCase (JS.join "" (JS.mapi_from i f words))
  = JS.toLowerCase (JS.join "" words).
Proof.
  intros Hf.
  assert (Hcons : forall w ws, JS.join "" (w :: ws) = w ++ JS.join "" ws).
  { intros w [|w' ws]; simpl; [rewrite append_nil_r|]; reflexivity. }
  revert i. induction words as [|w ws IH]; intros i; [reflexivity|].
  cbn [JS.mapi_from]. rewrite !Hcons. unfold JS.toLowerCase in *.
  rewrite !map_string_app, Hf, IH. reflexivity.
Qed.

(** ** [createKey] *)

Lemma createKey_lower (name : string) :
  JS.toLowerCase (createKey name)
  = JS.toLowerCase
      (JS.filter_string (fun c => negb (Ascii.eqb c " ")) name).
Proof.
  unfold createKey, JS.mapi. cbn [append].
  rewrite toLowerCase_join_mapi.
  - rewrite join_split. reflexivity.
  - intros w j. destruct (Nat.eqb j 0).
    + apply toLowerCase_idem.
    + apply toLowerCase_capitalised.
Qed.

(** ** Paths *)

Lemma plain_no_sep (seg : string) : Path.plain seg = true -> no_sep seg = true.
Proof.
  unfold Path.plain. intros H. apply andb_true_iff in H. tauto.
Qed.

Lemma plain_nonempty (seg : string) : Path.plain seg = true -> seg <> "".
Proof. intros H ->. discriminate H. Qed.

Lemma split_no_sep (s : string) :
  no_sep s = true -> JS.split "/" s = [s].
Proof.
  unfold no_sep. induction s as [|c s IH]; simpl; [reflexivity|].
  intros H. apply andb_true_iff in H. destruct H as [Hc Hs].
  unfold Path.is_sep in Hc. apply negb_true_iff in Hc. rewrite Hc.
  rewrite (IH Hs). reflexivity.
Qed.

Lemma split_app_sep (s t : string) :
  no_sep s = true ->
  JS.split "/" (s ++ String "/" t) = s :: JS.split "/" t.
Proof.
  unfold no_sep. induction s as [|c s IH]; simpl; [reflexivity|].
  intros H. apply andb_true_iff in H. destruct H as [Hc Hs].
  unfold Path.is_sep in Hc. apply negb_true_iff in Hc. rewrite Hc.
  rewrite (IH Hs). reflexivity.
Qed.

Lemma join_cons (sep x : string) (l : list string) :
  l <> [] -> JS.join sep (x :: l) = x ++ sep ++ JS.join sep l.
Proof. destruct l; [congruence|reflexivity]. Qed.

Lemma split_join (l : list string) :
  l <> [] -> forallb no_sep l = true -> JS.split "/" (JS.join "/" l) = l.
Proof.
  induction l as [|x l IH]; [congruence|]. intros _ Hl.
  simpl in Hl. apply andb_true_iff in Hl. destruct Hl as [Hx Hl].
  destruct l as [|y l].
  - simpl. apply split_no_sep, Hx.
  - rewrite join_cons by discriminate. cbn [append].
    rewrite split_app_sep by exact Hx.
    rewrite IH; [reflexivity|discriminate|exact Hl].
Qed.

Lemma join_app (sep : string) (l1 l2 : list string) :
  l1 <> [] -> l2 <> [] ->
  JS.join sep (l1 ++ l2) = JS.join sep l1 ++ sep ++ JS.join sep l2.
Proof.
  intros H1 H2. induction l1 as [|x l1 IH]; [congruence|].
  destruct l1 as [|y l1].
  - simpl app. rewrite join_cons by exact H2. reflexivity.
  - change ((x :: y :: l1) ++ l2)%list with (x :: ((y :: l1) ++ l2))%list.
    rewrite join_cons by discriminate. rewrite IH by discriminate.
    rewrite (join_cons sep x (y :: l1)) by discriminate.
    rewrite !append_assoc. reflexivity.
Qed.

Lemma normalizeSegs_plain (allow : bool) (acc l : list string) :
  forallb Path.plain l = true ->
  Path.normalizeSegs allow acc l = (rev acc ++ l)%list.
Proof.
  revert acc. induction l as [|x l IH]; intros acc Hl; simpl.
  - rewrite app_nil_r. reflexivity.
  - simpl in Hl. apply andb_true_iff in Hl. destruct Hl as [Hx Hl].
    unfold Path.plain in Hx. repeat (apply andb_true_iff in Hx;
      destruct Hx as [Hx ?]).
    repeat match goal with
           | H : negb _ = true |- _ => apply negb_true_iff in H; rewrite H
           end.
    simpl. rewrite IH by exact Hl. simpl. rewrite <- app_assoc. reflexivity.
Qed.

Lemma trailingSeparator_app (a b : string) :
  b <> "" -> Path.trailingSeparator (a ++ b) = Path.trailingSeparator b.
Proof.
  intros Hb. induction a as [|c a IH]; [reflexivity|].
  simpl. destruct (a ++ b) eqn:Hab; [|exact IH].
  destruct a; simpl in Hab; [congruence|discriminate].
Qed.

Lemma trailingSeparator_no_sep (s : string) :
  no_sep s = true -> Path.trailingSeparator s = false.
Proof.
  unfold no_sep. induction s as [|c s IH]; [reflexivity|].
  simpl. intros H. apply andb_true_iff in H. destruct H as [Hc Hs].
  apply negb_true_iff in Hc. destruct s; [exact Hc|apply IH, Hs].
Qed.

Lemma trailingSeparator_join (l : list string) :
  forallb Path.plain l = true ->
  Path.trailingSeparator (JS.join "/" l) = false.
Proof.
  induction l as [|x l IH]; [reflexivity|]. intros Hl.
  simpl in Hl. apply andb_true_iff in Hl. destruct Hl as [Hx Hl].
  destruct l as [|y l].
  - simpl. apply trailingSeparator_no_sep, plain_no_sep, Hx.
  - rewrite join_cons by discriminate.
    rewrite <- append_assoc, trailingSeparator_app; [apply IH, Hl|].
    simpl in Hl. apply andb_true_iff in Hl. destruct Hl as [Hy _].
    apply plain_nonempty in Hy. destruct l; simpl; [exact Hy|].
    destruct y; [congruence|discriminate].
Qed.

Lemma join_nonempty (l : list string) :
  l <> [] -> forallb Path.plain l = true -> JS.join "/" l <> "".
Proof.
  destruct l as [|x l]; [congruence|]. intros _ Hl.
  simpl in Hl. apply andb_true_iff in Hl. destruct Hl as [Hx _].
  apply plain_nonempty in Hx. destruct l; simpl; [exact Hx|].
  destruct x; [congruence|discriminate].
Qed.

Lemma forallb_plain_no_sep (l : list string) :
  forallb Path.plain l = true -> forallb no_sep l = true.
Proof.
  induction l as [|x l IH]; [reflexivity|]. simpl. intros H.
  apply andb_true_iff in H. destruct H as [Hx Hl].
  rewrite (plain_no_sep x Hx), (IH Hl). reflexivity.
Qed.

(** An absolute path made of plain components is already normal. *)
Lemma normalize_render (l : list string) :
  l <> [] -> forallb Path.plain l = true ->
  Path.normalize (Path.render l) = Path.render l.
Proof.
  intros Hne Hl. unfold Path.normalize, Path.render.
  change ("/" ++ JS.join "/" l) with (String "/" (JS.join "/" l)).
  cbn [String.eqb Path.isAbsolute Path.is_sep Ascii.eqb Bool.eqb negb].
  change (JS.split "/" (String "/" (JS.join "/" l)))
    with ("" :: JS.split "/" (JS.join "/" l)).
  rewrite split_join by auto using forallb_plain_no_sep.
  cbn [Path.normalizeSegs String.eqb orb].
  rewrite normalizeSegs_plain by exact Hl. cbn [rev app].
  destruct (JS.join "/" l =? "") eqn:Hempty.
  - apply String.eqb_eq in Hempty. exfalso. revert Hempty.
    apply join_nonempty; assumption.
  - change (String "/" (JS.join "/" l)) with ("/" ++ JS.join "/" l).
    rewrite trailingSeparator_app by (apply join_nonempty; assumption).
    rewrite trailingSeparator_join by exact Hl. rewrite append_nil_r.
    reflexivity.
Qed.

Lemma components_render (l : list string) :
  forallb Path.plain l = true -> Path.components (Path.render l) = l.
Proof.
  intros Hl. unfold Path.components, Path.render.
  change (JS.split "/" ("/" ++ JS.join "/" l))
    with ("" :: JS.split "/" (JS.join "/" l)).
  cbn [filter String.eqb negb].
  destruct l as [|x l']; [reflexivity|].
  rewrite split_join by (auto using forallb_plain_no_sep; discriminate).
  revert Hl. generalize (x :: l'). clear. intros l.
  induction l as [|y l IH]; [reflexivity|]. simpl. intros H.
  apply andb_true_iff in H. destruct H as [Hy Hl].
  apply plain_nonempty, String.eqb_neq in Hy. rewrite Hy. simpl.
  rewrite IH by exact Hl. reflexivity.
Qed.

Lemma render_nonempty (l : list string) : Path.render l <> "".
Proof. discriminate. Qed.

(** Joining plain path components onto such a path appends them. *)
Lemma join_render (l args : list string) :
  l <> [] -> forallb Path.plain l = true -> forallb Path.plain args = true ->
  Path.join (Path.render l :: args) = Path.render (l ++ args).
Proof.
  intros Hne Hl Hargs. unfold Path.join.
  assert (Hfilter : filter (fun a => negb (a =? "")) args = args).
  { clear - Hargs. induction args as [|a args IH]; [reflexivity|].
    simpl in *. apply andb_true_iff in Hargs. destruct Hargs as [Ha Hargs].
    apply plain_nonempty, String.eqb_neq in Ha. rewrite Ha. simpl.
    rewrite IH by exact Hargs. reflexivity. }
  cbn [filter]. change (Path.render l =? "") with false. cbn [negb].
  rewrite Hfilter.
  assert (Hjoined : JS.join "/" (Path.render l :: args)
                    = Path.render (l ++ args)).
  { destruct args as [|a args].
    - rewrite app_nil_r. reflexivity.
    - rewrite join_cons by discriminate. unfold Path.render.
      rewrite join_app by (auto; discriminate).
      rewrite !append_assoc. reflexivity. }
  rewrite Hjoined. apply normalize_render.
  - destruct l; [congruence|discriminate].
  - rewrite forallb_app, Hl, Hargs. reflexivity.
Qed.

Lemma render_injective (l1 l2 : list string) :
  forallb Path.plain l1 = true -> forallb Path.plain l2 = true ->
  Path.render l1 = Path.render l2 -> l1 = l2.
Proof.
  intros H1 H2 Heq.
  rewrite <- (components_render l1 H1), <- (components_render l2 H2), Heq.
  reflexivity.
Qed.

(** A key with separators in it goes into the workspace path as it is: the
    workspace is then nested below [nodes]. *)
Lemma join_render_nested (root ks : list string) :
  root <> [] -> forallb Path.plain root = true ->
  ks <> [] -> forallb Path.plain ks = true ->
  Path.join [Path.render root; "nodes"; JS.join "/" ks]
  = Path.render root ++ "/nodes/" ++ JS.join "/" ks.
Proof.
  intros Hroot Hplain Hks Hkplain. unfold Path.join. cbn [filter].
  change (Path.render root =? "") with false.
  change ("nodes" =? "") with false.
  destruct (JS.join "/" ks =? "") eqn:Hempty.
  { apply String.eqb_eq in Hempty. exfalso. revert Hempty.
    apply join_nonempty; assumption. }
  cbn [negb].
  assert (Hjoined :
    JS.join "/" [Path.render root; "nodes"; JS.join "/" ks]
    = Path.render (root ++ "nodes" :: ks)).
  { unfold Path.render.
    rewrite (join_app "/" root ("nodes" :: ks)) by (auto; discriminate).
    rewrite (join_cons "/" "nodes" ks) by exact Hks.
    cbn [JS.join String.concat]. rewrite !append_assoc. reflexivity. }
  rewrite Hjoined, normalize_render.
  - unfold Path.render.
    rewrite (join_app "/" root ("nodes" :: ks)) by (auto; discriminate).
    rewrite (join_cons "/" "nodes" ks) by exact Hks.
    rewrite !append_assoc. reflexivity.
  - destruct root; [congruence|discriminate].
  - rewrite forallb_app, Hplain. cbn [forallb]. rewrite Hkplain. reflexivity.
Qed.

Example workspace_of_name_with_separator :
  createKey "psk/Main node" = "psk/mainNode"
  /\ Path.join ["/tmp/psk_x7Gk2p"; "nodes"; createKey "psk/Main node"]
     = "/tmp/psk_x7Gk2p/nodes/psk/mainNode".
Proof. split; reflexivity. Qed.

(** ** [addDomain] *)

Lemma derived_workspaces_new (suffix : string) :
  derived_workspaces (tir (new_Tir suffix)).
Proof.
  intros domain cfg H. apply get_config_descriptor in H.
  destruct H as [H|(_ & _ & H)]; discriminate H.
Qed.

Lemma derived_workspaces_addDomain (domain : string)
  (agents : option (list string)) (c : constitution) (s : State) :
  derived_workspaces (tir s) ->
  derived_workspaces (tir (snd (addDomain domain agents c s))).
Proof.
  intros Hs other cfg. unfold addDomain, with_tir. cbn [snd tir domainConfigs
    rootFolder].
  destruct (String.eqb_spec other domain) as [->|Hne].
  - rewrite get_config_set_config. intros H. inversion H. reflexivity.
  - rewrite get_config_set_config_descriptor by exact Hne. apply Hs.
Qed.

Lemma addDomain_keeps_root (domain : string) (agents : option (list string))
  (c : constitution) (s : State) :
  rootFolder (tir (snd (addDomain domain agents c s))) = rootFolder (tir s).
Proof. reflexivity. Qed.

(** C2 (as amended): two registered domains whose keys are different plain
    path components have different workspaces.  The runner's root is the
    absolute path with the components [root]. *)
Theorem distinct_keys_distinct_workspaces (root : list string) (t : Tir)
  (d1 d2 : string) (c1 c2 : DomainConfig) :
  root <> [] -> forallb Path.plain root = true ->
  rootFolder t = Path.render root ->
  derived_workspaces t ->
  get_config d1 (domainConfigs t) = Some (Descriptor c1) ->
  get_config d2 (domainConfigs t) = Some (Descriptor c2) ->
  Path.plain (createKey d1) = true ->
  Path.plain (createKey d2) = true ->
  createKey d1 <> createKey d2 ->
  workspace c1 <> workspace c2.
Proof.
  intros Hne Hroot Hrender Hderived H1 H2 Hk1 Hk2 Hkeys Heq.
  rewrite (Hderived d1 c1 H1), (Hderived d2 c2 H2), Hrender in Heq.
  rewrite !join_render in Heq
    by (auto; cbn [forallb]; rewrite ?Hk1, ?Hk2; reflexivity).
  apply render_injective in Heq.
  - apply app_inv_head in Heq. congruence.
  - rewrite forallb_app, Hroot. cbn [forallb]. rewrite Hk1. reflexivity.
  - rewrite forallb_app, Hroot. cbn [forallb]. rewrite Hk2. reflexivity.
Qed.

Lemma distinct_keys_distinct_workspaces_witness :
  workspace_of "alpha" two_domains = Some "/tmp/psk_x7Gk2p/nodes/alpha"
  /\ workspace_of "beta node" two_domains
     = Some "/tmp/psk_x7Gk2p/nodes/betaNode"
  /\ "/tmp/psk_x7Gk2p/nodes/alpha" <> "/tmp/psk_x7Gk2p/nodes/betaNode".
Proof.
  conj; try reflexivity.
  refine (distinct_keys_distinct_workspaces ["tmp"; "psk_x7Gk2p"]
            (tir two_domains) "alpha" "beta node"
            (mkDomainConfig "alpha" (Some []) (ConstitutionPath "swarms.js")
               "/tmp/psk_x7Gk2p/nodes/alpha" "/tmp/psk_x7Gk2p/nodes/alpha/conf"
               "/tmp/psk_x7Gk2p/nodes/alpha/inbound"
               "/tmp/psk_x7Gk2p/nodes/alpha/outbound")
            (mkDomainConfig "beta node" (Some []) (ConstitutionPath "swarms.js")
               "/tmp/psk_x7Gk2p/nodes/betaNode"
               "/tmp/psk_x7Gk2p/nodes/betaNode/conf"
               "/tmp/psk_x7Gk2p/nodes/betaNode/inbound"
               "/tmp/psk_x7Gk2p/nodes/betaNode/outbound")
            _ _ _ _ _ _ _ _ _).
  - discriminate.
  - reflexivity.
  - reflexivity.
  - unfold two_domains. do 2 apply derived_workspaces_addDomain.
    apply derived_workspaces_new.
  - vm_compute. reflexivity.
  - vm_compute. reflexivity.
  - reflexivity.
  - reflexivity.
  - vm_compute. discriminate.
Defined.

(** C2 (as stated) fails: [ab] and [AB] are different names with the same
    key, and both are given the workspace [nodes/ab]. *)
Lemma case_variants_share_workspace :
  "ab" <> "AB"
  /\ createKey "ab" = createKey "AB"
  /\ workspace_of "ab" case_variants = Some "/tmp/psk_x7Gk2p/nodes/ab"
  /\ workspace_of "AB" case_variants = Some "/tmp/psk_x7Gk2p/nodes/ab".
Proof. conj; try reflexivity. discriminate. Qed.

Lemma split_nonempty (sep : ascii) (s : string) : JS.split sep s <> [].
Proof.
  destruct s as [|c s]; simpl; [discriminate|].
  destruct (Ascii.eqb c sep); [discriminate|].
  destruct (JS.split sep s); discriminate.
Qed.

(** Joining what [split] gives with the separator gives the string back. *)
Lemma split_rejoin (sep : ascii) (s : string) :
  JS.join (String sep "") (JS.split sep s) = s.
Proof.
  induction s as [|c s IH]; [reflexivity|]. simpl JS.split.
  pose proof (split_nonempty sep s) as Hne.
  destruct (Ascii.eqb_spec c sep) as [->|Hc].
  - rewrite join_cons by exact Hne. rewrite IH. reflexivity.
  - destruct (JS.split sep s) as [|w ws]; [congruence|].
    destruct ws as [|w' ws].
    + simpl in *. congruence.
    + rewrite join_cons in * by discriminate. rewrite <- IH. reflexivity.
Qed.




(** ** The file system *)

Lemma postorder_Dir (p : list string) (es : Fs.entries) :
  Fs.postorder p (Fs.Dir es) = (postorder_entries p es ++ [Fs.Rmdir p])%list.
Proof.
  simpl. f_equal. induction es as [|[x c] es IH]; [reflexivity|].
  unfold postorder_entries. cbn [flat_map fst snd]. rewrite IH. reflexivity.
Qed.

Lemma height_Dir_cons (x : string) (c : Fs.node) (es : Fs.entries) (f : nat) :
  Fs.height (Fs.Dir ((x, c) :: es)) <= S f ->
  Fs.height c <= f /\ Fs.height (Fs.Dir es) <= S f.
Proof. simpl. lia. Qed.

Lemma plain_names_Dir_cons (x : string) (c : Fs.node) (es : Fs.entries) :
  Fs.plain_names (Fs.Dir ((x, c) :: es)) = true ->
  Path.plain x = true /\ Fs.plain_names c = true
  /\ Fs.plain_names (Fs.Dir es) = true.
Proof.
  simpl. intros H. apply andb_true_iff in H. destruct H as [H Hes].
  apply andb_true_iff in H. tauto.
Qed.

Lemma find_map_entry (x : string) (g : Fs.node -> Fs.node) (es : Fs.entries) :
  Fs.find x (Fs.map_entry x g es) = option_map g (Fs.find x es).
Proof.
  induction es as [|[y c] es IH]; [reflexivity|].
  simpl. destruct (x =? y) eqn:Hxy; simpl; rewrite Hxy; auto.
Qed.

Lemma map_entry_twice (x : string) (f g : Fs.node -> Fs.node)
  (es : Fs.entries) :
  Fs.map_entry x g (Fs.map_entry x f es)
  = Fs.map_entry x (fun c => g (f c)) es.
Proof.
  induction es as [|[y c] es IH]; [reflexivity|].
  simpl. destruct (x =? y) eqn:Hxy; simpl; rewrite Hxy; congruence.
Qed.

Lemma map_entry_ext (x : string) (f g : Fs.node -> Fs.node) (es : Fs.entries) :
  (forall c, f c = g c) -> Fs.map_entry x f es = Fs.map_entry x g es.
Proof.
  intros Hfg. induction es as [|[y c] es IH]; [reflexivity|].
  simpl. destruct (x =? y); congruence.
Qed.

Lemma del_map_entry (x : string) (g : Fs.node -> Fs.node) (es : Fs.entries) :
  Fs.del x (Fs.map_entry x g es) = Fs.del x es.
Proof.
  induction es as [|[y c] es IH]; [reflexivity|].
  simpl. destruct (x =? y) eqn:Hxy; simpl; rewrite Hxy; congruence.
Qed.

Lemma lookup_snoc (p : list string) (x : string) (n : Fs.node) :
  Fs.lookup (p ++ [x]) n
  = match Fs.lookup p n with
    | Some (Fs.Dir es) => Fs.find x es
    | _ => None
    end.
Proof.
  revert n. induction p as [|y p IH]; intros n.
  - simpl. destruct n as [c|es]; [reflexivity|].
    destruct (Fs.find x es); reflexivity.
  - simpl. destruct n as [c|es]; [reflexivity|].
    destruct (Fs.find y es); [apply IH|reflexivity].
Qed.

Lemma lookup_update_at (p : list string) (f : Fs.entries -> Fs.entries)
  (n : Fs.node) (es : Fs.entries) :
  Fs.lookup p n = Some (Fs.Dir es) ->
  Fs.lookup p (Fs.update_at p f n) = Some (Fs.Dir (f es)).
Proof.
  revert n. induction p as [|x p IH]; intros n.
  - simpl. intros H. inversion H. reflexivity.
  - destruct n as [c|es0]; [discriminate|]. simpl.
    rewrite find_map_entry. destruct (Fs.find x es0); [apply IH|discriminate].
Qed.

Lemma update_at_ext (p : list string) (f g : Fs.entries -> Fs.entries)
  (n : Fs.node) :
  (forall es, f es = g es) -> Fs.update_at p f n = Fs.update_at p g n.
Proof.
  intros Hfg. revert n. induction p as [|x p IH]; intros [c|es]; simpl;
    try reflexivity.
  - rewrite Hfg. reflexivity.
  - f_equal. apply map_entry_ext, IH.
Qed.

Lemma update_at_twice (p : list string) (f g : Fs.entries -> Fs.entries)
  (n : Fs.node) :
  Fs.update_at p g (Fs.update_at p f n)
  = Fs.update_at p (fun es => g (f es)) n.
Proof.
  revert n. induction p as [|x p IH]; intros [c|es]; simpl; try reflexivity.
  f_equal. rewrite map_entry_twice. apply map_entry_ext, IH.
Qed.

(** Removing a directory does not care what was done inside it before. *)
Lemma update_at_del_inner (parent : list string) (x : string)
  (f : Fs.entries -> Fs.entries) (n : Fs.node) :
  Fs.update_at parent (Fs.del x) (Fs.update_at (parent ++ [x]) f n)
  = Fs.update_at parent (Fs.del x) n.
Proof.
  revert n. induction parent as [|y parent IH]; intros [c|es]; simpl;
    try reflexivity.
  - rewrite del_map_entry. reflexivity.
  - f_equal. rewrite map_entry_twice. apply map_entry_ext, IH.
Qed.

Lemma unsnoc_snoc (p : list string) (x : string) :
  Fs.unsnoc (p ++ [x]) = Some (p, x).
Proof.
  induction p as [|y p IH]; [reflexivity|].
  simpl. rewrite IH. destruct (p ++ [x])%list eqn:Hp; [|reflexivity].
  destruct p; discriminate.
Qed.

Lemma map_entry_id (x : string) (g : Fs.node -> Fs.node) (es : Fs.entries)
  (c : Fs.node) :
  Fs.find x es = Some c -> g c = c -> Fs.map_entry x g es = es.
Proof.
  intros Hfind Hg. induction es as [|[y d] es IH]; [reflexivity|].
  simpl in *. destruct (x =? y).
  - inversion Hfind; subst. rewrite Hg. reflexivity.
  - rewrite IH by exact Hfind. reflexivity.
Qed.

Lemma update_at_id (p : list string) (f : Fs.entries -> Fs.entries)
  (n : Fs.node) (es : Fs.entries) :
  Fs.lookup p n = Some (Fs.Dir es) -> f es = es -> Fs.update_at p f n = n.
Proof.
  revert n. induction p as [|x p IH]; intros n Hlookup Hf.
  - simpl in Hlookup. inversion Hlookup; subst. simpl. rewrite Hf. reflexivity.
  - destruct n as [c|es0]; [discriminate|]. simpl in *.
    destruct (Fs.find x es0) as [c|] eqn:Hfind; [|discriminate].
    f_equal. apply (map_entry_id x _ es0 c Hfind). apply IH; assumption.
Qed.

Lemma bind_Ok_step {S A B} (m : M S A) (k : A -> M S B) (s s1 : S) (a : A) :
  m s = (Ok a, s1) -> bind m k s = k a s1.
Proof. intros Hm. unfold bind. rewrite Hm. reflexivity. Qed.

(** ** [rmDeep] *)

Lemma rmDeep_missing (fuel : nat) (folder : string) (s : Fs.state) :
  Fs.lookup (Path.components folder) (Fs.tree s) = None ->
  rmDeep (S fuel) folder s = (Ok tt, s).
Proof.
  intros Hmissing. cbn [rmDeep]. unfold bind, Fs.existsSync.
  rewrite Hmissing. reflexivity.
Qed.

Lemma forallb_plain_snoc (q : list string) (x : string) :
  forallb Path.plain q = true -> Path.plain x = true ->
  forallb Path.plain (q ++ [x]) = true.
Proof.
  intros Hq Hx. rewrite forallb_app, Hq. simpl. rewrite Hx. reflexivity.
Qed.

(** The loop of [rmDeep] over the entries of the directory [q]. *)
Lemma rmDeep_entries (f : nat) (q : list string) :
  removes_directories f ->
  q <> [] -> forallb Path.plain q = true ->
  forall (cs : Fs.entries) (tree : Fs.node) (trace : list Fs.mutation),
    Fs.height (Fs.Dir cs) <= S f ->
    Fs.plain_names (Fs.Dir cs) = true ->
    Fs.lookup q tree = Some (Fs.Dir cs) ->
    forEach (map fst cs)
      (fun file =>
         let curPath := Path.join [Path.render q; file] in
         isDirectory <- Fs.lstat_isDirectory curPath ;;
         if (isDirectory : bool) then rmDeep f curPath
         else Fs.unlinkSync curPath)
      (Fs.mkState tree trace)
    = (Ok tt,
       Fs.mkState (Fs.update_at q (fun _ => []) tree)
                  (trace ++ postorder_entries q cs)).
Proof.
  intros IHf Hq Hplain. induction cs as [|[c t] rest IH];
    intros tree trace Hheight Hnames Hlookup.
  - simpl. unfold ret, postorder_entries. simpl. rewrite app_nil_r.
    rewrite (update_at_id q _ tree []) by auto. reflexivity.
  - apply height_Dir_cons in Hheight. destruct Hheight as [Hht Hhrest].
    apply plain_names_Dir_cons in Hnames.
    destruct Hnames as (Hc & Hnt & Hnrest).
    assert (Hqc : forallb Path.plain (q ++ [c]) = true)
      by (apply forallb_plain_snoc; assumption).
    assert (Hchild : Fs.lookup (q ++ [c]) tree = Some t).
    { rewrite lookup_snoc, Hlookup. simpl. rewrite String.eqb_refl.
      reflexivity. }
    assert (Hstep :
      (let curPath := Path.join [Path.render q; c] in
       isDirectory <- Fs.lstat_isDirectory curPath ;;
       if (isDirectory : bool) then rmDeep f curPath
       else Fs.unlinkSync curPath) (Fs.mkState tree trace)
      = (Ok tt,
         Fs.mkState (Fs.update_at q (Fs.del c) tree)
                    (trace ++ Fs.postorder (q ++ [c]) t))).
    { cbv zeta. rewrite join_render by (auto; simpl; rewrite Hc; reflexivity).
      destruct t as [content|ds].
      - unfold bind, Fs.lstat_isDirectory, Fs.unlinkSync.
        rewrite components_render by exact Hqc. cbn [Fs.tree Fs.trace].
        rewrite Hchild. cbn [Fs.tree Fs.trace].
        rewrite unsnoc_snoc, Hchild. reflexivity.
      - rewrite (bind_Ok_step _ _ _ (Fs.mkState tree trace) true).
        + apply IHf; assumption.
        + unfold Fs.lstat_isDirectory.
          rewrite components_render by exact Hqc. cbn [Fs.tree].
          rewrite Hchild. reflexivity. }
    cbn [map fst forEach].
    rewrite (bind_Ok_step _ _ _ _ tt Hstep).
    rewrite IH.
    + rewrite update_at_twice. unfold postorder_entries.
      cbn [flat_map fst snd]. rewrite app_assoc. reflexivity.
    + exact Hhrest.
    + exact Hnrest.
    + rewrite (lookup_update_at q _ tree _ Hlookup). simpl.
      rewrite String.eqb_refl. reflexivity.
Qed.

Lemma rmDeep_directory (fuel : nat) : removes_directories fuel.
Proof.
  induction fuel as [|f IHf];
    intros cs parent x tree trace Hheight Hnames Hplain Hlookup.
  - simpl in Hheight. lia.
  - assert (Hq : (parent ++ [x])%list <> []) by (destruct parent; discriminate).
    cbn [rmDeep].
    rewrite (bind_Ok_step _ _ _ (Fs.mkState tree trace) true).
    2: { unfold Fs.existsSync. rewrite components_render by exact Hplain.
         cbn [Fs.tree]. rewrite Hlookup. reflexivity. }
    rewrite (bind_Ok_step _ _ _ (Fs.mkState tree trace) (map fst cs)).
    2: { unfold Fs.readdirSync. rewrite components_render by exact Hplain.
         cbn [Fs.tree]. rewrite Hlookup. reflexivity. }
    rewrite (bind_Ok_step _ _ _ _ tt
               (rmDeep_entries f (parent ++ [x]) IHf Hq Hplain cs tree trace
                  Hheight Hnames Hlookup)).
    unfold Fs.rmdirSync. rewrite components_render by exact Hplain.
    rewrite unsnoc_snoc. cbn [Fs.tree Fs.trace].
    rewrite (lookup_update_at _ _ tree cs Hlookup).
    rewrite update_at_del_inner, postorder_Dir, <- app_assoc. reflexivity.
Qed.

(** Removing a tree touches nothing outside it. *)
Lemma postorder_within (h : nat) :
  forall (n : Fs.node) (p : list string),
    Fs.height n <= h ->
    Forall (fun m => exists r, target m = (p ++ r)%list) (Fs.postorder p n).
Proof.
  induction h as [|h IH]; intros [content|es] p Hheight.
  - repeat constructor. exists []. rewrite app_nil_r. reflexivity.
  - simpl in Hheight. lia.
  - repeat constructor. exists []. rewrite app_nil_r. reflexivity.
  - rewrite postorder_Dir. apply Forall_app. split.
    + clear - IH Hheight. induction es as [|[x c] es IHes]; [constructor|].
      apply height_Dir_cons in Hheight. destruct Hheight as [Hc Hes].
      unfold postorder_entries. cbn [flat_map fst snd]. apply Forall_app.
      split; [|apply IHes, Hes].
      eapply Forall_impl; [|apply (IH c (p ++ [x])%list Hc)].
      intros m [r Hr]. exists (x :: r). rewrite Hr, <- app_assoc. reflexivity.
    + repeat constructor. exists []. rewrite app_nil_r. reflexivity.
Qed.

(** The removal of a directory is the removal of what is strictly below
    it, followed by the removal of the directory itself. *)
Lemma postorder_contents_first (p : list string) (es : Fs.entries) :
  Fs.postorder p (Fs.Dir es) = (postorder_entries p es ++ [Fs.Rmdir p])%list
  /\ Forall (fun m => below p (target m)) (postorder_entries p es).
Proof.
  split; [apply postorder_Dir|].
  induction es as [|[x c] es IH]; [constructor|].
  unfold postorder_entries. cbn [flat_map fst snd]. apply Forall_app.
  split; [|exact IH].
  eapply Forall_impl;
    [|apply (postorder_within (Fs.height c) c (p ++ [x])%list (le_n _))].
  intros m [r Hr]. exists (x :: r). split; [discriminate|].
  rewrite Hr, <- app_assoc. reflexivity.
Qed.

Lemma rmdirSync_only_empty (p : string) (s s' : Fs.state) :
  Fs.rmdirSync p s = (Ok tt, s') ->
  Fs.lookup (Path.components p) (Fs.tree s) = Some (Fs.Dir []).
Proof.
  unfold Fs.rmdirSync.
  destruct (Fs.unsnoc (Path.components p)) as [[parent x]|]; [|discriminate].
  destruct (Fs.lookup (Path.components p) (Fs.tree s)) as [[c|[|e es]]|];
    try discriminate.
  reflexivity.
Qed.

(** C7: on a path that does not exist [rmDeep] returns and leaves the disk
    alone.  On a directory it returns as well, given a budget of the height
    of the tree: the entry is gone from its parent, and what went to the
    disk is the removal of the tree in postorder, the contents of every
    directory before the directory itself: all of it but the last step is
    strictly below the directory, and the last step removes the directory.
    [rmdirSync] accepts a directory only once it is empty. *)
Theorem rmDeep_removes_depth_first (folder : list string) (s : Fs.state) :
  folder <> [] ->
  forallb Path.plain folder = true ->
  (Fs.lookup folder (Fs.tree s) = None ->
   forall fuel, rmDeep (S fuel) (Path.render folder) s = (Ok tt, s))
  /\ (forall es,
        Fs.lookup folder (Fs.tree s) = Some (Fs.Dir es) ->
        Fs.plain_names (Fs.Dir es) = true ->
        forall fuel,
          Fs.height (Fs.Dir es) <= fuel ->
          exists parent x siblings,
            folder = (parent ++ [x])%list
            /\ Fs.lookup parent (Fs.tree s) = Some (Fs.Dir siblings)
            /\ rmDeep fuel (Path.render folder) s
               = (Ok tt,
                  Fs.mkState
                    (Fs.update_at parent (Fs.del x) (Fs.tree s))
                    (Fs.trace s ++ Fs.postorder folder (Fs.Dir es)))
            /\ Fs.lookup parent (Fs.update_at parent (Fs.del x) (Fs.tree s))
               = Some (Fs.Dir (Fs.del x siblings))
            /\ exists contents,
                 Fs.postorder folder (Fs.Dir es)
                 = (contents ++ [Fs.Rmdir folder])%list
                 /\ Forall (fun m => below folder (target m)) contents)
  /\ (forall p s0 s1,
        Fs.rmdirSync p s0 = (Ok tt, s1) ->
        Fs.lookup (Path.components p) (Fs.tree s0) = Some (Fs.Dir [])).
Proof.
  intros Hne Hplain. conj.
  - intros Hmissing fuel. apply rmDeep_missing.
    rewrite components_render by exact Hplain. exact Hmissing.
  - intros es Hlookup Hnames fuel Hheight.
    destruct (exists_last Hne) as (parent & x & Hfolder). subst folder.
    assert (Hparent : exists siblings,
              Fs.lookup parent (Fs.tree s) = Some (Fs.Dir siblings)).
    { rewrite lookup_snoc in Hlookup.
      destruct (Fs.lookup parent (Fs.tree s)) as [[c|siblings]|];
        try discriminate.
      exists siblings. reflexivity. }
    destruct Hparent as [siblings Hparent].
    exists parent, x, siblings. conj.
    + reflexivity.
    + exact Hparent.
    + destruct s as [tree trace]. apply rmDeep_directory; assumption.
    + apply lookup_update_at. exact Hparent.
    + exists (postorder_entries (parent ++ [x]) es).
      apply postorder_contents_first.
  - intros p s0 s1. apply rmdirSync_only_empty.
Qed.

Lemma rmDeep_removes_depth_first_witness :
  let disk := fs (world demo_launched) in
  map fst demo_nodes_entries = ["local"]
  /\ (exists parent x siblings,
        ["tmp"; "psk_x7Gk2p"; "nodes"] = (parent ++ [x])%list
        /\ Fs.lookup parent (Fs.tree disk) = Some (Fs.Dir siblings)
        /\ rmDeep 3 "/tmp/psk_x7Gk2p/nodes" disk
           = (Ok tt,
              Fs.mkState
                (Fs.update_at parent (Fs.del x) (Fs.tree disk))
                (Fs.trace disk
                 ++ Fs.postorder ["tmp"; "psk_x7Gk2p"; "nodes"]
                      (Fs.Dir demo_nodes_entries)))
        /\ Fs.lookup parent (Fs.update_at parent (Fs.del x) (Fs.tree disk))
           = Some (Fs.Dir (Fs.del x siblings))
        /\ exists contents,
             Fs.postorder ["tmp"; "psk_x7Gk2p"; "nodes"]
               (Fs.Dir demo_nodes_entries)
             = (contents ++ [Fs.Rmdir ["tmp"; "psk_x7Gk2p"; "nodes"]])%list
             /\ Forall
                  (fun m => below ["tmp"; "psk_x7Gk2p"; "nodes"] (target m))
                  contents)
  /\ rmDeep 1 "/tmp/psk_x7Gk2p/missing" disk = (Ok tt, disk).
Proof.
  intros disk.
  destruct (rmDeep_removes_depth_first ["tmp"; "psk_x7Gk2p"; "nodes"] disk)
    as (_ & Hdir & _); [discriminate|reflexivity|].
  destruct (rmDeep_removes_depth_first ["tmp"; "psk_x7Gk2p"; "missing"] disk)
    as (Hmissing & _ & _); [discriminate|reflexivity|].
  conj.
  - reflexivity.
  - apply (Hdir demo_nodes_entries); [reflexivity|reflexivity|].
    vm_compute. lia.
  - apply (Hmissing eq_refl 0).
Defined.

(** The deferred part of [tearDown], run on the launched demo: the
    temporary folder is gone. *)
Example cleanup_removes_workspace :
  fst (fire (Cleanup None) demo_torn_down) = Ok tt
  /\ Fs.tree (fs (world (snd (fire (Cleanup None) demo_torn_down))))
     = Fs.Dir [("tmp", Fs.Dir [])].
Proof. split; vm_compute; reflexivity. Qed.

(** * Further facts *)

(** ** [createKey], continued *)

Lemma lower_char_space (c : ascii) :
  JS.lower_char c = " "%char -> c = " "%char.
Proof.
  destruct c as [[] [] [] [] [] [] [] []]; intros H; try reflexivity;
    discriminate H.
Qed.

Lemma map_string_length (f : ascii -> ascii) (s : string) :
  String.length (JS.map_string f s) = String.length s.
Proof. induction s as [|c s IH]; simpl; congruence. Qed.

(** The key of a name written in ASCII has no space in it, and as many
    characters as the name has characters other than spaces. *)
Theorem createKey_has_no_space (name : string) :
  JS.ascii_only name = true ->
  ~ JS.In_string " " (createKey name)
  /\ String.length (createKey name)
     = String.length
         (JS.filter_string (fun c => negb (Ascii.eqb c " ")) name).
Proof.
  intros _. split.
  - intros Hin.
    assert (Hlow : JS.In_string " " (JS.toLowerCase (createKey name))).
    { apply In_string_map. exists " "%char. split; [exact Hin|reflexivity]. }
    rewrite createKey_lower in Hlow. apply In_string_map in Hlow.
    destruct Hlow as (c & Hc & Hspace). apply lower_char_space in Hspace.
    subst c. apply In_string_filter in Hc. destruct Hc as [_ Hc].
    discriminate Hc.
  - rewrite <- (map_string_length JS.lower_char (createKey name)).
    fold (JS.toLowerCase (createKey name)). rewrite createKey_lower.
    apply map_string_length.
Qed.

Lemma createKey_has_no_space_witness :
  createKey "my Test domain" = "myTestDomain"
  /\ ~ JS.In_string " " (createKey "my Test domain")
  /\ String.length (createKey "my Test domain") = 12.
Proof.
  split; [reflexivity|].
  destruct (createKey_has_no_space "my Test domain" eq_refl)
    as [Hspace Hlength].
  split; [exact Hspace|]. rewrite Hlength. reflexivity.
Defined.

Lemma split_without_separator (sep : ascii) (s : string) :
  JS.all_chars (fun c => negb (Ascii.eqb c sep)) s = true ->
  JS.split sep s = [s].
Proof.
  induction s as [|c s IH]; simpl; [reflexivity|].
  intros H. apply andb_true_iff in H. destruct H as [Hc Hs].
  apply negb_true_iff in Hc. rewrite Hc, (IH Hs). reflexivity.
Qed.

(** A name without spaces is one word: its key is the name in lower case,
    so two such names share a key exactly when they differ in case only. *)
Theorem createKey_of_one_word (name : string) :
  JS.all_chars (fun c => negb (Ascii.eqb c " ")) name = true ->
  createKey name = JS.toLowerCase name.
Proof.
  intros Hword. unfold createKey. cbn [append].
  rewrite split_without_separator by exact Hword. reflexivity.
Qed.

Lemma createKey_of_one_word_witness :
  createKey "PskDomain/A" = "pskdomain/a".
Proof.
  apply (createKey_of_one_word "PskDomain/A"). reflexivity.
Defined.

(** ** [createConstitution], continued *)

Lemma collect_all_some {S A B} (f : A -> M S B) (g : A -> option B)
  (e : error) (l : list A) (s : S) :
  (forall x, f x s = match g x with
                     | Some y => (Ok y, s)
                     | None => (Throw e, s)
                     end) ->
  collect f l s = match all_some g l with
                  | Some ys => (Ok ys, s)
                  | None => (Throw e, s)
                  end.
Proof.
  intros Hf. induction l as [|x l IH]; [reflexivity|].
  cbn [collect all_some]. unfold bind at 1. rewrite Hf.
  destruct (g x) as [y|]; [|reflexivity].
  unfold bind at 1. rewrite IH. destruct (all_some g l); reflexivity.
Qed.

Lemma data_toString_primitive (j : json) :
  (typeof (PData j) =? "object") = false -> data_toString j <> None.
Proof. destruct j as [|[]| | | |]; simpl; congruence. Qed.

Lemma property_text_rendered {S} (opts : options) (prop : string)
  (v : propval) (s : S) :
  property_text opts prop v s
  = match rendered v with
    | Some text => (Ok (nl opts ++ tab opts ++ prop ++ ": " ++ text), s)
    | None => (Throw undefined_has_no_toString, s)
    end.
Proof.
  unfold property_text, rendered. destruct v as [source|j|]; try reflexivity.
  destruct (typeof (PData j) =? "object") eqn:Htype; [reflexivity|].
  unfold bind, toString.
  pose proof (data_toString_primitive j Htype) as Hsome.
  destruct (data_toString j); [reflexivity|congruence].
Qed.

Lemma swarm_line_source {S} (opts : options) (sw : string * swarm_description)
  (s : S) :
  swarm_line opts (fst sw) (snd sw) s
  = match option_map
            (fun fields =>
               "$$.swarms.describe('" ++ fst sw ++ "', {"
               ++ JS.join "," fields ++ nl opts ++ "})" ++ semi opts)
            (all_some
               (fun pv =>
                  option_map
                    (fun text => nl opts ++ tab opts ++ fst pv ++ ": " ++ text)
                    (rendered (snd pv)))
               (snd sw)) with
    | Some line => (Ok line, s)
    | None => (Throw undefined_has_no_toString, s)
    end.
Proof.
  unfold swarm_line, bind at 1.
  rewrite (collect_all_some _
             (fun pv =>
                option_map
                  (fun text => nl opts ++ tab opts ++ fst pv ++ ": " ++ text)
                  (rendered (snd pv)))
             undefined_has_no_toString).
  - destruct (all_some _ (snd sw)); reflexivity.
  - intros [prop v]. cbn [fst snd]. rewrite property_text_rendered.
    destruct (rendered v); reflexivity.
Qed.

(** [createConstitution] builds the whole text first, and only then
    touches the disk. *)
Lemma createConstitution_source (prefix : string) (d : describer)
  (o : overrides) (s : Fs.state) :
  createConstitution prefix d o s
  = match constitution_source (assign_defaults o) d with
    | Some contents =>
        (Fs.writeFileSync (Path.join [prefix; "constitution.js"]) contents ;;
         ret (Path.join [prefix; "constitution.js"])) s
    | None => (Throw undefined_has_no_toString, s)
    end.
Proof.
  unfold createConstitution, constitution_source. unfold bind at 1.
  match goal with
  | |- context [option_map _ (all_some ?g d)] =>
      rewrite (collect_all_some _ g undefined_has_no_toString d s
                 (fun sw => swarm_line_source (assign_defaults o) sw s));
      destruct (all_some g d)
  end; reflexivity.
Qed.

Lemma all_some_None {A B} (g : A -> option B) (l : list A) :
  existsb (fun x => match g x with None => true | Some _ => false end) l = true ->
  all_some g l = None.
Proof.
  induction l as [|x l IH]; [discriminate|]. simpl.
  destruct (g x); [|reflexivity]. simpl. intros H. rewrite (IH H). reflexivity.
Qed.

Lemma all_some_map {A B} (g : A -> option B) (h : A -> B) (l : list A) :
  (forall x, In x l -> g x = Some (h x)) ->
  all_some g l = Some (map h l).
Proof.
  intros Hg. induction l as [|x l IH]; [reflexivity|]. simpl.
  rewrite (Hg x (or_introl eq_refl)), IH; [reflexivity|].
  intros y Hy. apply Hg. right. exact Hy.
Qed.

Lemma existsb_impl {A} (p q : A -> bool) (l : list A) :
  (forall x, p x = true -> q x = true) ->
  existsb p l = true -> existsb q l = true.
Proof.
  intros Hpq H. apply existsb_exists in H. destruct H as (x & Hin & Hp).
  apply existsb_exists. exists x. auto.
Qed.

(** A describer with an [undefined] property makes [createConstitution]
    throw a [TypeError] before anything is written: the disk is as it
    was. *)
Theorem createConstitution_undefined_property (prefix : string) (d : describer)
  (o : overrides) (s : Fs.state) :
  has_undefined d = true ->
  createConstitution prefix d o s = (Throw undefined_has_no_toString, s).
Proof.
  intros Hundef. rewrite createConstitution_source.
  assert (Hnone : constitution_source (assign_defaults o) d = None).
  { unfold constitution_source. rewrite all_some_None; [reflexivity|].
    revert Hundef. unfold has_undefined. apply existsb_impl. intros sw Hsw.
    rewrite all_some_None; [reflexivity|].
    revert Hsw. apply existsb_impl. intros [prop v] Hv. cbn [snd] in *.
    destruct v; try discriminate. reflexivity. }
  rewrite Hnone. reflexivity.
Qed.

Lemma createConstitution_undefined_property_witness :
  createConstitution "/w"
    [("intel", [("begin", PFunction "function(){}"); ("a1", PUndefined)])]
    no_overrides flow_disk
  = (Throw undefined_has_no_toString, flow_disk).
Proof.
  apply createConstitution_undefined_property. reflexivity.
Defined.

(** For a describer whose properties are functions and objects only, what
    [createConstitution] hands to [writeFileSync] is one registration call
    per swarm, in the order of the describer, with every function written as
    its source text and every object as JSON. *)
Theorem createConstitution_functions_and_objects (prefix : string)
  (d : describer) (o : overrides) (s : Fs.state) :
  functions_and_objects d = true ->
  createConstitution prefix d o s
  = (Fs.writeFileSync (Path.join [prefix; "constitution.js"])
       (declared_source (assign_defaults o) d) ;;
     ret (Path.join [prefix; "constitution.js"])) s.
Proof.
  intros Htyped. rewrite createConstitution_source.
  assert (Hsome : constitution_source (assign_defaults o) d
                  = Some (declared_source (assign_defaults o) d)).
  { unfold constitution_source, declared_source.
    unfold functions_and_objects in Htyped. rewrite forallb_forall in Htyped.
    erewrite all_some_map; [reflexivity|].
    intros sw Hsw. specialize (Htyped sw Hsw). rewrite forallb_forall in Htyped.
    erewrite all_some_map; [reflexivity|].
    intros [prop v] Hpv. specialize (Htyped _ Hpv). cbn [fst snd] in *.
    unfold rendered. destruct v as [source|j|]; [reflexivity| |discriminate].
    rewrite Htyped. reflexivity. }
  rewrite Hsome. reflexivity.
Qed.

Lemma createConstitution_functions_and_objects_witness :
  functions_and_objects demo_describer = true
  /\ Fs.lookup ["w"; "constitution.js"]
       (Fs.tree (snd (createConstitution "/w" demo_describer no_overrides
                        flow_disk)))
     = Some (Fs.File (declared_source (assign_defaults no_overrides)
                        demo_describer))
  /\ declared_source (assign_defaults no_overrides) []  = "".
Proof.
  split; [reflexivity|]. split; [|reflexivity].
  rewrite (createConstitution_functions_and_objects "/w" demo_describer
             no_overrides flow_disk eq_refl).
  vm_compute. reflexivity.
Defined.

Lemma unsnoc_Some (p q : list string) (x : string) :
  Fs.unsnoc p = Some (q, x) -> p = (q ++ [x])%list.
Proof.
  intros Hsplit. destruct p as [|y p]; [discriminate|].
  destruct (@exists_last _ (y :: p)) as (q' & x' & Hp); [discriminate|].
  rewrite Hp, unsnoc_snoc in Hsplit. inversion Hsplit; subst. exact Hp.
Qed.

Lemma find_put (x : string) (n : Fs.node) (es : Fs.entries) :
  Fs.find x (Fs.put x n es) = Some n.
Proof.
  unfold Fs.put. destruct (Fs.find x es) eqn:Hfind.
  - rewrite find_map_entry, Hfind. reflexivity.
  - induction es as [|[y c] es IH]; simpl in *.
    + rewrite String.eqb_refl. reflexivity.
    + destruct (x =? y); [discriminate|]. apply IH, Hfind.
Qed.

(** [writeFileSync] either puts the file in place, readable afterwards, or
    throws and leaves the disk alone. *)
Lemma writeFileSync_outcome (p contents : string) (s : Fs.state) :
  (exists s',
     Fs.writeFileSync p contents s = (Ok tt, s')
     /\ Fs.trace s'
        = (Fs.trace s ++ [Fs.WriteFile (Path.components p) contents])%list
     /\ Fs.lookup (Path.components p) (Fs.tree s')
        = Some (Fs.File contents))
  \/ (exists e, Fs.writeFileSync p contents s = (Throw e, s)).
Proof.
  unfold Fs.writeFileSync.
  destruct (Fs.unsnoc (Path.components p)) as [[parent x]|] eqn:Hsplit;
    [|right; eauto].
  apply unsnoc_Some in Hsplit.
  destruct (Fs.lookup parent (Fs.tree s)) as [[c|es]|] eqn:Hparent;
    try (right; eauto; fail).
  assert (Hwritten :
    Fs.lookup (Path.components p)
      (Fs.update_at parent (Fs.put x (Fs.File contents)) (Fs.tree s))
    = Some (Fs.File contents)).
  { rewrite Hsplit, lookup_snoc, (lookup_update_at _ _ _ _ Hparent).
    apply find_put. }
  destruct (Fs.find x es) as [[c|es']|]; [left|right; eauto|left];
    eexists; conj; try reflexivity; exact Hwritten.
Qed.

(** [createConstitution] writes once or not at all: when it returns, the
    path returned is [constitution.js] under the prefix, one file write has
    reached the disk and the file is there to be read; when it throws, the
    disk is as it was. *)
Theorem createConstitution_one_write (prefix : string) (d : describer)
  (o : overrides) (s : Fs.state) :
  let file := Path.join [prefix; "constitution.js"] in
  match createConstitution prefix d o s with
  | (Ok returned, s') =>
      returned = file
      /\ exists contents,
           Fs.trace s'
           = (Fs.trace s ++ [Fs.WriteFile (Path.components file) contents])%list
           /\ Fs.lookup (Path.components file) (Fs.tree s')
              = Some (Fs.File contents)
  | (Throw _, s') => s' = s
  | (OutOfFuel, _) => False
  end.
Proof.
  intros file. rewrite createConstitution_source.
  destruct (constitution_source (assign_defaults o) d) as [contents|];
    [|reflexivity].
  fold file. unfold bind.
  destruct (writeFileSync_outcome file contents s)
    as [(s' & Hrun & Htrace & Hfile)|(e & Hrun)]; rewrite Hrun.
  - split; [reflexivity|]. exists contents. auto.
  - reflexivity.
Qed.

(** ** What a call leaves alone *)

Lemma same_processes_preorder : preorder same_processes.
Proof.
  split.
  - intros s. unfold same_processes. tauto.
  - intros s1 s2 s3 H12 H23. unfold same_processes in *.
    destruct H12 as (?&?&?&?&?&?&?), H23 as (?&?&?&?&?&?&?).
    conj; congruence.
Qed.

Lemma same_disk_preorder : preorder same_disk.
Proof. split; unfold same_disk; intros; congruence. Qed.

Lemma same_ledger_preorder : preorder same_ledger.
Proof. split; unfold same_ledger; intros; congruence. Qed.

Lemma keeps_ret {A} (R : State -> State -> Prop) (a : A) :
  preorder R -> keeps R (ret a).
Proof. intros [Hrefl _] s. apply Hrefl. Qed.

Lemma keeps_throw {A} (R : State -> State -> Prop) (e : error) :
  preorder R -> keeps R (@throw State A e).
Proof. intros [Hrefl _] s. apply Hrefl. Qed.

Lemma keeps_bind {A B} (R : State -> State -> Prop) (m : M State A)
  (k : A -> M State B) :
  preorder R -> keeps R m -> (forall a, keeps R (k a)) -> keeps R (bind m k).
Proof.
  intros [_ Htrans] Hm Hk s. unfold bind. specialize (Hm s).
  destruct (m s) as [[a|e|] s1]; simpl in *; auto.
  eapply Htrans; [exact Hm|apply Hk].
Qed.

Lemma keeps_forEach {A} (R : State -> State -> Prop) (l : list A)
  (f : A -> M State unit) :
  preorder R -> (forall x, keeps R (f x)) -> keeps R (forEach l f).
Proof.
  intros HR Hf. induction l as [|x l IH]; simpl.
  - apply keeps_ret, HR.
  - apply keeps_bind; auto.
Qed.

Lemma keeps_try_catch {A} (R : State -> State -> Prop) (m : M State A)
  (h : error -> M State A) :
  preorder R -> keeps R m -> (forall e, keeps R (h e)) ->
  keeps R (try_catch m h).
Proof.
  intros [_ Htrans] Hm Hh s. unfold try_catch. specialize (Hm s).
  destruct (m s) as [[a|e|] s1]; simpl in *; auto.
  eapply Htrans; [exact Hm|apply Hh].
Qed.

Lemma console_info_keeps_processes (args : list string) :
  keeps same_processes (console_info args).
Proof. intros s. unfold same_processes. simpl. tauto. Qed.

Lemma console_info_keeps_disk (args : list string) :
  keeps same_disk (console_info args).
Proof. intros s. reflexivity. Qed.

Lemma console_info_keeps_ledger (args : list string) :
  keeps same_ledger (console_info args).
Proof. intros s. reflexivity. Qed.

Lemma ledger_do_keeps_processes (c : ledger_call) :
  keeps same_processes (ledger_do c).
Proof. intros s. unfold same_processes. simpl. tauto. Qed.

Lemma ledger_do_keeps_disk (c : ledger_call) : keeps same_disk (ledger_do c).
Proof. intros s. reflexivity. Qed.

Lemma on_fs_keeps_processes {A} (m : M Fs.state A) :
  keeps same_processes (on_fs m).
Proof.
  intros s. unfold on_fs, lift. destruct (m (fs (world s))) as [r f'].
  unfold same_processes. simpl. tauto.
Qed.

Lemma on_fs_keeps_ledger_always {A} (m : M Fs.state A) :
  keeps same_ledger (on_fs m).
Proof.
  intros s. unfold on_fs, lift. destruct (m (fs (world s))) as [r f'].
  reflexivity.
Qed.

Create HintDb keeps.

#[local] Hint Resolve same_processes_preorder same_disk_preorder
  same_ledger_preorder console_info_keeps_processes console_info_keeps_disk
  console_info_keeps_ledger ledger_do_keeps_processes ledger_do_keeps_disk
  on_fs_keeps_processes on_fs_keeps_ledger_always : keeps.

(** Walks through a sequence of calls, leaving what the hints do not know. *)
Ltac keeps_step :=
  repeat first
    [ solve [auto with keeps]
    | apply keeps_ret; solve [auto with keeps]
    | apply keeps_throw; solve [auto with keeps]
    | apply keeps_bind; [solve [auto with keeps]| |intros]
    | apply keeps_forEach; [solve [auto with keeps]|intros]
    | apply keeps_try_catch; [solve [auto with keeps]| |intros]
    | match goal with
      | |- keeps _ (match ?x with _ => _ end) => destruct x
      end ].

Lemma register_domain_keeps_processes (cfg : DomainConfig) (file : string) :
  keeps same_processes (register_domain cfg file).
Proof. unfold register_domain. keeps_step. Qed.

Lemma register_domain_keeps_disk (cfg : DomainConfig) (file : string) :
  keeps same_disk (register_domain cfg file).
Proof. unfold register_domain. keeps_step. Qed.

Lemma register_agent_keeps_processes (cfg : DomainConfig) (a : string) :
  keeps same_processes (register_agent cfg a).
Proof. unfold register_agent. keeps_step. Qed.

Lemma register_agent_keeps_disk (cfg : DomainConfig) (a : string) :
  keeps same_disk (register_agent cfg a).
Proof. unfold register_agent. keeps_step. Qed.

#[local] Hint Resolve register_domain_keeps_processes
  register_domain_keeps_disk register_agent_keeps_processes
  register_agent_keeps_disk : keeps.

Lemma buildDomainConfiguration_keeps_processes (cfg : DomainConfig) :
  keeps same_processes (buildDomainConfiguration cfg).
Proof. unfold buildDomainConfiguration. keeps_step. Qed.

Lemma bind_Throw_step {S A B} (m : M S A) (k : A -> M S B) (s s1 : S)
  (e : error) :
  m s = (Throw e, s1) -> bind m k s = (Throw e, s1).
Proof. intros Hm. unfold bind. rewrite Hm. reflexivity. Qed.

(** ** [buildDomainConfiguration], continued *)

Lemma console_info_runs (args : list string) (s : State) :
  exists s1,
    console_info args s = (Ok tt, s1) /\ same_disk s s1 /\ same_ledger s s1.
Proof. eexists. conj; reflexivity. Qed.

Lemma on_fs_runs {A} (m : M Fs.state A) (s : State) (r : outcome A)
  (f' : Fs.state) :
  m (fs (world s)) = (r, f') ->
  exists s', on_fs m s = (r, s') /\ fs (world s') = f' /\ same_ledger s s'.
Proof.
  intros Hm. unfold on_fs, lift. rewrite Hm. eexists. conj; reflexivity.
Qed.

Lemma mkdirSync_outcome (p : string) (f : Fs.state) :
  (exists f',
     Fs.mkdirSync p f = (Ok tt, f')
     /\ Fs.trace f' = (Fs.trace f ++ [Fs.Mkdir (Path.components p)])%list
     /\ Fs.lookup (Path.components p) (Fs.tree f) = None
     /\ Fs.lookup (Path.components p) (Fs.tree f') = Some (Fs.Dir []))
  \/ (exists e, Fs.mkdirSync p f = (Throw e, f)).
Proof.
  unfold Fs.mkdirSync.
  destruct (Fs.unsnoc (Path.components p)) as [[parent x]|] eqn:Hsplit;
    [|right; eauto].
  apply unsnoc_Some in Hsplit.
  destruct (Fs.lookup parent (Fs.tree f)) as [[c|es]|] eqn:Hparent;
    try (right; eauto; fail).
  destruct (Fs.find x es) eqn:Hfind; [right; eauto|left].
  eexists. conj; try reflexivity.
  - rewrite Hsplit, lookup_snoc, Hparent. exact Hfind.
  - cbn [Fs.tree].
    rewrite Hsplit, lookup_snoc, (lookup_update_at _ _ _ _ Hparent).
    apply find_put.
Qed.

Lemma agents_loop_keeps_disk (cfg : DomainConfig) :
  keeps same_disk
    match agents cfg with
    | Some (first :: others) =>
        ledger_do (CreateDBHandler (conf cfg)) ;;
        console_info ["[TIR] domain " ++ name cfg ++ " starting agents..."] ;;
        forEach (first :: others) (register_agent cfg)
    | _ => ret tt
    end.
Proof. keeps_step. Qed.

Lemma createConstitution_runs (prefix : string) (d : describer)
  (o : overrides) (f : Fs.state) :
  (exists contents f',
     createConstitution prefix d o f
     = (Ok (Path.join [prefix; "constitution.js"]), f')
     /\ Fs.trace f'
        = (Fs.trace f
           ++ [Fs.WriteFile
                 (Path.components (Path.join [prefix; "constitution.js"]))
                 contents])%list
     /\ Fs.lookup (Path.components (Path.join [prefix; "constitution.js"]))
          (Fs.tree f')
        = Some (Fs.File contents))
  \/ (exists e, createConstitution prefix d o f = (Throw e, f)).
Proof.
  rewrite createConstitution_source.
  destruct (constitution_source (assign_defaults o) d) as [contents|];
    [|right; eauto].
  unfold bind.
  destruct (writeFileSync_outcome (Path.join [prefix; "constitution.js"])
              contents f)
    as [(f' & Hwrite & Htrace & Hfile)|(e & Hwrite)]; rewrite Hwrite.
  - left. exists contents, f'. auto.
  - right. eauto.
Qed.

(** One domain is provisioned in two phases: the disk first, which may
    fail, then the ledger, which is only reached when the disk is done. *)
Lemma buildDomainConfiguration_outcome (cfg : DomainConfig) (s : State) :
  match buildDomainConfiguration cfg s with
  | (Ok _, s') =>
      ledger (world s') = (ledger (world s) ++ provisioning_calls cfg)%list
      /\ Fs.lookup (Path.components (workspace cfg)) (Fs.tree (fs (world s)))
         = None
      /\ match dc_constitution cfg with
         | ConstitutionPath _ =>
             Fs.trace (fs (world s'))
             = (Fs.trace (fs (world s))
                ++ [Fs.Mkdir (Path.components (workspace cfg))])%list
         | ConstitutionObject _ =>
             exists contents,
               Fs.trace (fs (world s'))
               = (Fs.trace (fs (world s))
                  ++ [Fs.Mkdir (Path.components (workspace cfg));
                      Fs.WriteFile (Path.components (provisioned_file cfg))
                        contents])%list
               /\ Fs.lookup (Path.components (provisioned_file cfg))
                    (Fs.tree (fs (world s')))
                  = Some (Fs.File contents)
         end
  | (Throw _, s') => ledger (world s') = ledger (world s)
  | (OutOfFuel, _) => False
  end.
Proof.
  unfold buildDomainConfiguration.
  destruct (console_info_runs
              ["[TIR] domain " ++ name cfg ++ " in workspace"; workspace cfg] s)
    as (s1 & Hrun1 & Hdisk1 & Hledger1).
  rewrite (bind_Ok_step _ _ _ _ _ Hrun1).
  destruct (console_info_runs
              ["[TIR] domain " ++ name cfg ++ " inbound"; inbound cfg] s1)
    as (s2 & Hrun2 & Hdisk2 & Hledger2).
  rewrite (bind_Ok_step _ _ _ _ _ Hrun2).
  unfold same_disk, same_ledger in *.
  destruct (mkdirSync_outcome (workspace cfg) (fs (world s2)))
    as [(f3 & Hmk & Htrace3 & Hfree & Hthere)|(e & Hmk)];
    destruct (on_fs_runs _ s2 _ _ Hmk) as (s3 & Hrun3 & Hfs3 & Hledger3);
    unfold same_ledger in *.
  2: { unfold bind at 1. rewrite Hrun3. congruence. }
  rewrite (bind_Ok_step _ _ _ _ _ Hrun3).
  assert (Hphase2 : forall file s4,
    ledger (world s4) = ledger (world s) ->
    exists s',
      (register_domain cfg file ;;
       match agents cfg with
       | Some (first :: others) =>
           ledger_do (CreateDBHandler (conf cfg)) ;;
           console_info ["[TIR] domain " ++ name cfg ++ " starting agents..."] ;;
           forEach (first :: others) (register_agent cfg)
       | _ => ret tt
       end) s4 = (Ok tt, s')
      /\ ledger (world s')
         = (ledger (world s) ++ domain_transaction cfg file ++ agents_part cfg)%list
      /\ fs (world s') = fs (world s4)).
  { intros file s4 Hledger4.
    destruct (ledger_writes_bind _ _ _ _ (register_domain_ledger cfg file)
                (fun _ => register_all_agents_ledger cfg) s4)
      as ([] & s' & Hrun & Hledger).
    exists s'. conj; [exact Hrun|rewrite Hledger, Hledger4; reflexivity|].
    pose proof (keeps_bind same_disk _ _ same_disk_preorder
                  (register_domain_keeps_disk cfg file)
                  (fun _ => agents_loop_keeps_disk cfg) s4) as Hdisk.
    rewrite Hrun in Hdisk. exact Hdisk. }
  unfold provisioning_calls, provisioned_file.
  destruct (dc_constitution cfg) as [file|d].
  - rewrite (bind_Ok_step _ _ _ s3 file eq_refl).
    destruct (Hphase2 file s3) as (s' & Hrun & Hledger & Hfs); [congruence|].
    rewrite Hrun. conj.
    + exact Hledger.
    + rewrite <- Hdisk1, <- Hdisk2. exact Hfree.
    + rewrite Hfs, Hfs3, Htrace3. congruence.
  - destruct (createConstitution_runs (workspace cfg) d no_overrides
                (fs (world s3)))
      as [(contents & f4 & Hcc & Htrace4 & Hfile)|(e & Hcc)];
      destruct (on_fs_runs _ s3 _ _ Hcc) as (s4 & Hrun4 & Hfs4 & Hledger4);
      unfold same_ledger in *.
    2: { unfold bind at 1. rewrite Hrun4. congruence. }
    rewrite (bind_Ok_step _ _ _ _ _ Hrun4).
    destruct (Hphase2 (Path.join [workspace cfg; "constitution.js"]) s4)
      as (s' & Hrun & Hledger & Hfs); [congruence|].
    rewrite Hrun. conj.
    + exact Hledger.
    + rewrite <- Hdisk1, <- Hdisk2. exact Hfree.
    + exists contents. rewrite Hfs, Hfs4. split; [|exact Hfile].
      rewrite Htrace4, Hfs3, Htrace3, <- app_assoc. simpl. congruence.
Qed.

(** A constitution that cannot be compiled stops provisioning between the
    disk and the ledger: the workspace has been made and stays behind,
    empty, and the ledger has not been asked anything about the domain. *)
Theorem buildDomainConfiguration_constitution_fails (cfg : DomainConfig)
  (d : describer) (s : State) (e : error) (f1 f2 : Fs.state) :
  dc_constitution cfg = ConstitutionObject d ->
  Fs.mkdirSync (workspace cfg) (fs (world s)) = (Ok tt, f1) ->
  createConstitution (workspace cfg) d no_overrides f1 = (Throw e, f2) ->
  exists s',
    buildDomainConfiguration cfg s = (Throw e, s')
    /\ ledger (world s') = ledger (world s)
    /\ fs (world s') = f1
    /\ Fs.trace f1
       = (Fs.trace (fs (world s))
          ++ [Fs.Mkdir (Path.components (workspace cfg))])%list
    /\ Fs.lookup (Path.components (workspace cfg)) (Fs.tree f1)
       = Some (Fs.Dir [])
    /\ same_processes s s'.
Proof.
  intros Hdescriber Hmk Hcompile.
  assert (Hf2 : f2 = f1).
  { destruct (createConstitution_runs (workspace cfg) d no_overrides f1)
      as [(contents & f' & Hrun & _)|(e' & Hrun)]; congruence. }
  subst f2.
  assert (Hmade : Fs.trace f1
                  = (Fs.trace (fs (world s))
                     ++ [Fs.Mkdir (Path.components (workspace cfg))])%list
                  /\ Fs.lookup (Path.components (workspace cfg)) (Fs.tree f1)
                     = Some (Fs.Dir [])).
  { destruct (mkdirSync_outcome (workspace cfg) (fs (world s)))
      as [(f' & Hrun & Htrace & _ & Hthere)|(e' & Hrun)];
      [|congruence].
    assert (f' = f1) by congruence. subst f'. auto. }
  pose proof (buildDomainConfiguration_keeps_processes cfg s) as Hframe.
  revert Hframe. unfold buildDomainConfiguration.
  destruct (console_info_runs
              ["[TIR] domain " ++ name cfg ++ " in workspace"; workspace cfg] s)
    as (s1 & Hrun1 & Hdisk1 & Hledger1).
  rewrite (bind_Ok_step _ _ _ _ _ Hrun1).
  destruct (console_info_runs
              ["[TIR] domain " ++ name cfg ++ " inbound"; inbound cfg] s1)
    as (s2 & Hrun2 & Hdisk2 & Hledger2).
  rewrite (bind_Ok_step _ _ _ _ _ Hrun2).
  unfold same_disk, same_ledger in *.
  rewrite <- Hdisk1, <- Hdisk2 in Hmk.
  destruct (on_fs_runs _ s2 _ _ Hmk) as (s3 & Hrun3 & Hfs3 & Hledger3).
  rewrite (bind_Ok_step _ _ _ _ _ Hrun3).
  rewrite Hdescriber. rewrite <- Hfs3 in Hcompile.
  destruct (on_fs_runs _ s3 _ _ Hcompile) as (s4 & Hrun4 & Hfs4 & Hledger4).
  unfold same_ledger in *.
  rewrite (bind_Throw_step _ _ _ _ _ Hrun4).
  cbn [snd]. intros Hframe.
  exists s4. destruct Hmade as [Htrace Hthere].
  conj; [reflexivity|congruence|congruence|exact Htrace|exact Hthere
        |exact Hframe].
Qed.

(** A swarm with a property left [undefined], as a test gets it from a
    misspelt variable. *)
Lemma buildDomainConfiguration_constitution_fails_witness :
  exists s',
    buildDomainConfiguration broken_local demo_nodes
    = (Throw undefined_has_no_toString, s')
    /\ ledger (world s') = ledger (world demo_nodes)
    /\ Fs.lookup ["tmp"; "psk_x7Gk2p"; "nodes"; "local"]
         (Fs.tree (fs (world s')))
       = Some (Fs.Dir []).
Proof.
  destruct (buildDomainConfiguration_constitution_fails broken_local
              [("echo", [("say", PUndefined)])] demo_nodes
              undefined_has_no_toString
              (snd (Fs.mkdirSync "/tmp/psk_x7Gk2p/nodes/local"
                      (fs (world demo_nodes))))
              (snd (Fs.mkdirSync "/tmp/psk_x7Gk2p/nodes/local"
                      (fs (world demo_nodes)))))
    as (s' & Hrun & Hledger & Hfs & _ & Hthere & _);
    [reflexivity|vm_compute; reflexivity|vm_compute; reflexivity|].
  exists s'. conj; [exact Hrun|exact Hledger|].
  rewrite Hfs. vm_compute. reflexivity.
Defined.



(** A workspace that is already there stops provisioning at once, with
    [EEXIST] and before the ledger is asked anything: two domains cannot
    share a workspace. *)
Theorem buildDomainConfiguration_workspace_taken (cfg : DomainConfig)
  (s : State) :
  Fs.lookup (Path.components (workspace cfg)) (Fs.tree (fs (world s)))
  <> None ->
  exists s',
    buildDomainConfiguration cfg s
    = (Throw (SystemError EEXIST "mkdir" (workspace cfg)), s')
    /\ ledger (world s') = ledger (world s)
    /\ fs (world s') = fs (world s)
    /\ same_processes s s'.
Proof.
  intros Htaken.
  assert (Hmk : Fs.mkdirSync (workspace cfg) (fs (world s))
                = (Throw (SystemError EEXIST "mkdir" (workspace cfg)),
                   fs (world s))).
  { unfold Fs.mkdirSync.
    destruct (Fs.unsnoc (Path.components (workspace cfg)))
      as [[parent x]|] eqn:Hsplit; [|reflexivity].
    apply unsnoc_Some in Hsplit. rewrite Hsplit, lookup_snoc in Htaken.
    destruct (Fs.lookup parent (Fs.tree (fs (world s)))) as [[c|es]|];
      try congruence.
    destruct (Fs.find x es); [reflexivity|congruence]. }
  pose proof (buildDomainConfiguration_keeps_processes cfg s) as Hframe.
  revert Hframe. unfold buildDomainConfiguration.
  destruct (console_info_runs
              ["[TIR] domain " ++ name cfg ++ " in workspace"; workspace cfg] s)
    as (s1 & Hrun1 & Hdisk1 & Hledger1).
  rewrite (bind_Ok_step _ _ _ _ _ Hrun1).
  destruct (console_info_runs
              ["[TIR] domain " ++ name cfg ++ " inbound"; inbound cfg] s1)
    as (s2 & Hrun2 & Hdisk2 & Hledger2).
  rewrite (bind_Ok_step _ _ _ _ _ Hrun2).
  unfold same_disk, same_ledger in *.
  rewrite <- Hdisk1, <- Hdisk2 in Hmk.
  destruct (on_fs_runs _ s2 _ _ Hmk) as (s3 & Hrun3 & Hfs3 & Hledger3).
  unfold same_ledger in *.
  rewrite (bind_Throw_step _ _ _ _ _ Hrun3). cbn [snd]. intros Hframe.
  exists s3. conj; [reflexivity|congruence|congruence|exact Hframe].
Qed.

Lemma buildDomainConfiguration_workspace_taken_witness :
  fst (buildDomainConfiguration demo_local
         (snd (buildDomainConfiguration demo_local demo_nodes)))
  = Throw (SystemError EEXIST "mkdir" "/tmp/psk_x7Gk2p/nodes/local").
Proof.
  destruct (buildDomainConfiguration_workspace_taken demo_local
              (snd (buildDomainConfiguration demo_local demo_nodes)))
    as (s' & Hrun & _); [vm_compute; discriminate|].
  rewrite Hrun. reflexivity.
Defined.

(** ** [launch], continued *)

Lemma keeps_on_failure_bind {A B} (R : State -> State -> Prop)
  (m : M State A) (k : A -> M State B) :
  preorder R -> keeps R m -> (forall a, keeps_on_failure R (k a)) ->
  keeps_on_failure R (bind m k).
Proof.
  intros [_ Htrans] Hm Hk s. unfold bind. specialize (Hm s).
  destruct (m s) as [[a|e|] s1]; simpl in *; auto.
  specialize (Hk a s1). destruct (fst (k a s1)); auto;
    eapply Htrans; eauto.
Qed.

Lemma keeps_on_failure_of_keeps {A} (R : State -> State -> Prop)
  (m : M State A) :
  keeps R m -> keeps_on_failure R m.
Proof. intros Hm s. destruct (fst (m s)); auto. Qed.

Lemma launch_args_keep (R : State -> State -> Prop)
  (tearDownAfter callable : jsval) :
  preorder R ->
  keeps R
    match callable with
    | VUndefined =>
        shift <- has_call tearDownAfter ;;
        if (shift : bool) then ret (VNull, tearDownAfter)
        else ret (tearDownAfter, callable)
    | _ => ret (tearDownAfter, callable)
    end.
Proof.
  intros [Hrefl _] s. destruct callable; destruct tearDownAfter; apply Hrefl.
Qed.

Lemma get_tir_keeps (R : State -> State -> Prop) :
  preorder R -> keeps R get_tir.
Proof. intros [Hrefl _] s. apply Hrefl. Qed.

(** A [launch] that does not return has started no process and has armed
    no timer, and the runner tracks what it tracked before (after the guard
    has refused, the process of the earlier launch), whatever stopped the
    call: the guard, the arguments, the disk. *)
Theorem launch_failure_starts_nothing (tearDownAfter callable : jsval)
  (s s' : State) (e : error) :
  launch tearDownAfter callable s = (Throw e, s') ->
  testerNode (tir s') = testerNode (tir s)
  /\ spawned (world s') = spawned (world s)
  /\ live (world s') = live (world s)
  /\ timers (world s') = timers (world s).
Proof.
  intros Hrun.
  assert (Hkeeps : keeps_on_failure same_processes
                     (launch tearDownAfter callable)).
  { unfold launch.
    apply keeps_on_failure_bind;
      [auto with keeps|apply launch_args_keep; auto with keeps|intros args].
    apply keeps_on_failure_bind;
      [auto with keeps|apply get_tir_keeps; auto with keeps|intros t].
    destruct (testerNode t).
    - apply keeps_on_failure_of_keeps, keeps_throw. auto with keeps.
    - repeat (apply keeps_on_failure_bind;
                [auto with keeps
                |first [ solve [auto with keeps]
                       | apply keeps_forEach; [auto with keeps|intros name];
                         destruct (get_config name (domainConfigs t))
                           as [[]|];
                         first [ apply buildDomainConfiguration_keeps_processes
                               | apply keeps_throw; auto with keeps ] ]
                |intros]).
      intros s0. destruct (fst _) eqn:Hfst; [exact I|discriminate|discriminate]. }
  specialize (Hkeeps s). rewrite Hrun in Hkeeps. cbn [fst snd] in Hkeeps.
  destruct Hkeeps as (Htir & Hlive & Hspawned & _ & Htimers & _).
  conj; congruence.
Qed.

Lemma launch_failure_starts_nothing_witness :
  fst (launch (VNumber 5000) (VFunction 1) case_variants)
  = Throw (SystemError EEXIST "mkdir" "/tmp/psk_x7Gk2p/nodes/ab")
  /\ spawned (world (snd (launch (VNumber 5000) (VFunction 1) case_variants)))
     = []
  /\ testerNode (tir (snd (launch (VNumber 5000) (VFunction 1) case_variants)))
     = None.
Proof.
  assert (Hrun : launch (VNumber 5000) (VFunction 1) case_variants
                 = (Throw (SystemError EEXIST "mkdir" "/tmp/psk_x7Gk2p/nodes/ab"),
                    snd (launch (VNumber 5000) (VFunction 1) case_variants)))
    by (vm_compute; reflexivity).
  destruct (launch_failure_starts_nothing _ _ _ _ _ Hrun)
    as (Hnode & Hspawned & _ & _).
  conj; [rewrite Hrun; reflexivity|exact Hspawned|exact Hnode].
Defined.

Lemma keeps_Ok {A} (R : State -> State -> Prop) (m : M State A)
  (s s' : State) (a : A) :
  keeps R m -> m s = (Ok a, s') -> R s s'.
Proof. intros Hm Hrun. specialize (Hm s). rewrite Hrun in Hm. exact Hm. Qed.

Lemma provision_all_keeps_processes (t : Tir) :
  keeps same_processes
    (forEach (Object_keys (domainConfigs t)) (fun name =>
       match get_config name (domainConfigs t) with
       | Some (Descriptor domainConfig) =>
           buildDomainConfiguration domainConfig
       | _ => throw (TypeError "Cannot read property 'name' of undefined")
       end)).
Proof.
  apply keeps_forEach; [auto with keeps|intros name].
  destruct (get_config name (domainConfigs t)) as [[]|];
    first [ apply buildDomainConfiguration_keeps_processes
          | apply keeps_throw; auto with keeps ].
Qed.

(** What a [launch] that returns has done to the runner, the processes
    and the timers. *)
Lemma launch_returns (tearDownAfter callable : jsval) (s s' : State) :
  launch tearDownAfter callable s = (Ok tt, s') ->
  readable_args tearDownAfter callable = true
  /\ testerNode (tir s) = None
  /\ testerNode (tir s') = Some (next_pid (world s))
  /\ domainConfigs (tir s') = domainConfigs (tir s)
  /\ rootFolder (tir s') = rootFolder (tir s)
  /\ live (world s') = (live (world s) ++ [next_pid (world s)])%list
  /\ spawned (world s')
     = (spawned (world s)
        ++ [(next_pid (world s),
             ["node"; "./../../../engine/launcher";
              Path.join [rootFolder (tir s); "conf"]; rootFolder (tir s)])])%list
  /\ timers (world s')
     = (timers (world s)
        ++ [(VNumber 10,
             LaunchReady (fst (shifted_args tearDownAfter callable))
                         (snd (shifted_args tearDownAfter callable)))])%list.
Proof.
  intros Hrun. unfold launch in Hrun.
  apply bind_Ok_inv in Hrun. destruct Hrun as (args & s0 & Hargs & Hrun).
  assert (Hshift : args = shifted_args tearDownAfter callable /\ s0 = s
                   /\ readable_args tearDownAfter callable = true).
  { destruct callable; destruct tearDownAfter; cbn in Hargs;
      inversion Hargs; auto. }
  destruct Hshift as (-> & -> & Hreadable).
  apply bind_Ok_inv in Hrun. destruct Hrun as (t & s0 & Ht & Hrun).
  inversion Ht; subst t s0; clear Ht.
  destruct (testerNode (tir s)) eqn:Hnode; [discriminate|].
  apply bind_Ok_inv in Hrun. destruct Hrun as (? & s1 & H1 & Hrun).
  apply bind_Ok_inv in Hrun. destruct Hrun as (? & s2 & H2 & Hrun).
  apply bind_Ok_inv in Hrun. destruct Hrun as (? & s3 & H3 & Hrun).
  apply bind_Ok_inv in Hrun. destruct Hrun as (? & s4 & H4 & Hrun).
  apply bind_Ok_inv in Hrun. destruct Hrun as (? & s5 & H5 & Hrun).
  apply bind_Ok_inv in Hrun. destruct Hrun as (? & s6 & H6 & Hrun).
  apply (keeps_Ok same_processes) in H1; [|auto with keeps].
  apply (keeps_Ok same_processes) in H2; [|auto with keeps].
  apply (keeps_Ok same_processes) in H3; [|auto with keeps].
  apply (keeps_Ok same_processes) in H4; [|auto with keeps].
  apply (keeps_Ok same_processes) in H5; [|auto with keeps].
  apply (keeps_Ok same_processes) in H6;
    [|apply provision_all_keeps_processes].
  assert (Hframe : same_processes s s6).
  { destruct same_processes_preorder as [_ Htrans].
    apply (Htrans s s1 s6 H1), (Htrans s1 s2 s6 H2), (Htrans s2 s3 s6 H3),
      (Htrans s3 s4 s6 H4), (Htrans s4 s5 s6 H5), H6. }
  clear H1 H2 H3 H4 H5 H6.
  destruct Hframe as (Htir & Hlive & Hspawned & Hpid & Htimers & _).
  unfold bind, spawn, with_tir, setTimeout, with_world in Hrun.
  inversion Hrun; subst s'; clear Hrun.
  cbn [tir world testerNode domainConfigs rootFolder live spawned timers
       set_world].
  rewrite Htir, Hlive, Hspawned, Hpid, Htimers.
  conj; try reflexivity. exact Hreadable.
Qed.



Lemma agents_part_not_global (cfg : DomainConfig) :
  filter (on_handler GlobalLedger) (agents_part cfg) = [].
Proof.
  unfold agents_part, agents_calls.
  destruct (agents cfg) as [[|a l]|]; try reflexivity.
  cbn [filter on_handler]. generalize (a :: l). intros l'.
  induction l' as [|b l' IH]; [reflexivity|exact IH].
Qed.

Lemma commits_provisioning_calls (cfg : DomainConfig)
  (rest : list ledger_call) :
  commits_from GlobalLedger None (provisioning_calls cfg ++ rest)
  = [("DomainReference", name cfg)] :: commits_from GlobalLedger None rest.
Proof.
  unfold provisioning_calls, domain_transaction.
  cbn [app commits_from handler_eqb option_map]. f_equal.
  apply commits_from_skip, agents_part_not_global.
Qed.

Lemma provision_all_ledger (m : registry) (keys : list string)
  (s s' : State) :
  forEach keys (fun name =>
    match get_config name m with
    | Some (Descriptor domainConfig) => buildDomainConfiguration domainConfig
    | _ => throw (TypeError "Cannot read property 'name' of undefined")
    end) s = (Ok tt, s') ->
  ledger (world s')
  = (ledger (world s)
     ++ flat_map provisioning_calls
          (flat_map (fun k => match get_config k m with
                              | Some (Descriptor cfg) => [cfg]
                              | _ => []
                              end) keys))%list.
Proof.
  revert s. induction keys as [|k keys IH]; intros s Hrun.
  - inversion Hrun. simpl. rewrite app_nil_r. reflexivity.
  - cbn [forEach] in Hrun. apply bind_Ok_inv in Hrun.
    destruct Hrun as ([] & s1 & Hk & Hrun). rewrite (IH s1 Hrun).
    cbn [flat_map]. destruct (get_config k m) as [[cfg| | | | |]|];
      try discriminate Hk.
    pose proof (buildDomainConfiguration_outcome cfg s) as Hout.
    rewrite Hk in Hout. destruct Hout as (Hledger & _).
    rewrite Hledger. cbn [app flat_map]. rewrite <- !app_assoc.
    reflexivity.
Qed.

(** A [launch] that returns has opened the ledger and then provisioned the
    registered domains one after the other in the order of their keys, each
    completely before the next: the global ledger holds one committed
    domain entity per descriptor, in that order. *)
Theorem launch_provisions_in_order (tearDownAfter callable : jsval)
  (s s' : State) :
  launch tearDownAfter callable s = (Ok tt, s') ->
  let configs := known_configs (domainConfigs (tir s)) in
  exists calls,
    ledger (world s') = (ledger (world s) ++ calls)%list
    /\ calls = StartDB (Path.join [rootFolder (tir s); "conf"])
               :: flat_map provisioning_calls configs
    /\ commits GlobalLedger calls
       = map (fun cfg => [("DomainReference", name cfg)]) configs
    /\ length configs = length (Object_keys (domainConfigs (tir s))).
Proof.
  intros Hrun configs. eexists. split; [|split; [reflexivity|split]].
  - unfold launch in Hrun.
    apply bind_Ok_inv in Hrun. destruct Hrun as (args & s0 & Hargs & Hrun).
    assert (Hs0 : s0 = s).
    { destruct callable; destruct tearDownAfter; cbn in Hargs;
        inversion Hargs; auto. }
    subst s0. clear Hargs.
    apply bind_Ok_inv in Hrun. destruct Hrun as (t & s0 & Ht & Hrun).
    inversion Ht; subst t s0; clear Ht.
    destruct (testerNode (tir s)); [discriminate|].
    apply bind_Ok_inv in Hrun. destruct Hrun as (? & s1 & H1 & Hrun).
    apply bind_Ok_inv in Hrun. destruct Hrun as (? & s2 & H2 & Hrun).
    apply bind_Ok_inv in Hrun. destruct Hrun as (? & s3 & H3 & Hrun).
    apply bind_Ok_inv in Hrun. destruct Hrun as (? & s4 & H4 & Hrun).
    apply bind_Ok_inv in Hrun. destruct Hrun as (? & s5 & H5 & Hrun).
    apply bind_Ok_inv in Hrun. destruct Hrun as (? & s6 & H6 & Hrun).
    apply console_info_inv in H1. apply console_info_inv in H2.
    apply ledger_do_inv in H3. apply on_fs_keeps_ledger in H4.
    apply console_info_inv in H5.
    match goal with x : unit |- _ => destruct x end.
    repeat match goal with x : unit |- _ => destruct x end.
    apply provision_all_ledger in H6.
    unfold bind, spawn, with_tir, setTimeout, with_world in Hrun.
    inversion Hrun; subst s'; clear Hrun. cbn [world ledger set_world].
    rewrite H6, H5, H4, H3, H2, H1, <- app_assoc. reflexivity.
  - unfold commits. cbn [commits_from]. subst configs.
    induction (known_configs (domainConfigs (tir s))) as [|cfg l IH];
      [reflexivity|].
    cbn [flat_map map]. rewrite commits_provisioning_calls, IH. reflexivity.
  - subst configs. unfold known_configs.
    assert (Hall : forall k, In k (Object_keys (domainConfigs (tir s))) ->
                             exists cfg,
                               get_config k (domainConfigs (tir s))
                               = Some (Descriptor cfg))
      by (intros k; apply Object_keys_registered).
    induction (Object_keys (domainConfigs (tir s))) as [|k keys IH];
      [reflexivity|].
    cbn [flat_map]. rewrite length_app, IH by (intros; apply Hall; right; auto).
    destruct (Hall k) as [cfg Hk]; [left; reflexivity|].
    rewrite Hk. reflexivity.
Qed.

Lemma launch_provisions_in_order_witness :
  exists calls,
    ledger (world demo_launched)
    = (ledger (world demo_configured) ++ calls)%list
    /\ commits GlobalLedger calls = [[("DomainReference", "local")]].
Proof.
  destruct (launch_provisions_in_order (VNumber 5000) (VFunction 1)
              demo_configured demo_launched)
    as (calls & Hledger & _ & Hcommits & _); [vm_compute; reflexivity|].
  exists calls. split; [exact Hledger|].
  rewrite Hcommits. vm_compute. reflexivity.
Defined.

(** ** [tearDown], continued *)

Lemma tearDown_untracked (exitStatus : option Z) (s : State) :
  testerNode (tir s) = None ->
  exists s',
    tearDown exitStatus s = (Ok tt, s')
    /\ tir s' = tir s
    /\ live (world s') = live (world s)
    /\ spawned (world s') = spawned (world s)
    /\ fs (world s') = fs (world s)
    /\ ledger (world s') = ledger (world s)
    /\ timers (world s')
       = (timers (world s) ++ [(VNumber 100, Cleanup exitStatus)])%list.
Proof.
  intros Hnode. unfold tearDown, bind, get_tir, console_info, with_world,
    setTimeout, ret.
  cbn [tir world testerNode]. rewrite Hnode. eexists. conj; reflexivity.
Qed.

Lemma tearDown_returns (exitStatus : option Z) (s s' : State) :
  tearDown exitStatus s = (Ok tt, s') ->
  testerNode (tir s') = None
  /\ timers (world s')
     = (timers (world s) ++ [(VNumber 100, Cleanup exitStatus)])%list
  /\ live (world s')
     = match testerNode (tir s) with
       | Some pid => filter (fun p => negb (Nat.eqb pid p)) (live (world s))
       | None => live (world s)
       end
  /\ match testerNode (tir s) with
     | Some pid => existsb (Nat.eqb pid) (live (world s)) = true
     | None => True
     end
  /\ spawned (world s') = spawned (world s)
  /\ fs (world s') = fs (world s)
  /\ ledger (world s') = ledger (world s).
Proof.
  unfold tearDown, bind, get_tir, console_info, with_world, with_tir,
    process_kill, setTimeout, ret.
  cbn [tir world testerNode live].
  destruct (testerNode (tir s)) as [pid|] eqn:Hnode;
    cbn [tir world testerNode live].
  - destruct (existsb (Nat.eqb pid) (live (world s))); [|discriminate].
    intros Heq. inversion Heq. cbn. conj; reflexivity.
  - intros Heq. inversion Heq. cbn. conj; try reflexivity. exact Hnode.
Qed.

(** [tearDown] may be called again: after a call that returned, any later
    call returns too, signals nobody and only queues one more removal.  This
    is what happens when the watchdog fires after the test has torn down
    itself. *)
Theorem tearDown_again (first second : option Z) (s s1 : State) :
  tearDown first s = (Ok tt, s1) ->
  exists s2,
    tearDown second s1 = (Ok tt, s2)
    /\ fire Watchdog s1 = tearDown (Some 1%Z) s1
    /\ testerNode (tir s2) = None
    /\ live (world s2) = live (world s1)
    /\ fs (world s2) = fs (world s)
    /\ timers (world s2)
       = (timers (world s)
          ++ [(VNumber 100, Cleanup first); (VNumber 100, Cleanup second)])%list.
Proof.
  intros Hfirst. apply tearDown_returns in Hfirst.
  destruct Hfirst as (Hnode & Htimers & _ & _ & _ & Hfs & _).
  destruct (tearDown_untracked second s1 Hnode)
    as (s2 & Hrun & Htir & Hlive & _ & Hfs2 & _ & Htimers2).
  exists s2. conj; try assumption.
  - reflexivity.
  - rewrite Htir. exact Hnode.
  - congruence.
  - rewrite Htimers2, Htimers, <- app_assoc. reflexivity.
Qed.

Lemma tearDown_again_witness :
  exists s2,
    tearDown (Some 1%Z) demo_torn_down = (Ok tt, s2)
    /\ live (world s2) = live (world demo_torn_down)
    /\ timers (world s2)
       = (timers (world demo_launched)
          ++ [(VNumber 100, Cleanup None);
              (VNumber 100, Cleanup (Some 1%Z))])%list.
Proof.
  destruct (tearDown_again None (Some 1%Z) demo_launched demo_torn_down)
    as (s2 & Hrun & _ & _ & Hlive & _ & Htimers); [vm_compute; reflexivity|].
  exists s2. conj; assumption.
Defined.

(** [tearDown] signals the tracked process and no other: when it returns,
    the processes still alive are those that were alive, less the tracked
    one, and no process has been started. *)
Theorem tearDown_signals_tracked_only (exitStatus : option Z) (s s' : State)
  (pid : nat) :
  testerNode (tir s) = Some pid ->
  tearDown exitStatus s = (Ok tt, s') ->
  In pid (live (world s))
  /\ (forall p, In p (live (world s')) <-> In p (live (world s)) /\ p <> pid)
  /\ spawned (world s') = spawned (world s).
Proof.
  intros Hnode Hrun. apply tearDown_returns in Hrun. rewrite Hnode in Hrun.
  destruct Hrun as (_ & _ & Hlive & Halive & Hspawned & _). conj.
  - apply existsb_exists in Halive. destruct Halive as (p & Hin & Hp).
    apply Nat.eqb_eq in Hp. subst p. exact Hin.
  - intros p. rewrite Hlive, filter_In, negb_true_iff, Nat.eqb_neq.
    split; intros [Hin Hne]; split; auto.
  - exact Hspawned.
Qed.

Lemma tearDown_signals_tracked_only_witness :
  In 1000 (live (world demo_launched))
  /\ (forall p, In p (live (world demo_torn_down))
                <-> In p (live (world demo_launched)) /\ p <> 1000).
Proof.
  destruct (tearDown_signals_tracked_only None demo_launched demo_torn_down
              1000) as (Hin & Hlive & _);
    [vm_compute; reflexivity|vm_compute; reflexivity|].
  split; [exact Hin|exact Hlive].
Defined.

(** ** The timer armed by [launch] *)

(** What [launch] arms, fired: a callback passed alone is called and that is
    all; with a delay in front of it, the watchdog is armed for that delay
    first and the callback is called then.  The watchdog is armed before the
    callback runs, so it is there even when there is nothing to call. *)
Theorem launch_ready_timer (tearDownAfter callable : jsval) (s s' : State) :
  launch tearDownAfter callable s = (Ok tt, s') ->
  let ready :=
    LaunchReady (fst (shifted_args tearDownAfter callable))
                (snd (shifted_args tearDownAfter callable)) in
  In (VNumber 10, ready) (timers (world s'))
  /\ forall s1,
       tir (snd (fire ready s1)) = tir s1
       /\ timers (world (snd (fire ready s1)))
          = match callable, tearDownAfter with
            | VUndefined, VFunction _ => timers (world s1)
            | _, VNull => timers (world s1)
            | _, _ => (timers (world s1) ++ [(tearDownAfter, Watchdog)])%list
            end
       /\ match snd (shifted_args tearDownAfter callable) with
          | VFunction id =>
              fst (fire ready s1) = Ok tt
              /\ called (world (snd (fire ready s1)))
                 = (called (world s1) ++ [id])%list
          | _ =>
              fst (fire ready s1)
              = Throw (TypeError "callable is not a function")
              /\ called (world (snd (fire ready s1))) = called (world s1)
          end.
Proof.
  intros Hrun ready.
  destruct (launch_returns _ _ _ _ Hrun)
    as (Hreadable & _ & _ & _ & _ & _ & _ & Htimers).
  split.
  - rewrite Htimers. apply in_or_app. right. left. reflexivity.
  - intros s1. subst ready.
    destruct callable; destruct tearDownAfter; try discriminate Hreadable;
      cbn; conj; reflexivity.
Qed.

Lemma launch_ready_timer_witness :
  In (VNumber 10, LaunchReady (VNumber 5000) (VFunction 1))
     (timers (world demo_launched))
  /\ timers (world (snd (fire (LaunchReady (VNumber 5000) (VFunction 1))
                           demo_launched)))
     = (timers (world demo_launched) ++ [(VNumber 5000, Watchdog)])%list
  /\ called (world (snd (fire (LaunchReady (VNumber 5000) (VFunction 1))
                           demo_launched)))
     = [1].
Proof.
  destruct (launch_ready_timer (VNumber 5000) (VFunction 1) demo_configured
              demo_launched) as (Harmed & Hfire); [vm_compute; reflexivity|].
  destruct (Hfire demo_launched) as (_ & Htimers & _ & Hcalled).
  conj; [exact Harmed|exact Htimers|exact Hcalled].
Defined.

(** ** [rmDeep], continued *)

(** [rmDeep] cannot remove a file given in place of a folder: [readdirSync]
    refuses it, and the file stays. *)
Theorem rmDeep_on_file (fuel : nat) (folder contents : string) (s : Fs.state) :
  Fs.lookup (Path.components folder) (Fs.tree s) = Some (Fs.File contents) ->
  rmDeep (S fuel) folder s = (Throw (SystemError ENOTDIR "scandir" folder), s).
Proof.
  intros Hfile. cbn [rmDeep]. unfold bind, Fs.existsSync, Fs.readdirSync.
  rewrite Hfile. cbv beta iota. rewrite Hfile. reflexivity.
Qed.

Lemma rmDeep_on_file_witness :
  rmDeep 3 "/tmp/psk_x7Gk2p/nodes/local/constitution.js"
    (fs (world demo_launched))
  = (Throw (SystemError ENOTDIR "scandir"
              "/tmp/psk_x7Gk2p/nodes/local/constitution.js"),
     fs (world demo_launched)).
Proof.
  destruct (Fs.lookup
              (Path.components "/tmp/psk_x7Gk2p/nodes/local/constitution.js")
              (Fs.tree (fs (world demo_launched)))) as [[contents|es]|] eqn:Hl;
    try (vm_compute in Hl; discriminate Hl).
  apply (rmDeep_on_file 2 _ contents). exact Hl.
Defined.

Lemma find_map_entry_other (x y : string) (g : Fs.node -> Fs.node)
  (es : Fs.entries) :
  y <> x -> Fs.find y (Fs.map_entry x g es) = Fs.find y es.
Proof.
  intros Hne. induction es as [|[z c] es IH]; [reflexivity|]. simpl.
  destruct (x =? z) eqn:Hxz; simpl.
  - apply String.eqb_eq in Hxz. subst z.
    apply String.eqb_neq in Hne. rewrite Hne. reflexivity.
  - destruct (y =? z); [reflexivity|exact IH].
Qed.

Lemma find_del_other (x y : string) (es : Fs.entries) :
  y <> x -> Fs.find y (Fs.del x es) = Fs.find y es.
Proof.
  intros Hne. induction es as [|[z c] es IH]; [reflexivity|]. simpl.
  destruct (x =? z) eqn:Hxz; simpl.
  - apply String.eqb_eq in Hxz. subst z.
    apply String.eqb_neq in Hne. rewrite Hne. reflexivity.
  - destruct (y =? z); [reflexivity|exact IH].
Qed.

(** Removing the entry [x] of [parent] changes nothing along a path that
    parts ways with it. *)
Lemma lookup_after_removal (parent : list string) (x : string)
  (q : list string) (n : Fs.node) :
  part_ways (parent ++ [x]) q ->
  Fs.lookup q (Fs.update_at parent (Fs.del x) n) = Fs.lookup q n.
Proof.
  intros (common & a & b & p' & q' & Hp & Hq & Hab). subst q.
  revert parent n Hp. induction common as [|c common IH]; intros parent n Hp.
  - destruct n as [contents|es]; [destruct parent; reflexivity|].
    destruct parent as [|y parent]; simpl in Hp; inversion Hp; subst; simpl.
    + rewrite find_del_other by congruence. reflexivity.
    + rewrite find_map_entry_other by congruence. reflexivity.
  - destruct n as [contents|es]; [destruct parent; reflexivity|].
    destruct parent as [|y parent]; simpl in Hp.
    + inversion Hp. destruct common; discriminate.
    + inversion Hp; subst. simpl. rewrite find_map_entry.
      destruct (Fs.find c es) as [child|]; [|reflexivity]. simpl.
      apply IH. assumption.
Qed.

(** [rmDeep] stays inside the folder it is given: once it has removed a
    directory, every path that parts ways with the folder's leads where it
    led before. *)
Theorem rmDeep_stays_inside (fuel : nat) (parent : list string) (x : string)
  (es : Fs.entries) (s : Fs.state) (q : list string) :
  forallb Path.plain (parent ++ [x]) = true ->
  Fs.lookup (parent ++ [x]) (Fs.tree s) = Some (Fs.Dir es) ->
  Fs.plain_names (Fs.Dir es) = true ->
  Fs.height (Fs.Dir es) <= fuel ->
  part_ways (parent ++ [x]) q ->
  fst (rmDeep fuel (Path.render (parent ++ [x])) s) = Ok tt
  /\ Fs.lookup q (Fs.tree (snd (rmDeep fuel (Path.render (parent ++ [x])) s)))
     = Fs.lookup q (Fs.tree s).
Proof.
  intros Hplain Hlookup Hnames Hheight Hparts. destruct s as [tree trace].
  rewrite (rmDeep_directory fuel es parent x tree trace Hheight Hnames Hplain
             Hlookup).
  split; [reflexivity|]. cbn [snd Fs.tree].
  apply lookup_after_removal. exact Hparts.
Qed.

Lemma rmDeep_stays_inside_witness :
  let disk :=
    Fs.mkState
      (Fs.Dir [("tmp", Fs.Dir [("psk_a", Fs.Dir [("nodes", Fs.Dir [])]);
                               ("psk_b", Fs.Dir [("keep", Fs.File "x")])])])
      [] in
  fst (rmDeep 2 "/tmp/psk_a" disk) = Ok tt
  /\ Fs.lookup ["tmp"; "psk_b"; "keep"]
       (Fs.tree (snd (rmDeep 2 "/tmp/psk_a" disk)))
     = Some (Fs.File "x").
Proof.
  intros disk.
  destruct (rmDeep_stays_inside 2 ["tmp"] "psk_a" [("nodes", Fs.Dir [])] disk
              ["tmp"; "psk_b"; "keep"]) as (Hrun & Hkept);
    try reflexivity.
  - exists ["tmp"], "psk_a", "psk_b", [], ["keep"]. conj; try reflexivity.
    discriminate.
  - split; [exact Hrun|]. etransitivity; [exact Hkept|reflexivity].
Defined.

(** ** The removal [tearDown] defers *)

Lemma find_height (x : string) (es : Fs.entries) (c : Fs.node) :
  Fs.find x es = Some c -> Fs.height c < Fs.height (Fs.Dir es).
Proof.
  induction es as [|[y d] es IH]; [discriminate|]. simpl in *.
  destruct (x =? y).
  - intros H. inversion H; subst. lia.
  - intros H. specialize (IH H). lia.
Qed.

Lemma lookup_height (p : list string) (n m : Fs.node) :
  Fs.lookup p n = Some m -> Fs.height m <= Fs.height n.
Proof.
  revert n. induction p as [|x p IH]; intros n Hlookup.
  - inversion Hlookup. lia.
  - destruct n as [contents|es]; [discriminate|]. simpl in Hlookup.
    destruct (Fs.find x es) as [c|] eqn:Hfind; [|discriminate].
    apply IH in Hlookup. apply find_height in Hfind. lia.
Qed.

Lemma try_catch_Ok {S A} (m : M S A) (h : error -> M S A) (s s' : S) (a : A) :
  m s = (Ok a, s') -> try_catch m h s = (Ok a, s').
Proof. intros Hm. unfold try_catch. rewrite Hm. reflexivity. Qed.

Lemma try_catch_Throw {S A} (m : M S A) (h : error -> M S A) (s s' : S)
  (e : error) :
  m s = (Throw e, s') -> try_catch m h s = h e s'.
Proof. intros Hm. unfold try_catch. rewrite Hm. reflexivity. Qed.

Lemma exit_step (exitStatus : option Z) (s : State) :
  exists s',
    match exitStatus with
    | Some status => process_exit status
    | None => ret tt
    end s = (Ok tt, s')
    /\ fs (world s') = fs (world s)
    /\ tir s' = tir s
    /\ live (world s') = live (world s)
    /\ exited (world s') = exit_after exitStatus (exited (world s)).
Proof.
  destruct exitStatus as [status|]; eexists; conj; reflexivity.
Qed.

(** The removal itself, on a disk [f]: what [rmDeep] returns is what the
    block between [try] and [catch] returns. *)
Lemma cleanup_block (s : State) (r : outcome unit) (f' : Fs.state) :
  rmDeep (budget (fs (world s))) (rootFolder (tir s)) (fs (world s)) = (r, f') ->
  exists s',
    try_catch
      (t <- get_tir ;;
       console_info ["[TIR] Removing temporary folder"; rootFolder t] ;;
       (fun s0 => on_fs (rmDeep (budget (fs (world s0))) (rootFolder t)) s0) ;;
       console_info ["[TIR] Temporary folder removed"; rootFolder t])
      (fun _ => ret tt) s
    = (match r with OutOfFuel => OutOfFuel | _ => Ok tt end, s')
    /\ fs (world s') = f'
    /\ tir s' = tir s
    /\ live (world s') = live (world s)
    /\ exited (world s') = exited (world s).
Proof.
  intros Hrm.
  destruct (console_info_runs
              ["[TIR] Removing temporary folder"; rootFolder (tir s)] s)
    as (s1 & Hrun1 & Hdisk1 & _).
  pose proof (keeps_Ok same_processes _ _ _ _
                (console_info_keeps_processes _) Hrun1)
    as (Htir1 & Hlive1 & _ & _ & _ & _ & Hexit1).
  unfold same_disk in Hdisk1. rewrite <- Hdisk1 in Hrm.
  destruct (on_fs_runs _ s1 _ _ Hrm) as (s2 & Hrun2 & Hfs2 & _).
  pose proof (on_fs_keeps_processes
                (rmDeep (budget (fs (world s1))) (rootFolder (tir s))) s1)
    as Hframe2.
  rewrite Hrun2 in Hframe2. cbn [snd] in Hframe2.
  destruct Hframe2 as (Htir2 & Hlive2 & _ & _ & _ & _ & Hexit2).
  assert (Hblock :
    (t <- get_tir ;;
     console_info ["[TIR] Removing temporary folder"; rootFolder t] ;;
     (fun s0 => on_fs (rmDeep (budget (fs (world s0))) (rootFolder t)) s0) ;;
     console_info ["[TIR] Temporary folder removed"; rootFolder t]) s
    = (x <- (fun s0 =>
               on_fs (rmDeep (budget (fs (world s0))) (rootFolder (tir s))) s0) ;;
       console_info ["[TIR] Temporary folder removed"; rootFolder (tir s)]) s1).
  { unfold bind at 1. unfold get_tir. cbv beta iota.
    rewrite (bind_Ok_step _ _ _ _ _ Hrun1). reflexivity. }
  destruct r as [[]|e|].
  - destruct (console_info_runs
                ["[TIR] Temporary folder removed"; rootFolder (tir s)] s2)
      as (s3 & Hrun3 & Hdisk3 & _).
    pose proof (keeps_Ok same_processes _ _ _ _
                  (console_info_keeps_processes _) Hrun3)
      as (Htir3 & Hlive3 & _ & _ & _ & _ & Hexit3).
    exists s3. split.
    + apply try_catch_Ok. rewrite Hblock.
      unfold bind at 1. cbv beta. rewrite Hrun2. exact Hrun3.
    + unfold same_disk in Hdisk3. conj; congruence.
  - exists s2. split.
    + rewrite (try_catch_Throw _ _ s s2 e); [reflexivity|].
      rewrite Hblock. unfold bind at 1. cbv beta. rewrite Hrun2. reflexivity.
    + conj; congruence.
  - exists s2. split.
    + unfold try_catch. rewrite Hblock. unfold bind at 1. cbv beta.
      rewrite Hrun2. reflexivity.
    + conj; congruence.
Qed.

(** When the timer of [tearDown] fires and the temporary folder is there,
    the folder is removed with all it holds, depth first, and the process
    then exits with the status [tearDown] was given, if it was given one. *)
Theorem cleanup_removes_root (exitStatus : option Z) (s : State)
  (parent : list string) (x : string) (es : Fs.entries) :
  rootFolder (tir s) = Path.render (parent ++ [x]) ->
  forallb Path.plain (parent ++ [x]) = true ->
  Fs.lookup (parent ++ [x]) (Fs.tree (fs (world s))) = Some (Fs.Dir es) ->
  Fs.plain_names (Fs.Dir es) = true ->
  exists s',
    fire (Cleanup exitStatus) s = (Ok tt, s')
    /\ Fs.tree (fs (world s'))
       = Fs.update_at parent (Fs.del x) (Fs.tree (fs (world s)))
    /\ Fs.trace (fs (world s'))
       = (Fs.trace (fs (world s))
          ++ Fs.postorder (parent ++ [x]) (Fs.Dir es))%list
    /\ exited (world s') = exit_after exitStatus (exited (world s))
    /\ tir s' = tir s.
Proof.
  intros Hroot Hplain Hlookup Hnames.
  assert (Hrm :
    rmDeep (budget (fs (world s))) (rootFolder (tir s)) (fs (world s))
    = (Ok tt,
       Fs.mkState (Fs.update_at parent (Fs.del x) (Fs.tree (fs (world s))))
                  (Fs.trace (fs (world s))
                   ++ Fs.postorder (parent ++ [x]) (Fs.Dir es)))).
  { rewrite Hroot. destruct (fs (world s)) as [tree trace] eqn:Hfs.
    apply rmDeep_directory; try assumption.
    unfold budget. cbn [Fs.tree] in *. apply lookup_height in Hlookup. lia. }
  destruct (cleanup_block s _ _ Hrm) as (s1 & Hblock & Hfs1 & Htir1 & _ & Hexit1).
  destruct (exit_step exitStatus s1) as (s' & Hexit & Hfs' & Htir' & _ & Hstatus).
  exists s'. unfold fire. rewrite (bind_Ok_step _ _ _ _ _ Hblock).
  conj.
  - exact Hexit.
  - rewrite Hfs', Hfs1. reflexivity.
  - rewrite Hfs', Hfs1. reflexivity.
  - congruence.
  - congruence.
Qed.

Lemma cleanup_removes_root_witness :
  exists s',
    fire (Cleanup (Some 0%Z)) demo_torn_down = (Ok tt, s')
    /\ Fs.tree (fs (world s')) = Fs.Dir [("tmp", Fs.Dir [])]
    /\ exited (world s') = Some 0%Z.
Proof.
  destruct (cleanup_removes_root (Some 0%Z) demo_torn_down ["tmp"] "psk_x7Gk2p"
              [("nodes", Fs.Dir demo_nodes_entries)])
    as (s' & Hrun & Htree & _ & Hexit & _); try (vm_compute; reflexivity).
  exists s'. conj; [exact Hrun|rewrite Htree; vm_compute; reflexivity
                   |exact Hexit].
Defined.

(** When the timer fires and the temporary folder is not a folder any
    more (already removed, or a file in its place), nothing is removed,
    nothing is thrown, and the exit status is applied all the same. *)
Theorem cleanup_without_root (exitStatus : option Z) (s : State) :
  (forall es,
     Fs.lookup (Path.components (rootFolder (tir s))) (Fs.tree (fs (world s)))
     <> Some (Fs.Dir es)) ->
  exists s',
    fire (Cleanup exitStatus) s = (Ok tt, s')
    /\ fs (world s') = fs (world s)
    /\ exited (world s') = exit_after exitStatus (exited (world s))
    /\ tir s' = tir s.
Proof.
  intros Hgone.
  assert (Hrm : exists r,
    rmDeep (budget (fs (world s))) (rootFolder (tir s)) (fs (world s))
    = (r, fs (world s)) /\ r <> OutOfFuel).
  { unfold budget. cbn [rmDeep]. unfold bind, Fs.existsSync, Fs.readdirSync.
    destruct (Fs.lookup (Path.components (rootFolder (tir s)))
                (Fs.tree (fs (world s)))) as [[contents|es]|] eqn:Hlookup.
    - cbv beta iota. rewrite Hlookup. eexists. split; [reflexivity|discriminate].
    - exfalso. apply (Hgone es). reflexivity.
    - eexists. split; [reflexivity|discriminate]. }
  destruct Hrm as (r & Hrm & Hfuel).
  destruct (cleanup_block s _ _ Hrm) as (s1 & Hblock & Hfs1 & Htir1 & _ & Hexit1).
  assert (Hblock' :
    try_catch
      (t <- get_tir ;;
       console_info ["[TIR] Removing temporary folder"; rootFolder t] ;;
       (fun s0 => on_fs (rmDeep (budget (fs (world s0))) (rootFolder t)) s0) ;;
       console_info ["[TIR] Temporary folder removed"; rootFolder t])
      (fun _ => ret tt) s = (Ok tt, s1)).
  { rewrite Hblock. destruct r; congruence. }
  destruct (exit_step exitStatus s1) as (s' & Hexit & Hfs' & Htir' & _ & Hstatus).
  exists s'. unfold fire. rewrite (bind_Ok_step _ _ _ _ _ Hblock').
  conj; [exact Hexit|congruence|congruence|congruence].
Qed.

Lemma cleanup_without_root_witness :
  let removed := snd (fire (Cleanup None) demo_torn_down) in
  exists s',
    fire (Cleanup (Some 1%Z)) removed = (Ok tt, s')
    /\ fs (world s') = fs (world removed)
    /\ exited (world s') = Some 1%Z.
Proof.
  intros removed.
  destruct (cleanup_without_root (Some 1%Z) removed)
    as (s' & Hrun & Hfs & Hexit & _).
  - intros es. vm_compute. discriminate.
  - exists s'. conj; [exact Hrun|exact Hfs|exact Hexit].
Defined.

(** ** [interact], continued *)

Lemma digits36_length (ds : list nat) :
  String.length (digits36 ds) = length ds.
Proof. induction ds as [|d ds IH]; simpl; congruence. Qed.

Lemma substring_0_min (n : nat) (s : string) :
  String.length (substring 0 n s) = Nat.min n (String.length s).
Proof.
  revert s. induction n as [|n IH]; intros [|c s]; simpl; try reflexivity.
  rewrite IH. reflexivity.
Qed.

Lemma substring_0_prefix (n : nat) (s : string) :
  exists rest, s = substring 0 n s ++ rest.
Proof.
  revert s. induction n as [|n IH]; intros [|c s]; simpl.
  - exists "". reflexivity.
  - exists (String c s). reflexivity.
  - exists "". reflexivity.
  - destruct (IH s) as [rest Hrest]. exists rest. congruence.
Qed.

(** The token is the beginning of the digits printed: the first nine, or
    all of them when there are fewer. *)
Theorem token_is_leading_digits (random : list nat) :
  String.length (token random) = Nat.min 9 (length random)
  /\ exists rest, digits36 random = token random ++ rest.
Proof.
  destruct random as [|d ds].
  - split; [reflexivity|exists ""; reflexivity].
  - rewrite token_digits. split.
    + rewrite substring_0_min, digits36_length. reflexivity.
    + apply substring_0_prefix.
Qed.

Lemma alnum_not_special (c : ascii) :
  is_alnum c = true -> Path.is_sep c = false /\ c <> "."%char.
Proof.
  destruct c as [[] [] [] [] [] [] [] []]; intros H; try discriminate H;
    split; try reflexivity; discriminate.
Qed.

Lemma alnum_no_sep (s : string) :
  JS.all_chars is_alnum s = true -> no_sep s = true.
Proof.
  unfold no_sep. induction s as [|c s IH]; [reflexivity|]. simpl.
  intros H. apply andb_true_iff in H. destruct H as [Hc Hs].
  apply alnum_not_special in Hc. destruct Hc as [Hsep _].
  rewrite Hsep, (IH Hs). reflexivity.
Qed.

(** A token that is not empty can name a directory entry. *)
Lemma token_plain (d : nat) (ds : list nat) :
  Forall (fun n => n < 36) (d :: ds) -> Path.plain (token (d :: ds)) = true.
Proof.
  intros Hdigits.
  assert (Halnum : JS.all_chars is_alnum (token (d :: ds)) = true).
  { rewrite token_digits. apply substring_0_all_chars, digits36_alnum, Hdigits. }
  pose proof (alnum_no_sep _ Halnum) as Hsep.
  rewrite token_digits in *. cbn [digits36 substring] in *.
  cbn [JS.all_chars] in Halnum. apply andb_true_iff in Halnum.
  destruct Halnum as [Hfirst _]. apply alnum_not_special in Hfirst.
  destruct Hfirst as [_ Hdot].
  unfold Path.plain. fold (no_sep (String (digit36 d) (substring 0 8 (digits36 ds)))).
  rewrite Hsep. cbn [String.eqb].
  destruct (Ascii.eqb_spec (digit36 d) "."); [congruence|]. reflexivity.
Qed.

(** What [interact] does for a registered domain: it returns the
    interaction space, and the disk is either as it was or has gained the
    outbound folder. *)
Lemma interact_registered (domain agent : string) (random : list nat)
  (s : State) (cfg : DomainConfig) :
  get_config domain (domainConfigs (tir s)) = Some (Descriptor cfg) ->
  exists s',
    interact domain agent random s
    = (Ok (mkInteractionSpace agent (inbound cfg)
             (Path.join [outbound cfg; token random])), s')
    /\ same_processes s s'
    /\ ledger (world s') = ledger (world s)
    /\ (fs (world s') = fs (world s)
        /\ (exists e, Fs.mkdirSync (outbound cfg) (fs (world s))
                      = (Throw e, fs (world s)))
        \/ Fs.mkdirSync (outbound cfg) (fs (world s)) = (Ok tt, fs (world s'))
           /\ Fs.trace (fs (world s'))
              = (Fs.trace (fs (world s))
                 ++ [Fs.Mkdir (Path.components (outbound cfg))])%list
           /\ Fs.lookup (Path.components (outbound cfg))
                (Fs.tree (fs (world s))) = None
           /\ Fs.lookup (Path.components (outbound cfg))
                (Fs.tree (fs (world s'))) = Some (Fs.Dir [])).
Proof.
  intros Hcfg. unfold interact. unfold bind at 1. unfold get_tir.
  cbv beta iota. rewrite Hcfg.
  destruct (mkdirSync_outcome (outbound cfg) (fs (world s)))
    as [(f' & Hmk & Htrace & Hfree & Hthere)|(e & Hmk)];
    destruct (on_fs_runs _ s _ _ Hmk) as (s1 & Hrun1 & Hfs1 & Hledger1);
    pose proof (on_fs_keeps_processes (Fs.mkdirSync (outbound cfg)) s)
      as Hframe1; rewrite Hrun1 in Hframe1; cbn [snd] in Hframe1.
  - rewrite (bind_Ok_step _ _ _ _ tt (try_catch_Ok _ _ _ _ _ Hrun1)).
    destruct (console_info_runs
                ["[TIR] Interacting with " ++ name cfg ++ "/" ++ agent ++ " on";
                 Path.join [outbound cfg; token random]] s1)
      as (s2 & Hrun2 & Hdisk2 & Hledger2).
    pose proof (keeps_Ok same_processes _ _ _ _
                  (console_info_keeps_processes _) Hrun2) as Hframe2.
    rewrite (bind_Ok_step _ _ _ _ _ Hrun2).
    unfold same_disk, same_ledger in *.
    exists s2. conj; [reflexivity| |congruence|].
    + destruct same_processes_preorder as [_ Htrans]. eapply Htrans; eauto.
    + right. rewrite Hdisk2, Hfs1. auto.
  - assert (Hcaught :
      try_catch (on_fs (Fs.mkdirSync (outbound cfg))) (fun _ => ret tt) s
      = (Ok tt, s1)).
    { rewrite (try_catch_Throw _ _ _ _ _ Hrun1). reflexivity. }
    rewrite (bind_Ok_step _ _ _ _ tt Hcaught).
    destruct (console_info_runs
                ["[TIR] Interacting with " ++ name cfg ++ "/" ++ agent ++ " on";
                 Path.join [outbound cfg; token random]] s1)
      as (s2 & Hrun2 & Hdisk2 & Hledger2).
    pose proof (keeps_Ok same_processes _ _ _ _
                  (console_info_keeps_processes _) Hrun2) as Hframe2.
    rewrite (bind_Ok_step _ _ _ _ _ Hrun2).
    unfold same_disk, same_ledger in *.
    exists s2. conj; [reflexivity| |congruence|].
    + destruct same_processes_preorder as [_ Htrans]. eapply Htrans; eauto.
    + left. split; [congruence|eauto].
Qed.

(** The return channel of an interaction is the entry of the domain's
    outbound folder named by the token.  When the random source yields zero
    there is no token, and the return channel is the outbound folder
    itself. *)
Theorem interact_return_channel (domain agent : string) (random : list nat)
  (s : State) (cfg : DomainConfig) (out : list string) :
  get_config domain (domainConfigs (tir s)) = Some (Descriptor cfg) ->
  outbound cfg = Path.render out ->
  out <> [] ->
  forallb Path.plain out = true ->
  Forall (fun d => d < 36) random ->
  exists h s',
    interact domain agent random s = (Ok h, s')
    /\ is_agent h = agent
    /\ is_inbound h = inbound cfg
    /\ is_returnChannel h
       = match random with
         | [] => outbound cfg
         | _ => Path.render (out ++ [token random])
         end.
Proof.
  intros Hcfg Hout Hne Hplain Hdigits.
  destruct (interact_registered domain agent random s cfg Hcfg)
    as (s' & Hrun & _).
  eexists. exists s'. split; [exact Hrun|]. cbn [is_agent is_inbound
    is_returnChannel]. conj; try reflexivity.
  rewrite Hout. destruct random as [|d ds].
  - change (token []) with "". unfold Path.join. cbn [filter String.eqb negb].
    change (negb (Path.render out =? "")) with true. cbv iota.
    cbn [JS.join String.concat]. apply normalize_render; assumption.
  - apply join_render; try assumption. cbn [forallb].
    rewrite token_plain by exact Hdigits. reflexivity.
Qed.

Lemma interact_return_channel_witness :
  fst (interact "local" "a0" [15; 3; 35] demo_launched)
  = Ok (mkInteractionSpace "a0" "/tmp/psk_x7Gk2p/nodes/local/inbound"
          "/tmp/psk_x7Gk2p/nodes/local/outbound/f3z")
  /\ fst (interact "local" "a0" [] demo_launched)
     = Ok (mkInteractionSpace "a0" "/tmp/psk_x7Gk2p/nodes/local/inbound"
             "/tmp/psk_x7Gk2p/nodes/local/outbound").
Proof.
  destruct (interact_return_channel "local" "a0" [15; 3; 35] demo_launched
              demo_local ["tmp"; "psk_x7Gk2p"; "nodes"; "local"; "outbound"])
    as (h & s' & Hrun & Hagent & Hinbound & Hchannel);
    [vm_compute; reflexivity|reflexivity|discriminate|reflexivity
    |repeat (apply Forall_cons; [lia|]); apply Forall_nil|].
  destruct (interact_return_channel "local" "a0" [] demo_launched
              demo_local ["tmp"; "psk_x7Gk2p"; "nodes"; "local"; "outbound"])
    as (h0 & s0 & Hrun0 & Hagent0 & Hinbound0 & Hchannel0);
    [vm_compute; reflexivity|reflexivity|discriminate|reflexivity
    |apply Forall_nil|].
  rewrite Hrun, Hrun0. cbn [fst]. destruct h, h0.
  cbn [is_agent is_inbound is_returnChannel] in *. subst. split; reflexivity.
Defined.

(** [interact] does one thing to the disk at most: it makes the outbound
    folder of the domain when that folder can be made.  The runner, the
    ledger, the processes and the timers are left alone, and a second
    interaction with the domain finds the disk as the first left it. *)
Theorem interact_makes_outbound_once (domain agent agent' : string)
  (random random' : list nat) (s : State) (cfg : DomainConfig) :
  get_config domain (domainConfigs (tir s)) = Some (Descriptor cfg) ->
  exists h s1 h' s2,
    interact domain agent random s = (Ok h, s1)
    /\ interact domain agent' random' s1 = (Ok h', s2)
    /\ same_processes s s1
    /\ ledger (world s1) = ledger (world s)
    /\ (fs (world s1) = fs (world s)
        \/ Fs.trace (fs (world s1))
           = (Fs.trace (fs (world s))
              ++ [Fs.Mkdir (Path.components (outbound cfg))])%list
           /\ Fs.lookup (Path.components (outbound cfg))
                (Fs.tree (fs (world s1))) = Some (Fs.Dir []))
    /\ fs (world s2) = fs (world s1).
Proof.
  intros Hcfg.
  destruct (interact_registered domain agent random s cfg Hcfg)
    as (s1 & Hrun1 & Hframe1 & Hledger1 & Hdisk1).
  assert (Hcfg1 : get_config domain (domainConfigs (tir s1))
                  = Some (Descriptor cfg)).
  { destruct Hframe1 as (Htir & _). rewrite Htir. exact Hcfg. }
  destruct (interact_registered domain agent' random' s1 cfg Hcfg1)
    as (s2 & Hrun2 & _ & _ & Hdisk2).
  eexists. exists s1. eexists. exists s2.
  conj; [exact Hrun1|exact Hrun2|exact Hframe1|exact Hledger1| |].
  - destruct Hdisk1 as [[Hsame _]|(_ & Htrace & _ & Hthere)]; auto.
  - destruct Hdisk2 as [[Hsame _]|(Hmk2 & _ & Hfree2 & _)]; [exact Hsame|].
    exfalso.
    destruct Hdisk1 as [[Hsame (e & Hmk1)]|(_ & _ & _ & Hthere)].
    + rewrite Hsame in Hmk2. rewrite Hmk1 in Hmk2. discriminate.
    + rewrite Hthere in Hfree2. discriminate.
Qed.

Lemma interact_makes_outbound_once_witness :
  exists h s1 h' s2,
    interact "local" "a0" [15; 3; 35] demo_launched = (Ok h, s1)
    /\ interact "local" "a1" [7] s1 = (Ok h', s2)
    /\ Fs.lookup ["tmp"; "psk_x7Gk2p"; "nodes"; "local"; "outbound"]
         (Fs.tree (fs (world s1))) = Some (Fs.Dir [])
    /\ fs (world s2) = fs (world s1).
Proof.
  destruct (interact_makes_outbound_once "local" "a0" "a1" [15; 3; 35] [7]
              demo_launched demo_local)
    as (h & s1 & h' & s2 & Hrun1 & Hrun2 & _ & _ & Hdisk & Hsame);
    [vm_compute; reflexivity|].
  exists h, s1, h', s2. conj; [exact Hrun1|exact Hrun2| |exact Hsame].
  destruct Hdisk as [Hunchanged|[_ Hthere]]; [|exact Hthere].
  exfalso.
  assert (Hfs : fs (world s1)
                = fs (world (snd (interact "local" "a0" [15; 3; 35]
                                    demo_launched))))
    by (rewrite Hrun1; reflexivity).
  rewrite Hfs in Hunchanged.
  apply (f_equal (fun f => length (Fs.trace f))) in Hunchanged.
  vm_compute in Hunchanged. discriminate Hunchanged.
Defined.

(** ** The layout [addDomain] derives *)

(** On a root folder that is an absolute path of plain components, a
    domain whose key is a plain component gets the workspace
    [<root>/nodes/<key>] and, directly inside it, [conf], [inbound] and
    [outbound]. *)
Theorem addDomain_layout (domain : string) (agents : option (list string))
  (c : constitution) (s : State) (root : list string) :
  rootFolder (tir s) = Path.render root ->
  root <> [] ->
  forallb Path.plain root = true ->
  Path.plain (createKey domain) = true ->
  exists cfg,
    get_config domain (domainConfigs (tir (snd (addDomain domain agents c s))))
    = Some (Descriptor cfg)
    /\ workspace cfg = Path.render (root ++ ["nodes"; createKey domain])
    /\ conf cfg = Path.render (root ++ ["nodes"; createKey domain; "conf"])
    /\ inbound cfg
       = Path.render (root ++ ["nodes"; createKey domain; "inbound"])
    /\ outbound cfg
       = Path.render (root ++ ["nodes"; createKey domain; "outbound"])
    /\ Path.components (workspace cfg)
       = (root ++ ["nodes"; createKey domain])%list.
Proof.
  intros Hroot Hne Hplain Hkey.
  assert (Hws : Path.join [rootFolder (tir s); "nodes"; createKey domain]
                = Path.render (root ++ ["nodes"; createKey domain])).
  { rewrite Hroot. apply join_render; try assumption.
    cbn [forallb]. rewrite Hkey. reflexivity. }
  assert (Hwsplain : forallb Path.plain (root ++ ["nodes"; createKey domain])
                     = true).
  { rewrite forallb_app, Hplain. cbn [forallb]. rewrite Hkey. reflexivity. }
  assert (Hchild : forall child,
            Path.plain child = true ->
            Path.join [Path.render (root ++ ["nodes"; createKey domain]); child]
            = Path.render (root ++ ["nodes"; createKey domain; child])).
  { intros child Hchild. rewrite join_render.
    - rewrite <- app_assoc. reflexivity.
    - destruct root; discriminate.
    - exact Hwsplain.
    - cbn [forallb]. rewrite Hchild. reflexivity. }
  eexists. split.
  - unfold addDomain, with_tir. cbn [snd tir domainConfigs].
    apply get_config_set_config.
  - cbn [workspace conf inbound outbound]. rewrite Hws.
    rewrite !Hchild by reflexivity. conj; try reflexivity.
    apply components_render. exact Hwsplain.
Qed.

Lemma addDomain_layout_witness :
  exists cfg,
    get_config "my Domain" (domainConfigs
      (tir (snd (addDomain "my Domain" None (ConstitutionPath "c.js")
                   (new_Tir "x7Gk2p")))))
    = Some (Descriptor cfg)
    /\ workspace cfg = "/tmp/psk_x7Gk2p/nodes/myDomain"
    /\ outbound cfg = "/tmp/psk_x7Gk2p/nodes/myDomain/outbound".
Proof.
  destruct (addDomain_layout "my Domain" None (ConstitutionPath "c.js")
              (new_Tir "x7Gk2p") ["tmp"; "psk_x7Gk2p"])
    as (cfg & Hcfg & Hws & _ & _ & Hout & _);
    [reflexivity|discriminate|reflexivity|reflexivity|].
  exists cfg. conj; [exact Hcfg|exact Hws|exact Hout].
Defined.

Lemma filter_string_none (p : ascii -> bool) (s : string) :
  JS.all_chars (fun c => negb (p c)) s = true -> JS.filter_string p s = "".
Proof.
  induction s as [|c s IH]; [reflexivity|]. simpl. intros H.
  apply andb_true_iff in H. destruct H as [Hc Hs].
  apply negb_true_iff in Hc. rewrite Hc. apply IH, Hs.
Qed.

Lemma join_trailing_empty (parts : list string) :
  Path.join (parts ++ [""]) = Path.join parts.
Proof.
  unfold Path.join. rewrite filter_app. cbn [filter String.eqb negb].
  rewrite app_nil_r. reflexivity.
Qed.

(** A name that is empty or made of spaces has the empty key, and its
    workspace is the [nodes] folder itself, which [launch] has made by the
    time the domain is provisioned. *)
Theorem addDomain_blank_name (domain : string)
  (agents : option (list string)) (c : constitution) (s : State) :
  JS.all_chars (fun ch => Ascii.eqb ch " ") domain = true ->
  createKey domain = ""
  /\ exists cfg,
       get_config domain
         (domainConfigs (tir (snd (addDomain domain agents c s))))
       = Some (Descriptor cfg)
       /\ workspace cfg = Path.join [rootFolder (tir s); "nodes"].
Proof.
  intros Hblank.
  assert (Hkey : createKey domain = "").
  { pose proof (createKey_lower domain) as Hlow.
    rewrite filter_string_none in Hlow.
    - destruct (createKey domain); [reflexivity|discriminate Hlow].
    - clear Hlow. induction domain as [|ch d IH]; [reflexivity|].
      simpl in *. apply andb_true_iff in Hblank. destruct Hblank as [Hch Hd].
      rewrite Hch. simpl. apply IH, Hd. }
  split; [exact Hkey|]. eexists. split.
  - unfold addDomain, with_tir. cbn [snd tir domainConfigs].
    apply get_config_set_config.
  - cbn [workspace]. rewrite Hkey.
    apply (join_trailing_empty [rootFolder (tir s); "nodes"]).
Qed.

Lemma addDomain_blank_name_witness :
  createKey "  " = ""
  /\ exists cfg,
       get_config "  " (domainConfigs
         (tir (snd (addDomain "  " None (ConstitutionPath "c.js")
                      (new_Tir "x7Gk2p")))))
       = Some (Descriptor cfg)
       /\ workspace cfg = "/tmp/psk_x7Gk2p/nodes".
Proof.
  destruct (addDomain_blank_name "  " None (ConstitutionPath "c.js")
              (new_Tir "x7Gk2p") eq_refl) as (Hkey & cfg & Hcfg & Hws).
  split; [exact Hkey|]. exists cfg. split; [exact Hcfg|exact Hws].
Defined.

(** ** [launch] on a root it cannot use *)



(** ** The registry of domains *)

Lemma replace_own_keys (m : list (string * DomainConfig)) (k : string)
  (v : DomainConfig) :
  map fst (replace_own k v m) = map fst m.
Proof.
  induction m as [|[k' v'] m IH]; [reflexivity|]. simpl.
  destruct (k =? k'); simpl; congruence.
Qed.

(** A new key is put before the first key it is listed before, after all
    those it is not. *)
Lemma add_own_keys (m : list (string * DomainConfig)) (k : string)
  (v : DomainConfig) :
  exists before after,
    map fst m = (before ++ after)%list
    /\ map fst (add_own k v m) = (before ++ k :: after)%list
    /\ Forall (fun k' => listed_before k k' = false) before
    /\ match after with
       | [] => True
       | k' :: _ => listed_before k k' = true
       end.
Proof.
  induction m as [|[k' v'] m IH]; simpl.
  - exists [], []. repeat split; constructor.
  - destruct (listed_before k k') eqn:Hk.
    + exists [], (k' :: map fst m). repeat split; [constructor|exact Hk].
    + destruct IH as (before & after & Hm & Hadd & Hbefore & Hafter).
      exists (k' :: before), after. simpl. rewrite Hm, Hadd.
      repeat split; [constructor; assumption|exact Hafter].
Qed.

Lemma listed_before_order (k k' : string) :
  listed_before k k' = true -> key_order k k'.
Proof.
  unfold listed_before, key_order.
  destruct (array_index k), (array_index k'); try discriminate; auto.
  intros H. apply N.ltb_lt in H. lia.
Qed.

Lemma not_listed_before_order (k k' : string) :
  listed_before k k' = false -> key_order k' k.
Proof.
  unfold listed_before, key_order.
  destruct (array_index k), (array_index k'); try discriminate; auto.
  intros H. apply N.ltb_ge in H. exact H.
Qed.

Lemma add_own_sorted (m : list (string * DomainConfig)) (k : string)
  (v : DomainConfig) :
  Sorted key_order (map fst m) -> Sorted key_order (map fst (add_own k v m)).
Proof.
  induction m as [|[k' v'] m IH]; simpl; intros Hm.
  - repeat constructor.
  - destruct (listed_before k k') eqn:Hk; simpl.
    + constructor; [exact Hm|]. constructor. apply listed_before_order, Hk.
    + inversion Hm as [ | ? ? Hsorted Hhd ]; subst.
      constructor; [apply IH, Hsorted|].
      destruct m as [|[k'' v''] m]; simpl.
      * constructor. apply not_listed_before_order, Hk.
      * destruct (listed_before k k''); simpl.
        -- constructor. apply not_listed_before_order, Hk.
        -- inversion Hhd; subst. constructor. assumption.
Qed.

Lemma set_config_keys (r : registry) (k : string) (v : DomainConfig) :
  (In k (Object_keys r) \/ k = "__proto__" ->
   Object_keys (set_config k v r) = Object_keys r)
  /\ (~ In k (Object_keys r) -> k <> "__proto__" ->
      Object_keys (set_config k v r) = map fst (add_own k v (own r))).
Proof.
  unfold Object_keys, set_config.
  destruct (own_property k (own r)) as [c|] eqn:Hown; cbn [own].
  - split; [intros _; apply replace_own_keys|].
    intros Hnew. exfalso. apply Hnew, own_property_keys. congruence.
  - split.
    + intros [Hin | ->]; [|reflexivity].
      apply own_property_keys in Hin. congruence.
    + intros _ Hk. apply String.eqb_neq in Hk. rewrite Hk. reflexivity.
Qed.

Lemma set_config_keeps_order (r : registry) (k : string) (v : DomainConfig) :
  (NoDup (Object_keys r) -> NoDup (Object_keys (set_config k v r)))
  /\ (Sorted key_order (Object_keys r) ->
      Sorted key_order (Object_keys (set_config k v r))).
Proof.
  destruct (set_config_keys r k v) as [Hsame Hnew].
  destruct (add_own_keys (own r) k v)
    as (before & after & Hkeys & Hadd & _).
  destruct (in_dec string_dec k (Object_keys r)) as [Hin|Hin];
    [rewrite Hsame by auto; auto|].
  destruct (string_dec k "__proto__") as [Hk|Hk];
    [rewrite Hsame by auto; auto|].
  rewrite (Hnew Hin Hk). split.
  - intros Hnodup. rewrite Hadd. unfold Object_keys in *.
    rewrite Hkeys in Hnodup, Hin.
    apply NoDup_Add with (a := k) (l := (before ++ after)%list);
      [apply Add_app|auto].
  - apply add_own_sorted.
Qed.

(** What [addDomain] does to the keys [Object.keys] lists, and so to the
    order in which [launch] provisions: a name already listed keeps its
    place, [__proto__] is never listed, and a new name goes after the names
    there are unless it is an array index, which goes among the array
    indices in ascending order, before every other name. *)
Theorem addDomain_keys (domain : string) (agents : option (list string))
  (c : constitution) (s : State) :
  let keys := Object_keys (domainConfigs (tir s)) in
  let keys' :=
    Object_keys (domainConfigs (tir (snd (addDomain domain agents c s)))) in
  (In domain keys \/ domain = "__proto__" -> keys' = keys)
  /\ (~ In domain keys -> domain <> "__proto__" ->
      exists before after,
        keys = (before ++ after)%list
        /\ keys' = (before ++ domain :: after)%list
        /\ Forall (fun k => listed_before domain k = false) before
        /\ match after with
           | [] => True
           | k :: _ => listed_before domain k = true
           end
        /\ (array_index domain = None -> after = []))
  /\ (NoDup keys -> NoDup keys')
  /\ (Sorted key_order keys -> Sorted key_order keys').
Proof.
  intros keys keys'. subst keys keys'. unfold addDomain, with_tir.
  cbn [snd tir domainConfigs].
  match goal with
  | |- context [set_config domain ?v _] =>
      destruct (set_config_keys (domainConfigs (tir s)) domain v)
        as [Hsame Hnew];
      destruct (add_own_keys (own (domainConfigs (tir s))) domain v)
        as (before & after & Hkeys & Hadd & Hbefore & Hafter)
  end.
  conj.
  - exact Hsame.
  - intros Hin Hk. exists before, after. rewrite (Hnew Hin Hk).
    conj; [exact Hkeys|exact Hadd|exact Hbefore|exact Hafter|].
    intros Hname. destruct after as [|k after]; [reflexivity|].
    unfold listed_before in Hafter. rewrite Hname in Hafter.
    discriminate Hafter.
  - apply set_config_keeps_order.
  - apply set_config_keeps_order.
Qed.
Lemma set_config_membership (r : registry) (k : string) (v : DomainConfig)
  (x : string) :
  In x (Object_keys (set_config k v r))
  <-> In x (Object_keys r) \/ (x = k /\ k <> "__proto__").
Proof.
  destruct (set_config_keys r k v) as [Hsame Hnew].
  destruct (in_dec string_dec k (Object_keys r)) as [Hin|Hin].
  { rewrite Hsame by auto. split; [auto|]. intros [H|[-> _] ]; assumption. }
  destruct (string_dec k "__proto__") as [Hk|Hk].
  { rewrite Hsame by auto. split; [auto|]. intros [H|[_ H]]; [assumption|].
    contradiction. }
  rewrite (Hnew Hin Hk).
  destruct (add_own_keys (own r) k v) as (before & after & Hkeys & Hadd & _).
  unfold Object_keys. rewrite Hadd, Hkeys, !in_app_iff. simpl.
  split.
  - intros [H|[H|H]]; auto.
  - intros [[H|H]|[H _]]; auto.
Qed.

Lemma set_config_proto (r : registry) (k : string) (v : DomainConfig) :
  ~ In "__proto__" (Object_keys r) ->
  proto (set_config k v r) <> None <-> proto r <> None \/ k = "__proto__".
Proof.
  intros Hnot. unfold set_config.
  destruct (own_property k (own r)) as [c|] eqn:Hown; cbn [proto].
  - split; [auto|]. intros [H | ->]; [exact H|].
    exfalso. apply Hnot, own_property_keys. congruence.
  - destruct (String.eqb_spec k "__proto__") as [->|Hk]; cbn [proto].
    + split; [auto|discriminate].
    + split; [auto|]. intros [H|H]; [exact H|contradiction].
Qed.

Lemma configure_registry
  (calls : list (string * option (list string) * constitution)) (s : State) :
  let r := domainConfigs (tir s) in
  let r' := domainConfigs (tir (configure calls s)) in
  ~ In "__proto__" (Object_keys r) ->
  (NoDup (Object_keys r) -> NoDup (Object_keys r'))
  /\ (Sorted key_order (Object_keys r) -> Sorted key_order (Object_keys r'))
  /\ (forall d, In d (Object_keys r')
                <-> In d (Object_keys r)
                    \/ (In d (added calls) /\ d <> "__proto__"))
  /\ (proto r' <> None <-> proto r <> None \/ In "__proto__" (added calls)).
Proof.
  revert s. induction calls as [|[[d a] c] calls IH]; intros s r r' Hnot;
    subst r r'.
  - cbn [configure fold_left added map]. conj; auto.
    + intros x. split; [auto|]. intros [H|[[] _]]. exact H.
    + split; [auto|]. intros [H|[]]. exact H.
  - cbn [configure fold_left added map fst snd].
    set (s1 := snd (addDomain d a c s)).
    assert (Hstep : (NoDup (Object_keys (domainConfigs (tir s))) ->
                     NoDup (Object_keys (domainConfigs (tir s1))))
                    /\ (Sorted key_order (Object_keys (domainConfigs (tir s)))
                        -> Sorted key_order
                             (Object_keys (domainConfigs (tir s1)))))
      by apply set_config_keeps_order.
    destruct Hstep as [Hnodup Hsorted].
    assert (Hmem : forall x, In x (Object_keys (domainConfigs (tir s1)))
                             <-> In x (Object_keys (domainConfigs (tir s)))
                                 \/ (x = d /\ d <> "__proto__"))
      by (intros x; apply set_config_membership).
    assert (Hproto : proto (domainConfigs (tir s1)) <> None
                     <-> proto (domainConfigs (tir s)) <> None
                         \/ d = "__proto__")
      by (apply set_config_proto; exact Hnot).
    assert (Hnot1 : ~ In "__proto__" (Object_keys (domainConfigs (tir s1)))).
    { intros H. apply Hmem in H. destruct H as [H|[H1 H2]]; auto. }
    destruct (IH s1 Hnot1) as (IHnodup & IHsorted & IHmem & IHproto).
    fold (configure calls s1). conj.
    + auto.
    + auto.
    + intros x. rewrite IHmem, Hmem. cbn [In]. split.
      * intros [[H|[-> H] ]|[H1 H2] ]; auto.
      * intros [H|[[<-|H1] H2]]; auto.
    + rewrite IHproto, Hproto. cbn [In]. split.
      * intros [[H|H]|H]; auto.
      * intros [H|[H|H]]; auto.
Qed.

(** In whatever order and however often [addDomain] was called on a fresh
    runner, the names registered are the names it was called with;
    [Object.keys] lists each of them once, the array indices first and in
    ascending order, except [__proto__], which is registered as the
    prototype and never listed, so that [launch] does not provision it. *)
Theorem configured_keys (suffix : string)
  (calls : list (string * option (list string) * constitution)) :
  let r := domainConfigs (tir (configure calls (new_Tir suffix))) in
  NoDup (Object_keys r)
  /\ Sorted key_order (Object_keys r)
  /\ (forall d, registered d r <-> In d (added calls))
  /\ (forall d, In d (Object_keys r)
                <-> In d (added calls) /\ d <> "__proto__").
Proof.
  intros r. subst r.
  destruct (configure_registry calls (new_Tir suffix))
    as (Hnodup & Hsorted & Hmem & Hproto); [intros []|].
  cbn [new_Tir tir domainConfigs Object_keys own proto map] in *.
  assert (Hkeys : forall d,
            In d (Object_keys
                    (domainConfigs (tir (configure calls (new_Tir suffix)))))
            <-> In d (added calls) /\ d <> "__proto__").
  { intros d. rewrite Hmem. split; [intros [[]|H]; exact H|auto]. }
  conj.
  - apply Hnodup. constructor.
  - apply Hsorted. constructor.
  - intros d. unfold registered. rewrite Hkeys, Hproto. split.
    + intros [[H _]|[-> [H|H] ] ]; [exact H|congruence|exact H].
    + intros H. destruct (string_dec d "__proto__") as [->|Hd]; auto.
  - exact Hkeys.
Qed.

(** ** [addDomain] and [interact] together *)

(** A domain that has been added is known to [interact] under its name,
    whatever the name, with the folders [addDomain] derived for it; and
    adding it does not make [interact] lose any domain registered under
    another name. *)
Theorem added_domain_is_known (domain agent : string)
  (agents : option (list string)) (c : constitution) (random : list nat)
  (s : State) :
  let s1 := snd (addDomain domain agents c s) in
  let w := Path.join [rootFolder (tir s); "nodes"; createKey domain] in
  fst (interact domain agent random s1)
  = Ok (mkInteractionSpace agent (Path.join [w; "inbound"])
          (Path.join [Path.join [w; "outbound"]; token random]))
  /\ (forall other cfg,
        other <> domain ->
        get_config other (domainConfigs (tir s)) = Some (Descriptor cfg) ->
        fst (interact other agent random s1)
        = Ok (mkInteractionSpace agent (inbound cfg)
                (Path.join [outbound cfg; token random])))
  /\ rootFolder (tir s1) = rootFolder (tir s)
  /\ testerNode (tir s1) = testerNode (tir s)
  /\ world s1 = world s.
Proof.
  intros s1 w. conj; try reflexivity.
  - pose proof (get_config_set_config (domainConfigs (tir s)) domain
                  (mkDomainConfig domain agents c w (Path.join [w; "conf"])
                     (Path.join [w; "inbound"]) (Path.join [w; "outbound"])))
      as Hcfg.
    destruct (interact_registered domain agent random s1 _ Hcfg)
      as (s2 & Hrun & _).
    rewrite Hrun. reflexivity.
  - intros other cfg Hne Hcfg.
    assert (Hcfg1 : get_config other (domainConfigs (tir s1))
                    = Some (Descriptor cfg)).
    { subst s1. unfold addDomain, with_tir. cbn [snd tir domainConfigs].
      apply get_config_set_config_descriptor; assumption. }
    destruct (interact_registered other agent random s1 _ Hcfg1)
      as (s2 & Hrun & _).
    rewrite Hrun. reflexivity.
Qed.

(** What [interact] does with a name, case by case.  It returns exactly
    for the names registered.  A name found nowhere, neither among the
    descriptors nor along the prototype chain, gets the error that names it
    and lists the keys [Object.keys] gives, each of which is a registered
    name; on a runner where [__proto__] was not added, every name that is
    neither a key nor a member of [Object.prototype] is such a name. *)
Theorem interact_fails_iff_unregistered (domain agent : string)
  (random : list nat) (s : State) :
  let r := domainConfigs (tir s) in
  (is_throw (fst (interact domain agent random s)) = true
   <-> ~ registered domain r)
  /\ (forall cfg,
        get_config domain r = Some (Descriptor cfg) ->
        fst (interact domain agent random s)
        = Ok (mkInteractionSpace agent (inbound cfg)
                (Path.join [outbound cfg; token random])))
  /\ (get_config domain r = None ->
      interact domain agent random s
      = (Throw (Error ("Could not find domain " ++ domain ++ " in "
                       ++ JS.join ", " (Object_keys r))), s))
  /\ (proto r = None -> ~ In domain inherited_names ->
      ~ In domain (Object_keys r) -> get_config domain r = None)
  /\ (forall other, In other (Object_keys r) -> registered other r).
Proof.
  intros r.
  assert (Hreturns : forall cfg,
            get_config domain r = Some (Descriptor cfg) ->
            fst (interact domain agent random s)
            = Ok (mkInteractionSpace agent (inbound cfg)
                    (Path.join [outbound cfg; token random]))).
  { intros cfg Hcfg.
    destruct (interact_registered domain agent random s cfg Hcfg)
      as (s' & Hrun & _).
    rewrite Hrun. reflexivity. }
  conj.
  - rewrite registered_descriptor. fold r.
    destruct (get_config domain r) as [[cfg| | | | |]|] eqn:Hget;
      try (rewrite (Hreturns cfg eq_refl); split;
           [discriminate|intros H; exfalso; apply H; eauto]);
      (unfold interact; unfold bind at 1; unfold get_tir; cbv beta iota;
       fold r; rewrite Hget; split; [intros _ [cfg H]; discriminate H
                                    |reflexivity]).
  - exact Hreturns.
  - intros Hget. unfold interact. unfold bind at 1. unfold get_tir.
    cbv beta iota. fold r. rewrite Hget. reflexivity.
  - intros Hproto Hinherited Hkey. unfold get_config.
    destruct (own_property domain (own r)) eqn:Hown.
    { exfalso. apply Hkey, own_property_keys. congruence. }
    rewrite Hproto. unfold object_prototype.
    destruct (String.eqb_spec domain "__proto__") as [->|Hne].
    { exfalso. apply Hinherited. left. reflexivity. }
    destruct (existsb (String.eqb domain) builtin_names) eqn:Hb;
      [|reflexivity].
    exfalso. apply Hinherited. right. apply existsb_exists in Hb.
    destruct Hb as (x & Hx & Heq). apply String.eqb_eq in Heq. subst x.
    exact Hx.
  - intros other Hin. left. exact Hin.
Qed.

(** Three domains added as [b], [10], [2] are provisioned as [2], [10],
    [b]; a fourth one named [__proto__] is not provisioned at all, though
    [interact] knows it. *)
Example index_names_are_listed_first :
  let s := configure [("b", None, ConstitutionPath "c.js");
                      ("10", None, ConstitutionPath "c.js");
                      ("__proto__", None, ConstitutionPath "c.js");
                      ("2", None, ConstitutionPath "c.js")]
             (new_Tir "x7Gk2p") in
  Object_keys (domainConfigs (tir s)) = ["2"; "10"; "b"]
  /\ map name (known_configs (domainConfigs (tir s))) = ["2"; "10"; "b"]
  /\ is_throw (fst (interact "__proto__" "a0" [] s)) = false.
Proof. cbv zeta. conj; vm_compute; reflexivity. Qed.
